(** * SMY02 signal-generator control: controller, sweep generator, hopping

    A shallow embedding of [src/smy02_controller.py] (the command layer and
    the modulation state), of the sweep generators of [qt_gui.py] and
    [smy02_gui.py], and of the two hopping schedulers (the worker thread of
    the tkinter GUI and the timer slot of the Qt GUI), followed by the
    properties of the design document that concern them.

    Conventions of the embedding.
    - The VISA link is a [Device]: an oracle that, given the wire history,
      says whether a write raises and what a query answers ([None]: the
      query raises, e.g. on a timeout).  Every attempted exchange is
      appended to the wire history, so "no device I/O" is "the history is
      unchanged".
    - Python exceptions are the [Raise] outcome of the monad [M]; all
      handlers in the source are [except Exception], so one outcome is
      enough.  Effects made before a raise persist.
    - [with self._io_lock] makes every controller call atomic; a call is one
      run of its monadic program.  Logging is not modelled.
    - [time.sleep] advances a millisecond clock.
    - Python floats are idealised as exact rationals ([Q]); their [repr]
      and [:.2f] renderings are parameters. *)

From Stdlib Require Import ZArith QArith Qround Qminmax Lqa Lia.
From Stdlib Require Import String Ascii List Bool DecimalString DecimalPos.
From Stdlib Require Import PrimFloat FloatOps SpecFloat.
From stdpp Require Import base option list gmap strings.

#[local] Open Scope string_scope.
#[local] Open Scope list_scope.
#[local] Open Scope Z_scope.

(** ** Python string helpers *)

Module PyStr.

Definition chars (s : string) : list ascii := list_ascii_of_string s.
Definition of_chars (l : list ascii) : string := string_of_list_ascii l.

(** [str.upper] on 7-bit text: pyvisa decodes replies as ASCII. *)
Definition upper_char (c : ascii) : ascii :=
  let n := nat_of_ascii c in
  if (97 <=? n)%nat && (n <=? 122)%nat then ascii_of_nat (n - 32) else c.

Definition upper (s : string) : string := of_chars (map upper_char (chars s)).

Fixpoint is_prefix (p s : list ascii) : bool :=
  match p, s with
  | [], _ => true
  | _ :: _, [] => false
  | a :: p', b :: s' => Ascii.eqb a b && is_prefix p' s'
  end.

Fixpoint contains_chars (p s : list ascii) : bool :=
  is_prefix p s ||
  match s with
  | [] => false
  | _ :: s' => contains_chars p s'
  end.

(** [needle in haystack] *)
Definition contains (needle haystack : string) : bool :=
  contains_chars (chars needle) (chars haystack).

(** [str.isspace] for code points below 128. *)
Definition is_space (c : ascii) : bool :=
  let n := nat_of_ascii c in
  ((9 <=? n)%nat && (n <=? 13)%nat) || ((28 <=? n)%nat && (n <=? 32)%nat).

Fixpoint lstrip_chars (s : list ascii) : list ascii :=
  match s with
  | c :: s' => if is_space c then lstrip_chars s' else s
  | [] => []
  end.

Definition strip_chars (s : list ascii) : list ascii :=
  rev (lstrip_chars (rev (lstrip_chars s))).

Definition strip (s : string) : string := of_chars (strip_chars (chars s)).

(** [str.split()] with no separator: runs of white space separate, empty
    fields are dropped.  [cur] is the field being read, reversed. *)
Fixpoint split_ws_from (cur s : list ascii) : list string :=
  match s with
  | [] => match cur with [] => [] | _ => [of_chars (rev cur)] end
  | c :: s' =>
      if is_space c then
        match cur with
        | [] => split_ws_from [] s'
        | _ => of_chars (rev cur) :: split_ws_from [] s'
        end
      else split_ws_from (c :: cur) s'
  end.

Definition split_ws (s : string) : list string := split_ws_from [] (chars s).

(** [str.split(sep)] for a one-character separator: empty fields are kept. *)
Fixpoint split_on_from (sep : ascii) (cur s : list ascii) : list string :=
  match s with
  | [] => [of_chars (rev cur)]
  | c :: s' =>
      if Ascii.eqb c sep then of_chars (rev cur) :: split_on_from sep [] s'
      else split_on_from sep (c :: cur) s'
  end.

Definition split_on (sep : ascii) (s : string) : list string :=
  split_on_from sep [] (chars s).

Definition digit_val (c : ascii) : option Z :=
  let n := nat_of_ascii c in
  if (48 <=? n)%nat && (n <=? 57)%nat then Some (Z.of_nat (n - 48)) else None.

(** Digits of an [int()] literal: single underscores are allowed between
    digits.  [after_digit] says that the previous character was a digit. *)
Fixpoint parse_digits (acc : Z) (after_digit : bool) (s : list ascii) : option Z :=
  match s with
  | [] => if after_digit then Some acc else None
  | c :: s' =>
      match digit_val c with
      | Some d => parse_digits (acc * 10 + d) true s'
      | None =>
          if Ascii.eqb c "_"%char && after_digit then parse_digits acc false s'
          else None
      end
  end.

(** [int(s)] on a string: [None] stands for [ValueError]. *)
Definition int (s : string) : option Z :=
  match strip_chars (chars s) with
  | c :: s' =>
      if Ascii.eqb c "-"%char then option_map Z.opp (parse_digits 0 false s')
      else if Ascii.eqb c "+"%char then parse_digits 0 false s'
      else parse_digits 0 false (c :: s')
  | [] => None
  end.

(** [str(n)] for an integer. *)
Definition of_Z (z : Z) : string := NilZero.string_of_int (Z.to_int z).

(** Rounding to the nearest integer, ties to even: the rounding of
    [round] and of the [%] float formats. *)
Definition round_half_even (x : Q) : Z :=
  let f := Qfloor x in
  match (x - inject_Z f ?= 1 # 2)%Q with
  | Lt => f
  | Gt => f + 1
  | Eq => if Z.even f then f else f + 1
  end.

(** [f"{float(d):.3E}"] for an integer [d] that a double holds exactly. *)
Definition format_3E (d : Z) : string :=
  let sgn := if d <? 0 then "-" else "" in
  let n := Z.abs d in
  if n =? 0 then sgn +:+ "0.000E+00"
  else
    let e := Z.of_nat (String.length (of_Z n)) - 1 in
    let m0 := if 3 <=? e then round_half_even (n # Z.to_pos (10 ^ (e - 3)))
              else n * 10 ^ (3 - e) in
    let '(m, e) := if 10000 <=? m0 then (m0 / 10, e + 1) else (m0, e) in
    let ms := of_Z m in
    let es := of_Z e in
    sgn +:+ substring 0 1 ms +:+ "." +:+ substring 1 3 ms +:+ "E+"
        +:+ (if e <? 10 then "0" +:+ es else es).

End PyStr.

(** ** The device behind the VISA link *)

Inductive wire_event : Type :=
  | Sent (cmd : string)      (* instrument.write(cmd) *)
  | Asked (cmd : string).    (* instrument.query(cmd) *)

#[export] Instance wire_event_eq_dec : EqDecision wire_event.
Proof. solve_decision. Defined.

Record Device : Type := {
  (* rm.open_resource(name): [false] when it raises *)
  dev_open : bool;
  (* write(cmd) after the given history: [false] when it raises *)
  dev_write : list wire_event -> string -> bool;
  (* query(cmd) after the given history, under the given timeout in ms:
     [None] when it raises (timeout, I/O error) *)
  dev_query : list wire_event -> Z -> string -> option string;
  (* close() after the given history: [false] when it raises *)
  dev_close : list wire_event -> bool
}.

Definition is_sent (e : wire_event) : bool :=
  match e with Sent _ => true | Asked _ => false end.

(** The commands written, in order. *)
Fixpoint writes_of (h : list wire_event) : list string :=
  match h with
  | [] => []
  | Sent c :: h' => c :: writes_of h'
  | Asked _ :: h' => writes_of h'
  end.

(** ** Controller state *)

Inductive modulation : Type := FM | AM.

#[export] Instance modulation_eq_dec : EqDecision modulation.
Proof. solve_decision. Defined.

(* the pyvisa resource object: only its timeout attribute is used *)
Record Instrument : Type := { timeout : Z }.

Record Controller : Type := {
  instrument : option Instrument;
  idn : string;
  model : string;
  _fm_initialized : bool;
  _modulation_mode : option modulation
}.

Record World : Type := {
  wire : list wire_event;
  clock_ms : Z
}.

Record St : Type := { ctl : Controller; world : World }.

(** [SMY02Controller.__init__] *)
Definition new_controller : Controller :=
  {| instrument := None; idn := ""; model := "";
     _fm_initialized := false; _modulation_mode := None |}.

Definition new_world : World := {| wire := []; clock_ms := 0 |}.

(** ** A state monad with exceptions *)

Inductive outcome (A : Type) : Type :=
  | Return (a : A)
  | Raise.
Arguments Return {A} a.
Arguments Raise {A}.

(** Programs over a state [S]: the controller runs on [St], each GUI on
    its own record. *)
Definition Prog (S A : Type) : Type := S -> outcome A * S.

Definition ret {S A} (a : A) : Prog S A := fun s => (Return a, s).

Definition bind {S A B} (m : Prog S A) (k : A -> Prog S B) : Prog S B :=
  fun s => match m s with
           | (Return a, s') => k a s'
           | (Raise, s') => (Raise, s')
           end.

Definition raise {S A} : Prog S A := fun s => (Raise, s).

(** [try: body / except Exception: handler] *)
Definition try_except {S A} (body handler : Prog S A) : Prog S A :=
  fun s => match body s with
           | (Return a, s') => (Return a, s')
           | (Raise, s') => handler s'
           end.

(** [try: body / finally: fin] *)
Definition try_finally {S A} (body : Prog S A) (fin : Prog S unit) : Prog S A :=
  fun s => match body s with
           | (r, s') =>
               match fin s' with
               | (Return _, s'') => (r, s'')
               | (Raise, s'') => (Raise, s'')
               end
           end.

Definition M (A : Type) : Type := Prog St A.

Declare Scope py_scope.
Delimit Scope py_scope with py.
Notation "'let*' x ':=' m 'in' k" := (bind m (fun x => k))
  (at level 10, x name, m at level 100, k at level 200) : py_scope.
Notation "m ;; k" := (bind m (fun _ => k))
  (at level 100, k at level 200, right associativity) : py_scope.
#[local] Open Scope py_scope.

Definition get_ctl : M Controller := fun s => (Return (ctl s), s).

Definition put_ctl (c : Controller) : M unit :=
  fun s => (Return tt, {| ctl := c; world := world s |}).

Definition modify_ctl (f : Controller -> Controller) : M unit :=
  fun s => (Return tt, {| ctl := f (ctl s); world := world s |}).

Definition set_instrument (i : option Instrument) (c : Controller) : Controller :=
  {| instrument := i; idn := idn c; model := model c;
     _fm_initialized := _fm_initialized c; _modulation_mode := _modulation_mode c |}.

Definition set_identity (i m : string) (c : Controller) : Controller :=
  {| instrument := instrument c; idn := i; model := m;
     _fm_initialized := _fm_initialized c; _modulation_mode := _modulation_mode c |}.

Definition set_fm_initialized (b : bool) (c : Controller) : Controller :=
  {| instrument := instrument c; idn := idn c; model := model c;
     _fm_initialized := b; _modulation_mode := _modulation_mode c |}.

Definition set_modulation_mode (m : option modulation) (c : Controller) : Controller :=
  {| instrument := instrument c; idn := idn c; model := model c;
     _fm_initialized := _fm_initialized c; _modulation_mode := m |}.

Definition log_wire (e : wire_event) (w : World) : World :=
  {| wire := wire w ++ [e]; clock_ms := clock_ms w |}.

(** [time.sleep], in milliseconds *)
Definition sleep (ms : Z) : M unit :=
  fun s => (Return tt,
            {| ctl := ctl s;
               world := {| wire := wire (world s); clock_ms := clock_ms (world s) + ms |} |}).

Definition option_lift {S A} (o : option A) : Prog S A :=
  match o with Some a => ret a | None => raise end.

Fixpoint for_each {S A} (l : list A) (body : A -> Prog S unit) : Prog S unit :=
  match l with
  | [] => ret tt
  | x :: l' => body x ;; for_each l' body
  end.

(** ** The controller ([SMY02Controller]) *)

Section Controller.

Variable dev : Device.

(* repr() of a float, as in [f"LEVEL {amplitude}"] *)
Variable float_repr : Q -> string.

(** [self.instrument.write(cmd)]; on a controller without instrument this
    is an attribute error on [None]. *)
Definition instr_write (cmd : string) : M unit :=
  fun s =>
    match instrument (ctl s) with
    | None => (Raise, s)
    | Some _ =>
        let s' := {| ctl := ctl s; world := log_wire (Sent cmd) (world s) |} in
        if dev_write dev (wire (world s)) cmd then (Return tt, s') else (Raise, s')
    end.

(** [self.instrument.query(cmd)] *)
Definition instr_query (cmd : string) : M string :=
  fun s =>
    match instrument (ctl s) with
    | None => (Raise, s)
    | Some i =>
        let s' := {| ctl := ctl s; world := log_wire (Asked cmd) (world s) |} in
        match dev_query dev (wire (world s)) (timeout i) cmd with
        | Some resp => (Return resp, s')
        | None => (Raise, s')
        end
    end.

(** [self.instrument.timeout] *)
Definition get_timeout : M Z :=
  let* c := get_ctl in
  match instrument c with
  | Some i => ret (timeout i)
  | None => raise
  end.

(** [self.instrument.timeout = t] *)
Definition set_timeout (t : Z) : M unit :=
  let* c := get_ctl in
  match instrument c with
  | Some _ => put_ctl (set_instrument (Some {| timeout := t |}) c)
  | None => raise
  end.

(** ["SMY02" in (self.model or "").upper() or "SMY02" in (self.idn or "").upper()] *)
Definition is_smy02_of (c : Controller) : bool :=
  PyStr.contains "SMY02" (PyStr.upper (model c))
  || PyStr.contains "SMY02" (PyStr.upper (idn c)).

Definition connect : M bool :=
  try_except
    (if dev_open dev then
       modify_ctl (set_instrument (Some {| timeout := 5000 |})) ;;
       let* resp := instr_query "*IDN?" in
       let idn := PyStr.strip resp in
       let parts := map PyStr.strip (PyStr.split_on ","%char idn) in
       let model := match parts with _ :: m :: _ => m | _ => "Unknown" end in
       modify_ctl (set_identity idn model) ;;
       ret true
     else raise)
    (ret false).

(** [self.instrument.close()]: it exchanges no message with the device. *)
Definition instr_close : M unit :=
  fun s =>
    match instrument (ctl s) with
    | None => (Raise, s)
    | Some _ => if dev_close dev (wire (world s)) then (Return tt, s) else (Raise, s)
    end.

(** [close()] is called outside any [try]: when it raises, so does
    [disconnect], before the three attributes are reset. *)
Definition disconnect : M unit :=
  let* c := get_ctl in
  match instrument c with
  | Some _ =>
      instr_close ;;
      modify_ctl (fun c => set_modulation_mode None
                             (set_fm_initialized false (set_instrument None c)))
  | None => ret tt
  end.

(** [int(resp.strip().split()[-1])] *)
Definition esr_of_response (resp : string) : option Z :=
  match last (PyStr.split_ws (PyStr.strip resp)) with
  | Some tok => PyStr.int tok
  | None => None
  end.

(** The value [get_esr] yields for an answer of the status query ([None]:
    the query raised). *)
Definition esr_of_answer (a : option string) : option Z :=
  match a with
  | Some resp => esr_of_response resp
  | None => None
  end.

Definition get_esr : M (option Z) :=
  let* c := get_ctl in
  match instrument c with
  | None => ret None
  | Some _ =>
      try_except
        (let* old_timeout := get_timeout in
         set_timeout 500 ;;
         try_finally
           (let* resp := instr_query "*ESR?" in
            let* val := option_lift (esr_of_response resp) in
            ret (Some val))
           (set_timeout old_timeout))
        (ret None)
  end.

Definition clear_status : M bool :=
  let* c := get_ctl in
  match instrument c with
  | None => ret false
  | Some _ =>
      try_except (instr_write "*CLS" ;; sleep 50 ;; ret true) (ret false)
  end.

(** [esr is not None and esr == 0] *)
Definition esr_is_zero (esr : option Z) : bool :=
  match esr with Some v => v =? 0 | None => false end.

(** [esr is None or esr == 0] *)
Definition esr_none_or_zero (esr : option Z) : bool :=
  match esr with Some v => v =? 0 | None => true end.

(** [esr in (32, 53)]; [None] is not a member. *)
Definition benign_codes : list Z := [32; 53].

Definition esr_benign (esr : option Z) : bool :=
  match esr with
  | Some v => existsb (Z.eqb v) benign_codes
  | None => false
  end.

(** The argument is the integer the callers pass ([int(mhz * 1e6)]), on
    which [int(frequency)] is the identity. *)
Definition set_frequency (frequency : Z) : M bool :=
  let* c := get_ctl in
  match instrument c with
  | None => ret false
  | Some _ =>
      let cmd := "RF " +:+ PyStr.of_Z frequency in
      let is_smy02 := is_smy02_of c in
      try_except
        (instr_write cmd ;;
         sleep (if is_smy02 then 50 else 200) ;;
         if is_smy02 then ret true
         else
           let* esr := get_esr in
           if esr_is_zero esr then ret true else ret false)
        (ret false)
  end.

Definition set_amplitude (amplitude : Q) : M bool :=
  let* c := get_ctl in
  match instrument c with
  | None => ret false
  | Some _ =>
      let cmd := "LEVEL " +:+ float_repr amplitude in
      let is_smy02 := is_smy02_of c in
      try_except
        (instr_write cmd ;;
         sleep (if is_smy02 then 50 else 200) ;;
         if is_smy02 then ret true
         else
           let* esr := get_esr in
           if esr_is_zero esr then ret true else ret false)
        (ret false)
  end.

Definition enable_output_candidates (is_smy02 : bool) : list string :=
  if is_smy02 then ["OUTP ON"]
  else ["OUTP ON"; "OUTP:STAT ON"; "OUTPON"; "LEVEL:ON"; "RF:ON"].

(** The [for cmd in candidates] loop of [enable_output]: the first
    component is the value of a [return] taken inside the loop, the second
    is [last_esr]. *)
Fixpoint enable_output_loop (is_smy02 : bool) (candidates : list string)
    (last_esr : option Z) : M (option bool * option Z) :=
  match candidates with
  | [] => ret (None, last_esr)
  | cmd :: rest =>
      clear_status ;;
      sleep 100 ;;
      instr_write cmd ;;
      sleep 200 ;;
      let* esr := get_esr in
      if esr_none_or_zero esr then ret (Some true, esr)
      else if is_smy02 && esr_benign esr then ret (Some true, esr)
      else enable_output_loop is_smy02 rest esr
  end.

Definition enable_output : M bool :=
  let* c := get_ctl in
  match instrument c with
  | None => ret false
  | Some _ =>
      try_except
        (let is_smy02 := is_smy02_of c in
         let* r := enable_output_loop is_smy02 (enable_output_candidates is_smy02) None in
         match r with
         | (Some b, _) => ret b
         | (None, last_esr) => if esr_benign last_esr then ret true else ret false
         end)
        (ret false)
  end.

Definition disable_output : M bool :=
  let* c := get_ctl in
  match instrument c with
  | None => ret false
  | Some _ =>
      try_except
        (clear_status ;;
         sleep 100 ;;
         for_each ["OUTP OFF"; "LEVEL:OFF"] (fun cmd => instr_write cmd ;; sleep 150) ;;
         ret true)
        (ret false)
  end.

(** The deviation candidates of the generic branch of [set_modulation_fm]:
    a candidate that raises or whose ESR is a nonzero code is skipped; the
    result is [deviation_set]. *)
Fixpoint deviation_loop (cmds : list string) : M bool :=
  match cmds with
  | [] => ret false
  | cmd :: rest =>
      let* accepted :=
        try_except
          (clear_status ;;
           sleep 50 ;;
           instr_write cmd ;;
           sleep 150 ;;
           let* esr := get_esr in
           ret (esr_none_or_zero esr))
          (ret false) in
      if accepted then ret true else deviation_loop rest
  end.

Definition deviation_cmds (deviation : Z) : list string :=
  [ "FM " +:+ PyStr.of_Z deviation;
    "FM:DEV " +:+ PyStr.of_Z deviation;
    "FM:DEV " +:+ PyStr.format_3E deviation;
    "FM:DEVIATION " +:+ PyStr.of_Z deviation;
    "FM:INT:DEV " +:+ PyStr.of_Z deviation ].

(** The deviation is the integer of the [BANDWIDTHS] table (or the default
    5000), so [int(deviation)] is the identity. *)
Definition set_modulation_fm (deviation : Z) : M bool :=
  let* c := get_ctl in
  match instrument c with
  | None => ret false
  | Some _ =>
      try_except
        (if is_smy02_of c then
           try_except
             ((if negb (_fm_initialized c) then
                 for_each ["FM:INT 1.000E+3"; "AF 1000"; "FM:ON"]
                   (fun cmd => instr_write cmd ;; sleep 60) ;;
                 modify_ctl (set_fm_initialized true)
               else if negb (bool_decide (_modulation_mode c = Some FM)) then
                 for_each ["AM:OFF"; "FM:ON"] (fun cmd => instr_write cmd ;; sleep 50)
               else ret tt) ;;
              instr_write ("FM " +:+ PyStr.of_Z deviation) ;;
              sleep 60 ;;
              modify_ctl (set_modulation_mode (Some FM)) ;;
              ret true)
             (ret false)
         else
           clear_status ;;
           sleep 100 ;;
           for_each ["FM:INT 1.000E+3"; "AF 1000"] (fun cmd => instr_write cmd ;; sleep 150) ;;
           deviation_loop (deviation_cmds deviation) ;;
           instr_write "FM:ON" ;;
           sleep 150 ;;
           modify_ctl (set_modulation_mode (Some FM)) ;;
           ret true)
        (ret false)
  end.

Definition set_modulation_am : M bool :=
  let* c := get_ctl in
  match instrument c with
  | None => ret false
  | Some _ =>
      try_except
        (if is_smy02_of c then
           for_each ["FM:OFF"; "AM:ON"] (fun cmd => instr_write cmd ;; sleep 60) ;;
           modify_ctl (set_modulation_mode (Some AM)) ;;
           ret true
         else
           for_each ["FM:OFF"; "AM:ON"; "AM ON"; "AM:STAT ON"]
             (fun cmd => try_except (instr_write cmd ;; sleep 80) (ret tt)) ;;
           modify_ctl (set_modulation_mode (Some AM)) ;;
           ret true)
        (ret false)
  end.

(** The [for cmd in commands] loop of [_try_commands_with_check]: [Some b]
    is a [return b] taken inside the loop, [None] is the loop running out. *)
Fixpoint try_commands_loop (commands : list string) : M (option bool) :=
  match commands with
  | [] => ret None
  | cmd :: rest =>
      let* r :=
        try_except
          (try_except (clear_status ;; ret tt) (ret tt) ;;
           instr_write cmd ;;
           sleep 150 ;;
           let* esr := get_esr in
           match esr with
           | Some v => if v =? 0 then ret (Some true) else ret None
           | None => ret (Some true)
           end)
          (ret None) in
      match r with
      | Some b => ret (Some b)
      | None => try_commands_loop rest
      end
  end.

Definition _try_commands_with_check (commands : list string) : M bool :=
  let* c := get_ctl in
  match instrument c with
  | None => ret false
  | Some _ =>
      let* r := try_commands_loop commands in
      match r with
      | Some b => ret b
      | None => ret false
      end
  end.

Definition set_lfo_frequency (frequency : Q) : M bool :=
  _try_commands_with_check
    [ "LFO:FREQ " +:+ float_repr frequency;
      "SOUR:LFO:FREQ " +:+ float_repr frequency;
      "SOUR:MOD:LFO:FREQ " +:+ float_repr frequency ].

Definition enable_lfo : M bool :=
  _try_commands_with_check
    ["LFO:STAT ON"; "LFO:STATE ON"; "SOUR:LFO:STAT ON"; "SOUR:MOD:LFO:STAT ON"].

Definition disable_lfo : M bool :=
  _try_commands_with_check
    ["LFO:STAT OFF"; "LFO:STATE OFF"; "SOUR:LFO:STAT OFF"; "SOUR:MOD:LFO:STAT OFF"].

End Controller.

(** ** The controller: reset and read-back *)

(* the dict with keys "rf", "level", "fm", "af" of [get_device_state] *)
Record DeviceState : Type := {
  state_rf : string;
  state_level : string;
  state_fm : string;
  state_af : string
}.

Inductive state_key : Type := KeyRf | KeyLevel | KeyFm | KeyAf.

(** [state[key] = value] *)
Definition state_set (key : state_key) (value : string) (st : DeviceState) : DeviceState :=
  match key with
  | KeyRf => {| state_rf := value; state_level := state_level st;
                state_fm := state_fm st; state_af := state_af st |}
  | KeyLevel => {| state_rf := state_rf st; state_level := value;
                   state_fm := state_fm st; state_af := state_af st |}
  | KeyFm => {| state_rf := state_rf st; state_level := state_level st;
                state_fm := value; state_af := state_af st |}
  | KeyAf => {| state_rf := state_rf st; state_level := state_level st;
                state_fm := state_fm st; state_af := value |}
  end.

Definition state_get (key : state_key) (st : DeviceState) : string :=
  match key with
  | KeyRf => state_rf st
  | KeyLevel => state_level st
  | KeyFm => state_fm st
  | KeyAf => state_af st
  end.

(** [{"rf": "N/A", "level": "N/A", "fm": "N/A", "af": "N/A"}] *)
Definition no_state : DeviceState :=
  {| state_rf := "N/A"; state_level := "N/A"; state_fm := "N/A"; state_af := "N/A" |}.

(** [value or "N/A"]: [None] and the empty string are falsy. *)
Definition or_na (value : option string) : string :=
  match value with
  | Some s => if String.eqb s "" then "N/A" else s
  | None => "N/A"
  end.

(** The queries [get_device_state] tries for each key, in the order of
    its assignments. *)
Definition state_queries : list (state_key * list string) :=
  [ (KeyRf, ["RF?"; "FREQ?"; "SOUR:FREQ?"]);
    (KeyLevel, ["LEVEL?"; "POW?"; "SOUR:POW?"]);
    (KeyFm, ["FM?"; "FM:STAT?"]);
    (KeyAf, ["AF?"; "FM:INT?"]) ].

Section ControllerReadback.

Variable dev : Device.

(* float(s) on a string: [None] stands for [ValueError] *)
Variable py_float : string -> option Q.

(** No guard on [self.instrument]: without instrument the write is an
    attribute error, caught like any other. *)
Definition reset : M bool :=
  try_except (instr_write dev "*RST" ;; ret true) (ret false).

(** A query answers a string, so [response is not None] holds whenever
    the query returns. *)
Fixpoint _query_first (queries : list string) : M (option string) :=
  match queries with
  | [] => ret None
  | query :: rest =>
      let* r :=
        try_except
          (let* response := instr_query dev query in
           ret (Some (PyStr.strip response)))
          (ret None) in
      match r with
      | Some answer => ret (Some answer)
      | None => _query_first rest
      end
  end.

(** The assignments [state[key] = self._query_first(...) or "N/A"] inside
    the [try] of [get_device_state]: an exception leaves the dict as the
    assignments before it made it. *)
Fixpoint read_state (fields : list (state_key * list string)) (state : DeviceState)
    : M DeviceState :=
  match fields with
  | [] => ret state
  | (key, queries) :: rest =>
      try_except
        (let* answer := _query_first queries in
         read_state rest (state_set key (or_na answer) state))
        (ret state)
  end.

Definition get_device_state : M DeviceState :=
  let* c := get_ctl in
  match instrument c with
  | None => ret no_state
  | Some _ =>
      let* old_timeout := get_timeout in
      try_finally
        (try_except
           (set_timeout 1000 ;;
            read_state state_queries no_state)
           (ret no_state))
        (set_timeout old_timeout)
  end.

(** [for tok in parts: try: return float(tok) except: continue] *)
Fixpoint first_float (parts : list string) : option Q :=
  match parts with
  | [] => None
  | tok :: rest =>
      match py_float tok with
      | Some val => Some val
      | None => first_float rest
      end
  end.

(** [for query in (...): try: return float(self.instrument.query(query))
    except: continue] *)
Fixpoint fallback_float (queries : list string) : M (option Q) :=
  match queries with
  | [] => ret None
  | query :: rest =>
      let* r :=
        try_except
          (let* response := instr_query dev query in
           let* val := option_lift (py_float response) in
           ret (Some val))
          (ret None) in
      match r with
      | Some val => ret (Some val)
      | None => fallback_float rest
      end
  end.

Definition get_frequency : M (option Q) :=
  let* r :=
    try_except
      (let* resp := instr_query dev "RF?" in
       ret (first_float (PyStr.split_ws (PyStr.strip resp))))
      (ret None) in
  match r with
  | Some val => ret (Some val)
  | None => fallback_float ["SOUR:FREQ?"; "FREQ?"]
  end.

Definition get_amplitude : M (option Q) :=
  let* r :=
    try_except
      (let* resp := instr_query dev "LEVEL?" in
       ret (first_float (PyStr.split_ws (PyStr.strip resp))))
      (ret None) in
  match r with
  | Some val => ret (Some val)
  | None => fallback_float ["SOUR:POW?"; "POW?"]
  end.

End ControllerReadback.

(** Running a state program and keeping only one component. *)
Definition result_of {S A} (r : outcome A * S) : outcome A := fst r.
Definition state_of {S A} (r : outcome A * S) : S := snd r.

(** ** Devices used in the examples *)

(** A device on which no write raises. *)
Definition writes_accepted (dev : Device) : Prop :=
  forall h cmd, dev_write dev h cmd = true.

(** A device whose every status query is answered by a nonzero code
    outside the benign codes. *)
Definition status_rejects (dev : Device) : Prop :=
  forall h t, exists v,
    esr_of_answer (dev_query dev h t "*ESR?") = Some v /\ v <> 0 /\ ~ In v benign_codes.

(** A device that accepts every write, identifies itself by [idn_reply] and
    answers every status query by [esr_reply] ([None]: the query times
    out); other queries time out. *)
Definition simple_device (idn_reply : string) (esr_reply : option string) : Device :=
  {| dev_open := true;
     dev_write := fun _ _ => true;
     dev_query := fun _ _ q =>
       if String.eqb q "*IDN?" then Some idn_reply
       else if String.eqb q "*ESR?" then esr_reply
       else None;
     dev_close := fun _ => true |}.

Definition smy02_idn : string := "ROHDE&SCHWARZ,SMY02,123456/001,2.02".
Definition generic_idn : string := "ACME,GEN1,0,1.0".

(** A controller just built, and one just connected to [dev]. *)
Definition fresh_state : St := {| ctl := new_controller; world := new_world |}.
Definition connected_state (dev : Device) : St := state_of (connect dev fresh_state).

(** A rendering of rationals standing for [repr] in the examples. *)
Definition ratio_repr (q : Q) : string :=
  PyStr.of_Z (Qnum q) +:+ "/" +:+ PyStr.of_Z (Zpos (Qden q)).

(** ** Playlist entries and the sweep generator *)

(* the dict with keys "name", "frequency" (MHz), "level" (dBm), "bandwidth" *)
Record PlaylistEntry : Type := {
  name : string;
  frequency : Q;
  level : Q;
  bandwidth : string
}.

(** The [BANDWIDTHS] table of both GUIs: FM deviation in Hz. *)
Definition BANDWIDTHS : list (string * Z) :=
  [ ("6.25 kHz", 3125); ("12.5 kHz", 6250); ("25 kHz", 12500) ].

(** [BANDWIDTHS[bw]]: [None] stands for [KeyError]. *)
Fixpoint bandwidth_lookup (table : list (string * Z)) (bw : string) : option Z :=
  match table with
  | [] => None
  | (k, v) :: table' => if String.eqb k bw then Some v else bandwidth_lookup table' bw
  end.

(** [bw if bw in BANDWIDTHS else "12.5 kHz"] *)
Definition normalize_bandwidth (bw : string) : string :=
  match bandwidth_lookup BANDWIDTHS bw with
  | Some _ => bw
  | None => "12.5 kHz"
  end.

(** [round(x, 6)] *)
Definition round6 (x : Q) : Q :=
  PyStr.round_half_even (x * 1000000) # 1000000.

(** [int(mhz * 1e6)]: truncation toward zero. *)
Definition hz_of_mhz (mhz : Q) : Z :=
  Z.quot (Qnum mhz * 1000000) (Zpos (Qden mhz)).

(* the values read from the sweep widgets *)
Record SweepSpec : Type := {
  sweep_start : Q;
  sweep_stop : Q;
  sweep_step : Q;
  sweep_base_level : Q;
  sweep_alt_enable : bool;
  sweep_alt_level : Q;
  sweep_toggle_every : Z;
  sweep_replace : bool;
  sweep_reverse : bool        (* "Back and forth": Qt GUI only *)
}.

(** The level of the point of index [idx]. *)
Definition sweep_level (spec : SweepSpec) (idx : Z) : Q :=
  if sweep_alt_enable spec then
    let block := (idx / sweep_toggle_every spec) mod 2 in
    if block =? 1 then sweep_alt_level spec else sweep_base_level spec
  else sweep_base_level spec.

(** *** The sweep in exact arithmetic

    The loop of [_generate_sweep_playlist] with the rationals in place of
    the doubles: what the loop computes when no addition and no comparison
    rounds.  It gives the shape of the generated list (levels, order,
    ping-pong); which points lie in the list at the boundary depends on
    the rounding of the doubles, for which see [Double.sweep_loop]
    below. *)

(** The loop condition [(current <= stop + eps) if ascending else (current >= stop - eps)]. *)
Definition sweep_continues (ascending : bool) (stop eps current : Q) : bool :=
  if ascending then Qle_bool current (stop + eps)
  else Qle_bool (stop - eps) current.

(** The [while] loop of [_generate_sweep_playlist].  [make] builds the entry
    from the rounded frequency and the level (the two GUIs differ in the
    name they give).  [None]: the fuel ran out before the loop ended. *)
Fixpoint sweep_loop (fuel : nat) (make : Q -> Q -> PlaylistEntry) (spec : SweepSpec)
    (ascending : bool) (eps : Q) (idx : Z) (current : Q) : option (list PlaylistEntry) :=
  match fuel with
  | O => None
  | S fuel' =>
      if sweep_continues ascending (sweep_stop spec) eps current then
        let level := sweep_level spec idx in
        let freq := round6 current in
        let next := if ascending then (current + sweep_step spec)%Q
                    else (current - sweep_step spec)%Q in
        match sweep_loop fuel' make spec ascending eps (idx + 1) next with
        | Some rest => Some (make freq level :: rest)
        | None => None
        end
      else Some []
  end.

(** The forward list, for a specification that passed the checks
    [step > 0] and [toggle_every >= 1]. *)
Definition sweep_forward (fuel : nat) (make : Q -> Q -> PlaylistEntry) (spec : SweepSpec)
    : option (list PlaylistEntry) :=
  let ascending := Qle_bool (sweep_start spec) (sweep_stop spec) in
  let eps := (sweep_step spec / 10)%Q in
  sweep_loop fuel make spec ascending eps 0 (sweep_start spec).

(** The point of index [idx + j] of a sweep that is at [current] for the
    index [idx]: [j] steps further, rounded. *)
Definition sweep_point (make : Q -> Q -> PlaylistEntry) (spec : SweepSpec)
    (ascending : bool) (idx : Z) (current : Q) (j : nat) : PlaylistEntry :=
  let x := if ascending then (current + inject_Z (Z.of_nat j) * sweep_step spec)%Q
           else (current - inject_Z (Z.of_nat j) * sweep_step spec)%Q in
  make (round6 x) (sweep_level spec (idx + Z.of_nat j)).

(** The number of points of the forward list: one more than the number of
    whole steps that fit between the start and the stop moved outward by a
    tenth of a step. *)
Definition sweep_count (spec : SweepSpec) : nat :=
  let span := if Qle_bool (sweep_start spec) (sweep_stop spec)
              then (sweep_stop spec - sweep_start spec)%Q
              else (sweep_start spec - sweep_stop spec)%Q in
  (Z.to_nat (Qfloor (span / sweep_step spec + (1 # 10))%Q) + 1)%nat.

(** The length the design document gives for an ascending forward list:
    [floor((stop - start)/step + eps) + 1] with [eps = step/10]. *)
Definition claimed_forward_length (spec : SweepSpec) : Z :=
  Qfloor ((sweep_stop spec - sweep_start spec) / sweep_step spec + sweep_step spec / 10)%Q + 1.

(** [forward[1:-1]] *)
Definition interior {A} (l : list A) : list A :=
  firstn (length l - 1 - 1) (skipn 1 l).

(** [entries = list(forward)] followed by the ping-pong extension of the
    Qt GUI. *)
Definition ping_pong (reverse : bool) (forward : list PlaylistEntry) : list PlaylistEntry :=
  if reverse && (2 <? length forward)%nat then forward ++ rev (interior forward)
  else forward.

(** Sweeps used in the examples: 108 to 111 MHz in steps of 1 MHz, back
    and forth; and 100 to 110 MHz in steps of 20 MHz. *)
Definition scenario_sweep : SweepSpec :=
  {| sweep_start := 108; sweep_stop := 111; sweep_step := 1;
     sweep_base_level := -20; sweep_alt_enable := false; sweep_alt_level := -30;
     sweep_toggle_every := 1;
     sweep_replace := true; sweep_reverse := true |}.

Definition coarse_sweep : SweepSpec :=
  {| sweep_start := 100; sweep_stop := 110; sweep_step := 20;
     sweep_base_level := -20; sweep_alt_enable := false; sweep_alt_level := -30;
     sweep_toggle_every := 1;
     sweep_replace := true; sweep_reverse := false |}.

(** An entry maker for the examples. *)
Definition plain_entry (bw : string) (freq level : Q) : PlaylistEntry :=
  {| name := "Sweep"; frequency := freq; level := level; bandwidth := bw |}.

(** *** The sweep on doubles

    Python's [float] is the IEEE 754 binary64 format, which is the
    primitive [float] here: [+], [-], [/] and [<=?] round and compare as
    the interpreter does. *)

Module Double.

(** The rational a finite double stands for (0 for an infinity or a NaN,
    which the loop never stores: a comparison with a NaN is false, and once
    [current] is infinite it stays so and the loop does not end). *)
Definition value_of (x : float) : Q :=
  match Prim2SF x with
  | S754_finite s m e =>
      let n := if s then Zneg m else Zpos m in
      match e with
      | Zneg p => Qred (n # (2 ^ p))
      | _ => inject_Z (n * 2 ^ e)
      end
  | _ => 0
  end.

(** The double nearest to a rational, ties to even: [float(text)] for the
    decimal [text] of a widget. *)
Definition to_double (q : Q) : float :=
  let n := match Qnum q with
           | Z0 => S754_zero false
           | Zpos p => S754_finite false p 0
           | Zneg p => S754_finite true p 0
           end in
  SF2Prim (SFdiv prec emax n (S754_finite false (Qden q) 0)).

(** [round(x, 6)]: the exact value of [x] is rounded to six decimals, ties
    to even, and the double nearest to that decimal is returned, with the
    sign of [x]; an infinity or a NaN is returned as it is. *)
Definition round6 (x : float) : float :=
  match Prim2SF x with
  | S754_finite s _ _ =>
      let r := to_double (round6 (value_of x)) in
      if s && is_zero r then neg_zero else r
  | _ => x
  end.

(** The loop condition [(current <= stop + eps) if ascending else (current >= stop - eps)]. *)
Definition sweep_continues (ascending : bool) (stop eps current : float) : bool :=
  if ascending then (current <=? stop + eps)%float
  else (stop - eps <=? current)%float.

(** The [while] loop of [_generate_sweep_playlist].  [make] builds the entry
    from the value of the rounded frequency and the level.  [None]: the
    fuel ran out before the loop ended. *)
Fixpoint sweep_loop (fuel : nat) (make : Q -> Q -> PlaylistEntry) (spec : SweepSpec)
    (ascending : bool) (stop step eps : float) (idx : Z) (current : float)
    : option (list PlaylistEntry) :=
  match fuel with
  | O => None
  | S fuel' =>
      if sweep_continues ascending stop eps current then
        let level := sweep_level spec idx in
        let freq := round6 current in
        let next := if ascending then (current + step)%float
                    else (current - step)%float in
        match sweep_loop fuel' make spec ascending stop step eps (idx + 1) next with
        | Some rest => Some (make (value_of freq) level :: rest)
        | None => None
        end
      else Some []
  end.

(** The forward list, for a specification that passed the checks
    [step > 0] and [toggle_every >= 1]: [start], [stop] and [step] are
    the doubles of the three decimals of the widgets. *)
Definition sweep_forward (fuel : nat) (make : Q -> Q -> PlaylistEntry) (spec : SweepSpec)
    : option (list PlaylistEntry) :=
  let start := to_double (sweep_start spec) in
  let stop := to_double (sweep_stop spec) in
  let step := to_double (sweep_step spec) in
  let ascending := (start <=? stop)%float in
  let eps := (step / 10)%float in
  sweep_loop fuel make spec ascending stop step eps 0 start.

(** [current] after [k] rounds of the loop. *)
Fixpoint sweep_current (ascending : bool) (start step : float) (k : nat) : float :=
  match k with
  | O => start
  | S k' =>
      let current := sweep_current ascending start step k' in
      if ascending then (current + step)%float else (current - step)%float
  end.

(** The entry appended in round [k]. *)
Definition sweep_point (make : Q -> Q -> PlaylistEntry) (spec : SweepSpec)
    (ascending : bool) (start step : float) (k : nat) : PlaylistEntry :=
  make (value_of (round6 (sweep_current ascending start step k)))
       (sweep_level spec (Z.of_nat k)).

End Double.

(** Sweeps whose bounds and step are not doubles: 145 to 145.045 MHz in
    steps of 0.05 MHz, and 145.045 down to 145 MHz. *)
Definition narrow_sweep : SweepSpec :=
  {| sweep_start := 145; sweep_stop := 145045 # 1000; sweep_step := 5 # 100;
     sweep_base_level := -20; sweep_alt_enable := false; sweep_alt_level := -30;
     sweep_toggle_every := 1;
     sweep_replace := true; sweep_reverse := false |}.

Definition narrow_sweep_down : SweepSpec :=
  {| sweep_start := 145045 # 1000; sweep_stop := 145; sweep_step := 5 # 100;
     sweep_base_level := -20; sweep_alt_enable := false; sweep_alt_level := -30;
     sweep_toggle_every := 1;
     sweep_replace := true; sweep_reverse := false |}.

Inductive dialog : Type :=
  | Warning (title message : string)
  | Error (title message : string).

(** What a sweep request yields before it touches the playlist. *)
Inductive sweep_result : Type :=
  | SweepRejected (d : dialog)
  | SweepEntries (entries : list PlaylistEntry).

(** ** The Qt GUI ([qt_gui.py]): playlist, sweep, timer-driven hopping *)

Module Qt.

Record GUI : Type := {
  controller : option Controller;
  env : World;                     (* the wire and the clock *)
  connected : bool;
  transmitting : bool;
  playlist_running : bool;
  playlist : list PlaylistEntry;
  current_idx : nat;
  _hop_last_bw : option string;
  hop_timer : option Z;            (* interval in ms while the timer runs *)
  (* widgets read by the hopping slot *)
  chk_auto_mod : bool;
  am_from_mhz : Q;
  am_to_mhz : Q;
  selected_bw : string;            (* the value of [_selected_bw()] *)
  dialogs : list dialog            (* message boxes shown, oldest first *)
}.

Definition with_link (c : option Controller) (w : World) (g : GUI) : GUI :=
  {| controller := c; env := w; connected := connected g;
     transmitting := transmitting g; playlist_running := playlist_running g;
     playlist := playlist g; current_idx := current_idx g;
     _hop_last_bw := _hop_last_bw g; hop_timer := hop_timer g;
     chk_auto_mod := chk_auto_mod g; am_from_mhz := am_from_mhz g;
     am_to_mhz := am_to_mhz g; selected_bw := selected_bw g; dialogs := dialogs g |}.

Definition with_transmitting (b : bool) (g : GUI) : GUI :=
  {| controller := controller g; env := env g; connected := connected g;
     transmitting := b; playlist_running := playlist_running g;
     playlist := playlist g; current_idx := current_idx g;
     _hop_last_bw := _hop_last_bw g; hop_timer := hop_timer g;
     chk_auto_mod := chk_auto_mod g; am_from_mhz := am_from_mhz g;
     am_to_mhz := am_to_mhz g; selected_bw := selected_bw g; dialogs := dialogs g |}.

Definition with_playlist (l : list PlaylistEntry) (g : GUI) : GUI :=
  {| controller := controller g; env := env g; connected := connected g;
     transmitting := transmitting g; playlist_running := playlist_running g;
     playlist := l; current_idx := current_idx g;
     _hop_last_bw := _hop_last_bw g; hop_timer := hop_timer g;
     chk_auto_mod := chk_auto_mod g; am_from_mhz := am_from_mhz g;
     am_to_mhz := am_to_mhz g; selected_bw := selected_bw g; dialogs := dialogs g |}.

(* the fields the hopping code assigns together *)
Definition with_hopping (running : bool) (idx : nat) (last_bw : option string)
    (timer : option Z) (g : GUI) : GUI :=
  {| controller := controller g; env := env g; connected := connected g;
     transmitting := transmitting g; playlist_running := running;
     playlist := playlist g; current_idx := idx;
     _hop_last_bw := last_bw; hop_timer := timer;
     chk_auto_mod := chk_auto_mod g; am_from_mhz := am_from_mhz g;
     am_to_mhz := am_to_mhz g; selected_bw := selected_bw g; dialogs := dialogs g |}.

Definition with_connected (b : bool) (g : GUI) : GUI :=
  {| controller := controller g; env := env g; connected := b;
     transmitting := transmitting g; playlist_running := playlist_running g;
     playlist := playlist g; current_idx := current_idx g;
     _hop_last_bw := _hop_last_bw g; hop_timer := hop_timer g;
     chk_auto_mod := chk_auto_mod g; am_from_mhz := am_from_mhz g;
     am_to_mhz := am_to_mhz g; selected_bw := selected_bw g; dialogs := dialogs g |}.

Definition show (d : dialog) (g : GUI) : GUI :=
  {| controller := controller g; env := env g; connected := connected g;
     transmitting := transmitting g; playlist_running := playlist_running g;
     playlist := playlist g; current_idx := current_idx g;
     _hop_last_bw := _hop_last_bw g; hop_timer := hop_timer g;
     chk_auto_mod := chk_auto_mod g; am_from_mhz := am_from_mhz g;
     am_to_mhz := am_to_mhz g; selected_bw := selected_bw g;
     dialogs := dialogs g ++ [d] |}.

Definition modify (f : GUI -> GUI) : Prog GUI unit := fun g => (Return tt, f g).
Definition get : Prog GUI GUI := fun g => (Return g, g).

(** [self._warn(title, message)] and [self._err(title, message)] *)
Definition _warn (title message : string) : Prog GUI unit := modify (show (Warning title message)).
Definition _err (title message : string) : Prog GUI unit := modify (show (Error title message)).

(** A method call on [self.controller]; on [None] it is an attribute error. *)
Definition call {A} (m : M A) : Prog GUI A :=
  fun g =>
    match controller g with
    | None => (Raise, g)
    | Some c =>
        match m {| ctl := c; world := env g |} with
        | (r, s) => (r, with_link (Some (ctl s)) (world s) g)
        end
    end.

Section Handlers.

Variable dev : Device.
Variable float_repr : Q -> string.   (* repr() of a float *)
Variable float_2f : Q -> string.     (* the [:.2f] format *)

Definition sweep_entry (bw : string) (freq level : Q) : PlaylistEntry :=
  {| name := "Sweep " +:+ float_repr freq +:+ " MHz @ " +:+ float_2f level +:+ " dBm";
     frequency := freq; level := level; bandwidth := bw |}.

(** [_generate_sweep_playlist] up to the point where [entries] is ready.
    [None]: the fuel did not suffice for the loop. *)
Definition sweep_entries (fuel : nat) (spec : SweepSpec) (bw : string) : option sweep_result :=
  if Qle_bool (sweep_step spec) 0 then Some (SweepRejected (Error "Sweep" "Step must be > 0"))
  else if sweep_toggle_every spec <? 1 then
    Some (SweepRejected (Error "Sweep" "Toggle every N must be >= 1"))
  else
    match sweep_forward fuel (sweep_entry bw) spec with
    | None => None
    | Some [] => Some (SweepRejected (Warning "Sweep" "No entries generated"))
    | Some forward => Some (SweepEntries (ping_pong (sweep_reverse spec) forward))
    end.

Definition _generate_sweep_playlist (fuel : nat) (spec : SweepSpec) (g : GUI) : option GUI :=
  match sweep_entries fuel spec (selected_bw g) with
  | None => None
  | Some (SweepRejected d) => Some (show d g)
  | Some (SweepEntries entries) =>
      if sweep_replace spec then Some (with_playlist entries g)
      else Some (with_playlist (playlist g ++ entries) g)
  end.

(** Playlist edits.  The entry of [_add_current] is built from the
    frequency, level and bandwidth widgets. *)
Definition _add_current (entry : PlaylistEntry) (g : GUI) : GUI :=
  with_playlist (playlist g ++ [entry]) g.

Definition _remove_selected (row : Z) (g : GUI) : GUI :=
  if row <? 0 then g
  else if (Z.to_nat row <? length (playlist g))%nat then
    with_playlist (delete (Z.to_nat row) (playlist g)) g
  else g.

Definition _clear_playlist (g : GUI) : GUI := with_playlist [] g.

Definition _load_playlist (loaded : list PlaylistEntry) (g : GUI) : GUI :=
  with_playlist loaded g.

Definition _apply_modulation_for_frequency (freq_mhz : Q) : Prog GUI bool :=
  let* g := get in
  if negb (connected g) || negb (bool_decide (is_Some (controller g))) then ret false
  else if negb (chk_auto_mod g) then ret true
  else
    let am_start := Qmin (am_from_mhz g) (am_to_mhz g) in
    let am_stop := Qmax (am_from_mhz g) (am_to_mhz g) in
    if Qle_bool am_start freq_mhz && Qle_bool freq_mhz am_stop then
      let* ok := call (set_modulation_am dev) in
      (if ok then ret tt else _err "Modulation" "Failed to switch AM mode") ;;
      ret ok
    else
      let* dv := option_lift (bandwidth_lookup BANDWIDTHS (selected_bw g)) in
      let* ok := call (set_modulation_fm dev dv) in
      (if ok then ret tt else _err "Modulation" "Failed to switch FM mode") ;;
      ret ok.

(** The slot of the hop timer: one hop. *)
Definition _hop_once : Prog GUI unit :=
  let* g := get in
  if negb (playlist_running g) || negb (bool_decide (is_Some (controller g)))
     || bool_decide (playlist g = []) then ret tt
  else
    let* e := option_lift (playlist g !! current_idx g) in
    let hz := hz_of_mhz (frequency e) in
    let lvl := level e in
    let bw := normalize_bandwidth (bandwidth e) in
    call (set_frequency dev hz) ;;
    call (set_amplitude dev float_repr lvl) ;;
    (if chk_auto_mod g then
       _apply_modulation_for_frequency (frequency e) ;;
       modify (fun g => with_hopping (playlist_running g) (current_idx g) None (hop_timer g) g)
     else
       let* g1 := get in
       if bool_decide (Some bw = _hop_last_bw g1) then ret tt
       else
         let* dv := option_lift (bandwidth_lookup BANDWIDTHS bw) in
         call (set_modulation_fm dev dv) ;;
         modify (fun g =>
           with_hopping (playlist_running g) (current_idx g) (Some bw) (hop_timer g) g)) ;;
    (let* g2 := get in
     if transmitting g2 then ret tt
     else
       let* ok := call (enable_output dev) in
       if ok then modify (with_transmitting true) else ret tt) ;;
    modify (fun g =>
      with_hopping (playlist_running g) ((current_idx g + 1) mod length (playlist g))%nat
        (_hop_last_bw g) (hop_timer g) g).

(** [dwell_ms] is [int(self.dwell_s.value() * 1000)]. *)
Definition _start_hopping (dwell_ms : Z) : Prog GUI unit :=
  let* g := get in
  if negb (connected g) || negb (bool_decide (is_Some (controller g))) then
    _warn "Device" "Device not connected"
  else if bool_decide (playlist g = []) then _warn "Playlist" "Playlist is empty"
  else if playlist_running g then ret tt
  else
    modify (with_hopping true 0 None (Some dwell_ms)) ;;
    _hop_once.

Definition _stop_hopping (g : GUI) : GUI :=
  with_hopping false (current_idx g) None None g.

(** *** The control handlers

    Their arguments are the values of the widgets they read; labels,
    button texts and the state timer are not modelled. *)

Definition _refresh_state : Prog GUI unit :=
  let* g := get in
  if negb (connected g) || negb (bool_decide (is_Some (controller g))) then ret tt
  else call (get_device_state dev) ;; ret tt.

(** [self.controller = SMY02Controller()] makes a new controller. *)
Definition _connect : Prog GUI unit :=
  modify (fun g => with_link (Some new_controller) (env g) g) ;;
  let* ok := call (connect dev) in
  if ok then
    modify (with_connected true) ;;
    _refresh_state
  else
    modify (with_connected false) ;;
    _err "Connection" "Failed to connect to SMY02".

Definition _set_frequency (freq_mhz : Q) : Prog GUI unit :=
  let* g := get in
  if negb (connected g) || negb (bool_decide (is_Some (controller g))) then
    _warn "Device" "Device not connected"
  else
    let hz := hz_of_mhz freq_mhz in
    let* ok := call (set_frequency dev hz) in
    if negb ok then _err "Frequency" "Failed to set frequency"
    else _apply_modulation_for_frequency freq_mhz ;; ret tt.

Definition _set_level (level_dbm : Q) : Prog GUI unit :=
  let* g := get in
  if negb (connected g) || negb (bool_decide (is_Some (controller g))) then
    _warn "Device" "Device not connected"
  else
    let* ok := call (set_amplitude dev float_repr level_dbm) in
    if negb ok then _err "Level" "Failed to set level" else ret tt.

(** [combo_text] is [self.sweep_bw_combo.currentText()]. *)
Definition _set_bandwidth (combo_text : string) : Prog GUI bool :=
  let* g := get in
  if negb (connected g) || negb (bool_decide (is_Some (controller g))) then ret false
  else
    let bw := normalize_bandwidth (PyStr.strip combo_text) in
    let* dv := option_lift (bandwidth_lookup BANDWIDTHS bw) in
    call (set_modulation_fm dev dv).

Definition _shutdown : Prog GUI unit :=
  let* g := get in
  (if bool_decide (is_Some (controller g)) then call (disable_output dev) ;; ret tt
   else ret tt) ;;
  modify (with_transmitting false).

Definition _toggle_tx (freq_mhz level_dbm : Q) (combo_text : string) : Prog GUI unit :=
  let* g := get in
  if negb (connected g) || negb (bool_decide (is_Some (controller g))) then
    _warn "Device" "Device not connected"
  else if transmitting g then
    let* ok := call (disable_output dev) in
    if ok then modify (with_transmitting false) else _err "RF" "Failed to disable RF"
  else
    _set_frequency freq_mhz ;;
    _set_level level_dbm ;;
    (if negb (chk_auto_mod g) then _set_bandwidth combo_text ;; ret tt else ret tt) ;;
    let* ok := call (enable_output dev) in
    if ok then modify (with_transmitting true) else _err "RF" "Failed to enable RF".

Definition _disconnect : Prog GUI unit :=
  let* g := get in
  (if playlist_running g then modify _stop_hopping else ret tt) ;;
  (if bool_decide (is_Some (controller g)) then
     (let* g1 := get in if transmitting g1 then _shutdown else ret tt) ;;
     call (disconnect dev)
   else ret tt) ;;
  modify (with_connected false).

(** [n] ticks of the hop timer, up to the first hop that raises. *)
Fixpoint hops (n : nat) : Prog GUI unit :=
  match n with
  | O => ret tt
  | S n' => _hop_once ;; hops n'
  end.

End Handlers.

(** [SMY02QtGUI.__init__], before any connection. *)
Definition initial : GUI :=
  {| controller := None; env := new_world; connected := false;
     transmitting := false; playlist_running := false; playlist := [];
     current_idx := 0; _hop_last_bw := None; hop_timer := None;
     chk_auto_mod := false; am_from_mhz := 118; am_to_mhz := 137;
     selected_bw := "12.5 kHz"; dialogs := [] |}.

(** A GUI whose controller has just been connected to [dev] and whose
    playlist is [pl] (the state-refresh queries that follow a connection
    are left out of the history). *)
Definition connected_to (dev : Device) (pl : list PlaylistEntry) : GUI :=
  {| controller := Some (ctl (connected_state dev)); env := world (connected_state dev);
     connected := true; transmitting := false; playlist_running := false;
     playlist := pl; current_idx := 0; _hop_last_bw := None; hop_timer := None;
     chk_auto_mod := false; am_from_mhz := 118; am_to_mhz := 137;
     selected_bw := "12.5 kHz"; dialogs := [] |}.

End Qt.

(** ** The tkinter GUI ([smy02_gui.py]): playlist objects, worker thread

    Python lists are objects: [self.playlist] and [self.active_hop_playlist]
    hold references into a store of list objects, so that an in-place edit
    ([append], [pop], [clear], ...) is seen through every reference to the
    edited object while an assignment [self.playlist = ...] rebinds the
    attribute.  Entries are never updated in place (a clone is a new dict),
    so they are values. *)

Module Tk.

Definition loc : Type := positive.

(* the locals of [_hopping_worker] that live across iterations *)
Record Worker : Type := {
  hop_playlist : option loc;      (* [None]: the fresh empty list of [... or []] *)
  rf_enable_failed : bool;
  last_bw : option string
}.

(* the thread held in [self.playlist_thread] *)
Inductive thread : Type :=
  | Started (dwell_ms : Z)                 (* [start()] done, body not begun *)
  | Looping (dwell_ms : Z) (w : Worker).   (* at the head of the [while] loop *)

Record GUI : Type := {
  controller : option Controller;
  env : World;                             (* the wire and the clock *)
  connected : bool;
  transmitting : bool;
  playlist_running : bool;
  playlist : loc;
  heap : gmap loc (list PlaylistEntry);
  current_playlist_index : nat;
  active_hop_playlist : option loc;
  playlist_thread : option thread;
  dialogs : list dialog                    (* message boxes shown, oldest first *)
}.

Definition with_link (c : option Controller) (w : World) (g : GUI) : GUI :=
  {| controller := c; env := w; connected := connected g;
     transmitting := transmitting g; playlist_running := playlist_running g;
     playlist := playlist g; heap := heap g;
     current_playlist_index := current_playlist_index g;
     active_hop_playlist := active_hop_playlist g;
     playlist_thread := playlist_thread g; dialogs := dialogs g |}.

Definition with_transmitting (b : bool) (g : GUI) : GUI :=
  {| controller := controller g; env := env g; connected := connected g;
     transmitting := b; playlist_running := playlist_running g;
     playlist := playlist g; heap := heap g;
     current_playlist_index := current_playlist_index g;
     active_hop_playlist := active_hop_playlist g;
     playlist_thread := playlist_thread g; dialogs := dialogs g |}.

Definition with_playlist (p : loc) (h : gmap loc (list PlaylistEntry)) (g : GUI) : GUI :=
  {| controller := controller g; env := env g; connected := connected g;
     transmitting := transmitting g; playlist_running := playlist_running g;
     playlist := p; heap := h;
     current_playlist_index := current_playlist_index g;
     active_hop_playlist := active_hop_playlist g;
     playlist_thread := playlist_thread g; dialogs := dialogs g |}.

Definition with_index (i : nat) (g : GUI) : GUI :=
  {| controller := controller g; env := env g; connected := connected g;
     transmitting := transmitting g; playlist_running := playlist_running g;
     playlist := playlist g; heap := heap g;
     current_playlist_index := i;
     active_hop_playlist := active_hop_playlist g;
     playlist_thread := playlist_thread g; dialogs := dialogs g |}.

(* [playlist_running] and [active_hop_playlist] *)
Definition with_session (running : bool) (active : option loc) (g : GUI) : GUI :=
  {| controller := controller g; env := env g; connected := connected g;
     transmitting := transmitting g; playlist_running := running;
     playlist := playlist g; heap := heap g;
     current_playlist_index := current_playlist_index g;
     active_hop_playlist := active;
     playlist_thread := playlist_thread g; dialogs := dialogs g |}.

Definition with_thread (t : option thread) (g : GUI) : GUI :=
  {| controller := controller g; env := env g; connected := connected g;
     transmitting := transmitting g; playlist_running := playlist_running g;
     playlist := playlist g; heap := heap g;
     current_playlist_index := current_playlist_index g;
     active_hop_playlist := active_hop_playlist g;
     playlist_thread := t; dialogs := dialogs g |}.

Definition with_connected (b : bool) (g : GUI) : GUI :=
  {| controller := controller g; env := env g; connected := b;
     transmitting := transmitting g; playlist_running := playlist_running g;
     playlist := playlist g; heap := heap g;
     current_playlist_index := current_playlist_index g;
     active_hop_playlist := active_hop_playlist g;
     playlist_thread := playlist_thread g; dialogs := dialogs g |}.

Definition show (d : dialog) (g : GUI) : GUI :=
  {| controller := controller g; env := env g; connected := connected g;
     transmitting := transmitting g; playlist_running := playlist_running g;
     playlist := playlist g; heap := heap g;
     current_playlist_index := current_playlist_index g;
     active_hop_playlist := active_hop_playlist g;
     playlist_thread := playlist_thread g; dialogs := dialogs g ++ [d] |}.

Definition modify (f : GUI -> GUI) : Prog GUI unit := fun g => (Return tt, f g).
Definition get : Prog GUI GUI := fun g => (Return g, g).

(** The list object behind a reference; a dangling reference reads as
    empty (none arises: see [heap_ok] below). *)
Definition deref (g : GUI) (l : loc) : list PlaylistEntry := default [] (heap g !! l).

(** The live playlist, [self.playlist]. *)
Definition live (g : GUI) : list PlaylistEntry := deref g (playlist g).

(** An in-place update of the object [self.playlist] refers to. *)
Definition mutate (f : list PlaylistEntry -> list PlaylistEntry) (g : GUI) : GUI :=
  with_playlist (playlist g) (<[playlist g := f (live g)]> (heap g)) g.

(** A new list object. *)
Definition alloc (l : list PlaylistEntry) (g : GUI) : loc * GUI :=
  let p := fresh (dom (heap g)) in
  (p, with_playlist (playlist g) (<[p := l]> (heap g)) g).

(** [self.playlist = l] for a list [l] just built. *)
Definition rebind (l : list PlaylistEntry) (g : GUI) : GUI :=
  let '(p, g') := alloc l g in with_playlist p (heap g') g'.

(** A method call on [self.controller]. *)
Definition call {A} (m : M A) : Prog GUI A :=
  fun g =>
    match controller g with
    | None => (Raise, g)
    | Some c =>
        match m {| ctl := c; world := env g |} with
        | (r, s) => (r, with_link (Some (ctl s)) (world s) g)
        end
    end.

(** [time.sleep] in the worker thread. *)
Definition wait (ms : Z) : Prog GUI unit :=
  modify (fun g => with_link (controller g)
                     {| wire := wire (env g); clock_ms := clock_ms (env g) + ms |} g).

(** [l[i], l[j] = l[j], l[i]] for indices in range. *)
Definition swap (i j : nat) (l : list PlaylistEntry) : list PlaylistEntry :=
  match l !! i, l !! j with
  | Some a, Some b => <[j := a]> (<[i := b]> l)
  | _, _ => l
  end.

Section Handlers.

Variable dev : Device.
Variable float_repr : Q -> string.   (* repr() of a float *)

(** *** Playlist edits (handlers of the GUI thread)

    The arguments are what the handler reads from widgets and dialogs:
    the entry built from the controls, the listbox selection, the answer
    to a yes/no box, the rows read from a file. *)

Definition _add_to_playlist (entry : PlaylistEntry) (g : GUI) : GUI :=
  mutate (fun l => (l ++ [entry])) g.

Definition _remove_from_playlist (selection : option nat) : Prog GUI unit :=
  match selection with
  | None => modify (show (Warning "Warning" "Select an entry to remove"))
  | Some idx =>
      let* g := get in
      if (idx <? length (live g))%nat then modify (mutate (delete idx))
      else raise                              (* pop index out of range *)
  end.

Definition _clear_playlist (confirmed : bool) (g : GUI) : GUI :=
  if confirmed then mutate (fun _ => []) g else g.

Definition _clone_selected_playlist_entry (selection : option nat) : Prog GUI unit :=
  match selection with
  | None => modify (show (Warning "Warning" "Select an entry to clone"))
  | Some idx =>
      let* g := get in
      let* source := option_lift (live g !! idx) in
      let clone := {| name := name source +:+ " (copy)"; frequency := frequency source;
                      level := level source; bandwidth := bandwidth source |} in
      modify (mutate (fun l => (take (idx + 1) l ++ clone :: drop (idx + 1) l)))
  end.

Definition _move_playlist_up (selection : option nat) : Prog GUI unit :=
  match selection with
  | None => modify (show (Warning "Warning" "Select an entry to move"))
  | Some idx =>
      if (idx =? 0)%nat then ret tt
      else
        let* g := get in
        if (idx <? length (live g))%nat then modify (mutate (swap (idx - 1) idx))
        else raise
  end.

Definition _move_playlist_down (selection : option nat) : Prog GUI unit :=
  match selection with
  | None => modify (show (Warning "Warning" "Select an entry to move"))
  | Some idx =>
      let* g := get in
      if (Z.of_nat (length (live g)) - 1 <=? Z.of_nat idx)%Z then ret tt
      else modify (mutate (swap (idx + 1) idx))
  end.

Definition _import_playlist_csv (imported : list PlaylistEntry) (replace : bool) (g : GUI) : GUI :=
  match imported with
  | [] => show (Warning "Warning" "No valid rows found in CSV") g
  | _ =>
      if negb (bool_decide (live g = [])) && replace then rebind imported g
      else mutate (fun l => (l ++ imported)) g
  end.

Definition _load_playlist_json (loaded : list PlaylistEntry) (g : GUI) : GUI :=
  match loaded with
  | [] => show (Warning "Warning" "No valid playlist entries found") g
  | _ => rebind loaded g
  end.

Definition sweep_entry (bw : string) (freq level : Q) : PlaylistEntry :=
  {| name := "Sweep " +:+ float_repr freq +:+ " MHz @ " +:+ float_repr level +:+ " dBm";
     frequency := freq; level := level; bandwidth := bw |}.

(** [_generate_sweep_playlist] up to the point where [entries] is ready,
    for fields that parse as numbers (otherwise the handler shows an error
    and returns); [bw] is [self.bw_var.get()].  [None]: the fuel did not
    suffice. *)
Definition sweep_entries (fuel : nat) (spec : SweepSpec) (bw : string) : option sweep_result :=
  if Qle_bool (sweep_step spec) 0 then Some (SweepRejected (Error "Error" "Step must be > 0"))
  else if sweep_toggle_every spec <? 1 then
    Some (SweepRejected (Error "Error" "Toggle every N must be >= 1"))
  else
    match sweep_forward fuel (sweep_entry bw) spec with
    | None => None
    | Some [] => Some (SweepRejected (Warning "Warning" "No sweep entries generated"))
    | Some entries => Some (SweepEntries entries)
    end.

Definition _generate_sweep_playlist (fuel : nat) (spec : SweepSpec) (bw : string) (g : GUI)
    : option GUI :=
  match sweep_entries fuel spec bw with
  | None => None
  | Some (SweepRejected d) => Some (show d g)
  | Some (SweepEntries entries) =>
      if sweep_replace spec then Some (rebind entries g)
      else Some (mutate (fun l => (l ++ entries)) g)
  end.

(** *** Hopping *)

Definition _apply_bandwidth (bw_name : string) : Prog GUI bool :=
  let* deviation := option_lift (bandwidth_lookup BANDWIDTHS bw_name) in
  call (set_modulation_fm dev deviation).

(** [copy.deepcopy(self.playlist)]: a new list object with the same
    entries. *)
Definition _start_hopping (dwell_ms : Z) : Prog GUI unit :=
  let* g := get in
  if negb (connected g) then modify (show (Warning "Warning" "Device not connected"))
  else if bool_decide (live g = []) then modify (show (Warning "Warning" "Playlist is empty"))
  else if playlist_running g then modify (show (Warning "Warning" "Hopping already running"))
  else
    modify (fun g =>
      let '(snapshot, g') := alloc (live g) g in
      with_thread (Some (Started dwell_ms))
        (with_index 0 (with_session true (Some snapshot) g'))).

Definition _stop_hopping (g : GUI) : GUI :=
  with_session false (active_hop_playlist g) g.

(** The list the worker walks. *)
Definition hop_list (g : GUI) (w : Worker) : list PlaylistEntry :=
  match hop_playlist w with
  | Some l => deref g l
  | None => []
  end.

(** One iteration of [while self.playlist_running]: [Some w'] when the
    loop goes round again with locals [w'], [None] when it is left (the
    condition is false, or a [break]). *)
Definition worker_cycle (dwell_ms : Z) (w : Worker) : Prog GUI (option Worker) :=
  let* g := get in
  if negb (playlist_running g) then ret None
  else
    match hop_list g w with
    | [] => ret None
    | _ :: _ =>
        let* entry := option_lift (hop_list g w !! current_playlist_index g) in
        let freq_hz := hz_of_mhz (frequency entry) in
        let* ok_f := call (set_frequency dev freq_hz) in
        if negb ok_f then
          modify (show (Error "Error"
            ("Failed to set hop frequency: " +:+ float_repr (frequency entry) +:+ " MHz"))) ;;
          ret None
        else
          let* ok_l := call (set_amplitude dev float_repr (level entry)) in
          if negb ok_l then
            modify (show (Error "Error"
              ("Failed to set hop level: " +:+ float_repr (level entry) +:+ " dBm"))) ;;
            ret None
          else
            let* last_bw' :=
              (if bool_decide (Some (bandwidth entry) = last_bw w) then ret (last_bw w)
               else _apply_bandwidth (bandwidth entry) ;; ret (Some (bandwidth entry))) in
            let* g1 := get in
            let* failed' :=
              (if negb (transmitting g1) && negb (rf_enable_failed w) then
                 let* ok_e := call (enable_output dev) in
                 if negb ok_e then
                   modify (show (Warning "Warning"
                     "RF enable command failed (ESR error). Hopping will continue applying frequencies.")) ;;
                   ret true
                 else modify (with_transmitting true) ;; ret (rf_enable_failed w)
               else ret (rf_enable_failed w)) in
            wait dwell_ms ;;
            modify (fun g =>
              with_index ((current_playlist_index g + 1) mod length (hop_list g w))%nat g) ;;
            ret (Some {| hop_playlist := hop_playlist w;
                         rf_enable_failed := failed';
                         last_bw := last_bw' |})
    end.

(** The [finally] clause of the worker. *)
Definition worker_finally (g : GUI) : GUI := with_session false None g.

(** One scheduling step of the worker thread: its prologue, or one
    iteration of its loop (followed by the epilogue when the loop is
    left or raises). *)
Definition worker_step (g : GUI) : GUI :=
  match playlist_thread g with
  | None => g
  | Some (Started dwell_ms) =>
      if negb (connected g) then with_thread None g
      else
        let hop :=
          match active_hop_playlist g with
          | Some l => if bool_decide (deref g l = []) then None else Some l
          | None => None
          end in
        with_thread (Some (Looping dwell_ms
          {| hop_playlist := hop; rf_enable_failed := false; last_bw := None |})) g
  | Some (Looping dwell_ms w) =>
      match worker_cycle dwell_ms w g with
      | (Return (Some w'), g') => with_thread (Some (Looping dwell_ms w')) g'
      | (Return None, g') => with_thread None (worker_finally g')
      | (Raise, g') =>
          with_thread None (worker_finally (show (Error "Error" "Hopping error") g'))
      end
  end.

(** *** Transmission and disconnection

    The text of a caught exception is left out of the message box. *)

(** The thread [_toggle_transmit] starts to switch the output on;
    [freq_mhz], [level] and [bw_name] are the values of the controls. *)
Definition _enable_transmit_worker (freq_mhz level : Q) (bw_name : string) : Prog GUI unit :=
  try_except
    (let freq_hz := hz_of_mhz freq_mhz in
     let* ok_f := call (set_frequency dev freq_hz) in
     if negb ok_f then modify (show (Error "Error" "Failed to set frequency"))
     else
       wait 300 ;;
       let* ok_l := call (set_amplitude dev float_repr level) in
       if negb ok_l then modify (show (Error "Error" "Failed to set level"))
       else
         wait 300 ;;
         let* ok_b := _apply_bandwidth bw_name in
         (if negb ok_b then
            modify (show (Warning "Warning"
              "Bandwidth command may not be supported by this SMY02 firmware"))
          else ret tt) ;;
         wait 300 ;;
         let* ok_e := call (enable_output dev) in
         if ok_e then modify (with_transmitting true)
         else modify (show (Error "Error" "Failed to enable RF output")))
    (modify (show (Error "Error" "Transmission failed"))).

Definition _shutdown : Prog GUI unit :=
  let* g := get in
  if negb (connected g) then ret tt
  else
    try_except
      (call (disable_output dev) ;;
       modify (with_transmitting false))
      (ret tt).

Definition _disconnect : Prog GUI unit :=
  let* g := get in
  if bool_decide (is_Some (controller g)) then
    modify _stop_hopping ;;
    (let* g1 := get in if transmitting g1 then _shutdown else ret tt) ;;
    call (disconnect dev) ;;
    modify (with_connected false)
  else ret tt.

(** *** Interleavings of the GUI thread and the worker thread

    What can happen between the start and the stop of a session: a
    playlist edit by a handler of the GUI thread, or a step of the
    worker.  An iteration of the worker is one step: the edit handlers
    write the playlist attribute, the store and the message boxes only,
    and the iteration reads none of these but its own list object, so an
    edit that falls inside an iteration can be moved before or after
    it. *)

Inductive edit : Type :=
  | AddToPlaylist (entry : PlaylistEntry)
  | RemoveFromPlaylist (selection : option nat)
  | ClearPlaylist (confirmed : bool)
  | CloneSelected (selection : option nat)
  | MoveUp (selection : option nat)
  | MoveDown (selection : option nat)
  | ImportCsv (imported : list PlaylistEntry) (replace : bool)
  | LoadJson (loaded : list PlaylistEntry)
  | GenerateSweep (fuel : nat) (spec : SweepSpec) (bw : string).

(** A handler that raises is reported by the Tk main loop and leaves the
    state it had reached; a sweep whose fuel does not suffice is not a run
    of the program and changes nothing. *)
Definition apply_edit (e : edit) (g : GUI) : GUI :=
  match e with
  | AddToPlaylist entry => _add_to_playlist entry g
  | RemoveFromPlaylist selection => state_of (_remove_from_playlist selection g)
  | ClearPlaylist confirmed => _clear_playlist confirmed g
  | CloneSelected selection => state_of (_clone_selected_playlist_entry selection g)
  | MoveUp selection => state_of (_move_playlist_up selection g)
  | MoveDown selection => state_of (_move_playlist_down selection g)
  | ImportCsv imported replace => _import_playlist_csv imported replace g
  | LoadJson loaded => _load_playlist_json loaded g
  | GenerateSweep fuel spec bw => default g (_generate_sweep_playlist fuel spec bw g)
  end.

Inductive event : Type :=
  | Edit (e : edit)
  | WorkerStep.

Definition is_worker_step (ev : event) : bool :=
  match ev with WorkerStep => true | Edit _ => false end.

Definition step (ev : event) (g : GUI) : GUI :=
  match ev with
  | Edit e => apply_edit e g
  | WorkerStep => worker_step g
  end.

Definition run (evs : list event) (g : GUI) : GUI := fold_left (fun g ev => step ev g) evs g.

End Handlers.

(** The worker steps of an interleaving: the run without the edits. *)
Fixpoint worker_steps (evs : list event) : list event :=
  match evs with
  | [] => []
  | Edit _ :: evs' => worker_steps evs'
  | WorkerStep :: evs' => WorkerStep :: worker_steps evs'
  end.

(** The fields a worker step reads and writes. *)
Definition core (g : GUI) :=
  (controller g, env g, connected g, transmitting g, playlist_running g,
   current_playlist_index g, active_hop_playlist g, playlist_thread g).

(** The list objects a session refers to: the snapshot attribute and the
    local of the worker. *)
Definition tracked (g : GUI) (l : loc) : Prop :=
  active_hop_playlist g = Some l \/
  exists dwell_ms w, playlist_thread g = Some (Looping dwell_ms w) /\ hop_playlist w = Some l.

(** Every attribute refers to an existing object, and the session's
    objects are not the one [self.playlist] refers to. *)
Definition heap_ok (g : GUI) : Prop :=
  is_Some (heap g !! playlist g) /\
  forall l, tracked g l -> l <> playlist g /\ is_Some (heap g !! l).

(** What a session does and sees: everything but the live playlist, the
    objects it does not refer to, and the message boxes. *)
Record session_view : Type := {
  view_controller : option Controller;
  view_env : World;
  view_connected : bool;
  view_transmitting : bool;
  view_playlist_running : bool;
  view_index : nat;
  view_snapshot : option (list PlaylistEntry);
  view_thread : option thread;
  view_hop_list : option (list PlaylistEntry)
}.

Definition view (g : GUI) : session_view :=
  {| view_controller := controller g;
     view_env := env g;
     view_connected := connected g;
     view_transmitting := transmitting g;
     view_playlist_running := playlist_running g;
     view_index := current_playlist_index g;
     view_snapshot := option_map (deref g) (active_hop_playlist g);
     view_thread := playlist_thread g;
     view_hop_list :=
       match playlist_thread g with
       | Some (Looping _ w) => Some (hop_list g w)
       | _ => None
       end |}.

(** Two states that differ at most in the live playlist, in objects the
    session does not refer to, and in the message boxes shown. *)
Definition related (g1 g2 : GUI) : Prop :=
  controller g1 = controller g2 /\
  env g1 = env g2 /\
  connected g1 = connected g2 /\
  transmitting g1 = transmitting g2 /\
  playlist_running g1 = playlist_running g2 /\
  current_playlist_index g1 = current_playlist_index g2 /\
  active_hop_playlist g1 = active_hop_playlist g2 /\
  playlist_thread g1 = playlist_thread g2 /\
  forall l, tracked g1 l -> heap g1 !! l = heap g2 !! l.

(** What a playlist edit may change: the live playlist (in place, or by
    rebinding the attribute to a new object) and the message boxes. *)
Definition edited (g g' : GUI) : Prop :=
  controller g' = controller g /\
  env g' = env g /\
  connected g' = connected g /\
  transmitting g' = transmitting g /\
  playlist_running g' = playlist_running g /\
  current_playlist_index g' = current_playlist_index g /\
  active_hop_playlist g' = active_hop_playlist g /\
  playlist_thread g' = playlist_thread g /\
  (playlist g' = playlist g \/ heap g !! playlist g' = None) /\
  is_Some (heap g' !! playlist g') /\
  forall l, l <> playlist g -> is_Some (heap g !! l) -> heap g' !! l = heap g !! l.

(** [SMY02GUI.__init__]: the playlist attribute refers to a first, empty
    list object. *)
Definition initial : GUI :=
  {| controller := None; env := new_world; connected := false;
     transmitting := false; playlist_running := false;
     playlist := 1%positive; heap := {[ 1%positive := [] ]};
     current_playlist_index := 0; active_hop_playlist := None;
     playlist_thread := None; dialogs := [] |}.

(** A GUI whose controller has just been connected to [dev] and whose
    playlist object holds [pl]. *)
Definition connected_to (dev : Device) (pl : list PlaylistEntry) : GUI :=
  {| controller := Some (ctl (connected_state dev)); env := world (connected_state dev);
     connected := true; transmitting := false; playlist_running := false;
     playlist := 1%positive; heap := {[ 1%positive := pl ]};
     current_playlist_index := 0; active_hop_playlist := None;
     playlist_thread := None; dialogs := [] |}.

End Tk.

(** ** A playlist used in the examples *)

Definition entry_at (mhz : Q) : PlaylistEntry :=
  {| name := "Entry"; frequency := mhz; level := -20; bandwidth := "12.5 kHz" |}.

Definition three_entries : list PlaylistEntry :=
  [entry_at 144; entry_at 145; entry_at 146].

(** The frequency commands among the writes of a wire history. *)
Definition rf_writes (h : list wire_event) : list string :=
  filter (fun c => PyStr.is_prefix (PyStr.chars "RF ") (PyStr.chars c) = true) (writes_of h).

(** The commands [enable_output] may write, on any identity. *)
Definition is_enable_command (c : string) : bool :=
  existsb (String.eqb c) (enable_output_candidates false).

(** An exchange that is not the write of an enable command. *)
Definition no_enable (e : wire_event) : Prop :=
  match e with
  | Sent c => is_enable_command c = false
  | Asked _ => True
  end.

(** [h'] continues [h] without any write of an enable command. *)
Definition extends_without_enable (h h' : list wire_event) : Prop :=
  exists evs, h' = h ++ evs /\ Forall no_enable evs.

(** How many times [cmd] was written. *)
Definition times_written (cmd : string) (h : list wire_event) : nat :=
  length (filter (fun c => c = cmd) (writes_of h)).

(** ** Notions used in the properties of the controller *)

(** A program that returns from every state: it never raises. *)
Definition returns {S A} (m : Prog S A) : Prop :=
  forall s, exists a s', m s = (Return a, s').

(** The writes of a run that tries the candidates [cmds] one after the
    other, clearing the status before each. *)
Definition with_cls (cmds : list string) : list string :=
  flat_map (fun cmd => ["*CLS"; cmd]) cmds.

(** A device whose status register reads [v] at every query. *)
Definition status_always (dev : Device) (v : Z) : Prop :=
  forall h t, esr_of_answer (dev_query dev h t "*ESR?") = Some v.

(** A device that identifies itself by [idn_reply], raises on every write
    of [refused] and accepts every other write; its status register
    reads 0. *)
Definition refusing_device (idn_reply refused : string) : Device :=
  {| dev_open := true;
     dev_write := fun _ cmd => negb (String.eqb cmd refused);
     dev_query := fun _ _ q =>
       if String.eqb q "*IDN?" then Some idn_reply
       else if String.eqb q "*ESR?" then Some "0"
       else None;
     dev_close := fun _ => true |}.

(** What [set_modulation_fm] writes on an SMY02 before the deviation. *)
Definition fm_preamble (c : Controller) : list string :=
  if negb (_fm_initialized c) then ["FM:INT 1.000E+3"; "AF 1000"; "FM:ON"]
  else if negb (bool_decide (_modulation_mode c = Some FM)) then ["AM:OFF"; "FM:ON"]
  else [].

(** The queries of [get_device_state], in the order it tries them. *)
Definition all_state_queries : list string :=
  flat_map snd state_queries.

(** A device that answers no query but the identification and accepts
    every write. *)
Definition mute_device (idn_reply : string) : Device :=
  {| dev_open := true;
     dev_write := fun _ _ => true;
     dev_query := fun _ _ q => if String.eqb q "*IDN?" then Some idn_reply else None;
     dev_close := fun _ => true |}.

(** A device that answers every query by [reply]. *)
Definition echo_device (reply : string) : Device :=
  {| dev_open := true;
     dev_write := fun _ _ => true;
     dev_query := fun _ _ _ => Some reply;
     dev_close := fun _ => true |}.

(** A device whose status register always reads 4 and on which the write
    of [refused] raises. *)
Definition rejecting_device (idn_reply refused : string) : Device :=
  {| dev_open := true;
     dev_write := fun _ cmd => negb (String.eqb cmd refused);
     dev_query := dev_query (simple_device idn_reply (Some "4"));
     dev_close := fun _ => true |}.

(** A device like [simple_device] whose link cannot be closed: [close()]
    raises. *)
Definition stuck_device (idn_reply : string) (esr_reply : option string) : Device :=
  {| dev_open := true;
     dev_write := fun _ _ => true;
     dev_query := dev_query (simple_device idn_reply esr_reply);
     dev_close := fun _ => false |}.

(** A stand-in for [float] in the examples: decimal integers only. *)
Definition int_float (s : string) : option Q :=
  option_map inject_Z (PyStr.int s).

(** ** Notions used in the properties of the hopping schedulers *)

(** What a hop of the Qt GUI relies on: a session is running on a
    controller, the index is within the playlist, and the checked
    bandwidth is one of the table (as [_selected_bw] guarantees). *)
Definition qt_hop_ready (g : Qt.GUI) : Prop :=
  Qt.playlist_running g = true /\
  is_Some (Qt.controller g) /\
  (Qt.current_idx g < length (Qt.playlist g))%nat /\
  is_Some (bandwidth_lookup BANDWIDTHS (Qt.selected_bw g)).

(** The state of the link after [time.sleep(0.3)]. *)
Definition after_pause (s : St) : St :=
  {| ctl := ctl s;
     world := {| wire := wire (world s); clock_ms := clock_ms (world s) + 300 |} |}.

(** * Properties *)

(** ** How the primitives of the controller run *)

(** Symbolic execution: unfold the monad and the wire primitives. *)
Ltac unfold_prog :=
  cbv beta iota zeta delta
    [bind ret raise try_except try_finally get_ctl put_ctl modify_ctl sleep
     option_lift for_each instr_write instr_query get_timeout set_timeout
     state_of result_of log_wire];
  cbn [fst snd ctl world wire clock_ms negb andb orb
       instrument set_fm_initialized set_modulation_mode].

Section PrimitiveRuns.

Variable dev : Device.

Lemma instr_write_run c w i cmd :
  instrument c = Some i ->
  instr_write dev cmd {| ctl := c; world := w |} =
    (if dev_write dev (wire w) cmd then Return tt else Raise,
     {| ctl := c; world := log_wire (Sent cmd) w |}).
Proof.
  intros Hi. unfold instr_write. simpl. rewrite Hi.
  destruct (dev_write dev (wire w) cmd); reflexivity.
Qed.

Lemma sleep_run c w ms :
  sleep ms {| ctl := c; world := w |} =
    (Return tt, {| ctl := c; world := {| wire := wire w; clock_ms := clock_ms w + ms |} |}).
Proof. reflexivity. Qed.

(** [clear_status] never raises; the write of [*CLS] is attempted once. *)
Lemma clear_status_run c w i :
  instrument c = Some i ->
  clear_status dev {| ctl := c; world := w |} =
    (Return (dev_write dev (wire w) "*CLS"),
     {| ctl := c;
        world := {| wire := wire w ++ [Sent "*CLS"];
                    clock_ms := if dev_write dev (wire w) "*CLS"
                                then clock_ms w + 50 else clock_ms w |} |}).
Proof.
  intros Hi. unfold clear_status, bind, get_ctl, try_except. simpl. rewrite Hi.
  unfold instr_write. simpl. rewrite Hi.
  destruct (dev_write dev (wire w) "*CLS"); reflexivity.
Qed.

(** [get_esr] never raises, asks [*ESR?] once under a 500 ms timeout and
    restores the timeout. *)
Lemma get_esr_run c w i :
  instrument c = Some i ->
  get_esr dev {| ctl := c; world := w |} =
    (Return (esr_of_answer (dev_query dev (wire w) 500 "*ESR?")),
     {| ctl := c; world := log_wire (Asked "*ESR?") w |}).
Proof.
  intros Hi. destruct c as [ins idn0 model0 fi mm]. simpl in Hi. subst ins.
  destruct i as [t].
  unfold get_esr, bind, get_ctl, try_except, try_finally, get_timeout, set_timeout,
    put_ctl, instr_query, option_lift, ret, raise. simpl.
  destruct (dev_query dev (wire w) 500 "*ESR?") as [resp|]; simpl; [|reflexivity].
  destruct (esr_of_response resp); reflexivity.
Qed.

End PrimitiveRuns.

(** Execution under the hypothesis [Hi] that an instrument is connected. *)
Ltac exec Hi :=
  repeat (progress unfold_prog || rewrite Hi
          || rewrite (clear_status_run _ _ _ _ Hi)
          || rewrite (get_esr_run _ _ _ _ Hi)).


(** ** The model on concrete inputs *)

Example upper_identity : PyStr.upper "Rohde&Schwarz,smy02" = "ROHDE&SCHWARZ,SMY02".
Proof. reflexivity. Qed.

Example esr_of_plain_reply : esr_of_response "0" = Some 0.
Proof. reflexivity. Qed.

Example esr_of_padded_reply : esr_of_response "ESR  32 " = Some 32.
Proof. reflexivity. Qed.

Example esr_of_empty_reply : esr_of_response "" = None.
Proof. reflexivity. Qed.

Example esr_of_garbled_reply : esr_of_response "ERR" = None.
Proof. reflexivity. Qed.

Example format_3E_deviation : PyStr.format_3E 6250 = "6.250E+03".
Proof. reflexivity. Qed.

Example connect_reads_model :
  model (ctl (connected_state (simple_device smy02_idn (Some "0")))) = "SMY02" /\
  is_smy02_of (ctl (connected_state (simple_device smy02_idn (Some "0")))) = true /\
  is_smy02_of (ctl (connected_state (simple_device generic_idn (Some "0")))) = false.
Proof. vm_compute. repeat split. Qed.

(** On an SMY02 the frequency is written without a status query. *)
Example set_frequency_fast_path :
  let dev := simple_device smy02_idn (Some "4") in
  let r := set_frequency dev 144000000 (connected_state dev) in
  result_of r = Return true /\
  wire (world (state_of r)) = [Asked "*IDN?"; Sent "RF 144000000"].
Proof. vm_compute. split; reflexivity. Qed.

(** On an SMY02 the status 32 after [OUTP ON] counts as success. *)
Example enable_output_benign_status :
  let dev := simple_device smy02_idn (Some "32") in
  let r := enable_output dev (connected_state dev) in
  result_of r = Return true /\
  writes_of (wire (world (state_of r))) = ["*CLS"; "OUTP ON"].
Proof. vm_compute. split; reflexivity. Qed.

(** On another identity the status 32 does not stop the loop, but left by
    the last candidate it still makes the call succeed. *)
Example enable_output_benign_last_status :
  let dev := simple_device generic_idn (Some "32") in
  let r := enable_output dev (connected_state dev) in
  result_of r = Return true /\
  writes_of (wire (world (state_of r)))
    = ["*CLS"; "OUTP ON"; "*CLS"; "OUTP:STAT ON"; "*CLS"; "OUTPON";
       "*CLS"; "LEVEL:ON"; "*CLS"; "RF:ON"].
Proof. vm_compute. split; reflexivity. Qed.

Example round6_ties_to_even :
  round6 (5 # 10000000) = 0 # 1000000 /\ round6 (15 # 10000000) = 2 # 1000000.
Proof. vm_compute. split; reflexivity. Qed.

(** ** Calls on a controller without instrument *)

(** C10.  Called while no instrument is connected ([instrument] is [None]),
    each of [set_frequency], [set_amplitude], [enable_output],
    [disable_output], [set_modulation_fm] and [set_modulation_am] returns
    [False] without raising and leaves the controller, the wire history
    and the clock as they were (no device I/O is attempted); [get_esr]
    returns [None] in the same way. *)
Theorem disconnected_calls_fail
    (dev : Device) (float_repr : Q -> string) (s : St)
    (frequency deviation : Z) (amplitude : Q) :
  instrument (ctl s) = None ->
  set_frequency dev frequency s = (Return false, s) /\
  set_amplitude dev float_repr amplitude s = (Return false, s) /\
  enable_output dev s = (Return false, s) /\
  disable_output dev s = (Return false, s) /\
  set_modulation_fm dev deviation s = (Return false, s) /\
  set_modulation_am dev s = (Return false, s) /\
  get_esr dev s = (Return None, s).
Proof.
  intros Hnone.
  unfold set_frequency, set_amplitude, enable_output, disable_output,
    set_modulation_fm, set_modulation_am, get_esr, bind, get_ctl.
  rewrite Hnone. repeat split; reflexivity.
Qed.

Lemma disconnected_calls_fail_witness :
  instrument (ctl fresh_state) = None /\
  set_frequency (simple_device smy02_idn (Some "0")) 144000000 fresh_state
    = (Return false, fresh_state) /\
  get_esr (simple_device smy02_idn (Some "0")) fresh_state = (Return None, fresh_state).
Proof.
  split; [reflexivity|].
  pose proof (disconnected_calls_fail (simple_device smy02_idn (Some "0")) ratio_repr
                fresh_state 144000000 6250 0 eq_refl) as H.
  split; [apply H|]. apply H.
Defined.


(** ** The modulation state *)

(** C4, as the code has it.  [set_modulation_am] has no check of the
    current mode: called when the mode is already AM it leaves the mode AM
    but writes its commands again.  On an SMY02 it writes [FM:OFF] and, when
    no write raises, [AM:ON], and returns [True]; on another identity it
    writes [FM:OFF], [AM:ON], [AM ON] and [AM:STAT ON] and returns [True]. *)
Theorem set_modulation_am_when_already_am (dev : Device) (s : St) (i : Instrument) :
  instrument (ctl s) = Some i ->
  _modulation_mode (ctl s) = Some AM ->
  let r := set_modulation_am dev s in
  _modulation_mode (ctl (state_of r)) = Some AM /\
  (is_smy02_of (ctl s) = true ->
     (exists evs, wire (world (state_of r)) = wire (world s) ++ Sent "FM:OFF" :: evs) /\
     (writes_accepted dev ->
        result_of r = Return true /\
        wire (world (state_of r)) = wire (world s) ++ [Sent "FM:OFF"; Sent "AM:ON"])) /\
  (is_smy02_of (ctl s) = false ->
     result_of r = Return true /\
     wire (world (state_of r)) =
       wire (world s) ++ [Sent "FM:OFF"; Sent "AM:ON"; Sent "AM ON"; Sent "AM:STAT ON"]).
Proof.
  intros Hi Hmode r. subst r.
  destruct s as [c w]. simpl in Hi, Hmode.
  unfold set_modulation_am. exec Hi.
  destruct (is_smy02_of c) eqn:Hsmy; exec Hi.
  - split; [|split; [|discriminate]].
    + destruct (dev_write dev _ "FM:OFF"); exec Hi; [|exact Hmode].
      destruct (dev_write dev _ "AM:ON"); exec Hi; [reflexivity|exact Hmode].
    + intros _. split.
      * destruct (dev_write dev _ "FM:OFF"); exec Hi.
        -- destruct (dev_write dev _ "AM:ON"); exec Hi;
             exists [Sent "AM:ON"]; rewrite <- app_assoc; reflexivity.
        -- exists []. reflexivity.
      * intros Hw. rewrite Hw. exec Hi. rewrite Hw. exec Hi.
        rewrite <- app_assoc. split; reflexivity.
  - split; [|split; [discriminate|]].
    + destruct (dev_write dev _ "FM:OFF"); exec Hi;
      destruct (dev_write dev _ "AM:ON"); exec Hi;
      destruct (dev_write dev _ "AM ON"); exec Hi;
      destruct (dev_write dev _ "AM:STAT ON"); exec Hi; reflexivity.
    + intros _.
      destruct (dev_write dev _ "FM:OFF"); exec Hi;
      destruct (dev_write dev _ "AM:ON"); exec Hi;
      destruct (dev_write dev _ "AM ON"); exec Hi;
      destruct (dev_write dev _ "AM:STAT ON"); exec Hi;
        rewrite <- !app_assoc; split; reflexivity.
Qed.

Lemma set_modulation_am_when_already_am_witness :
  let dev := simple_device smy02_idn (Some "0") in
  let s := state_of (set_modulation_am dev (connected_state dev)) in
  _modulation_mode (ctl s) = Some AM /\
  _modulation_mode (ctl (state_of (set_modulation_am dev s))) = Some AM.
Proof.
  intros dev s. split; [reflexivity|].
  apply (set_modulation_am_when_already_am dev s {| timeout := 5000 |});
    reflexivity.
Defined.

(** C4 as stated fails: on a connected SMY02 whose mode is already AM, a
    further [set_modulation_am] writes [FM:OFF] and [AM:ON] again. *)
Lemma set_modulation_am_not_a_noop :
  let dev := simple_device smy02_idn (Some "0") in
  let s := state_of (set_modulation_am dev (connected_state dev)) in
  let s' := state_of (set_modulation_am dev s) in
  _modulation_mode (ctl s) = Some AM /\
  writes_of (wire (world s')) = writes_of (wire (world s)) ++ ["FM:OFF"; "AM:ON"] /\
  wire (world s') <> wire (world s).
Proof.
  vm_compute. repeat split; discriminate.
Qed.

(** C7, as the code has it.  On an SMY02 with FM initialised and the mode
    already FM, [set_modulation_fm] attempts exactly one write, the
    deviation update [FM <deviation>], whether or not the deviation is the
    one set before (the controller does not remember it); no tone-source
    set-up, [FM:ON] or mode exit is written.  The controller state is
    unchanged and the call returns [True] unless that write raises. *)
Theorem set_modulation_fm_when_already_fm
    (dev : Device) (s : St) (i : Instrument) (deviation : Z) :
  instrument (ctl s) = Some i ->
  is_smy02_of (ctl s) = true ->
  _fm_initialized (ctl s) = true ->
  _modulation_mode (ctl s) = Some FM ->
  let r := set_modulation_fm dev deviation s in
  wire (world (state_of r)) = wire (world s) ++ [Sent ("FM " +:+ PyStr.of_Z deviation)] /\
  ctl (state_of r) = ctl s /\
  result_of r = Return (dev_write dev (wire (world s)) ("FM " +:+ PyStr.of_Z deviation)).
Proof.
  intros Hi Hsmy Hinit Hmode r. subst r.
  destruct s as [c w]. simpl in Hi, Hsmy, Hinit, Hmode.
  unfold set_modulation_fm. exec Hi. rewrite Hsmy, Hinit, Hmode.
  rewrite bool_decide_eq_true_2 by reflexivity. exec Hi.
  destruct (dev_write dev (wire w) _); exec Hi.
  - repeat split. destruct c; simpl in *; subst; reflexivity.
  - repeat split.
Qed.

Lemma set_modulation_fm_when_already_fm_witness :
  let dev := simple_device smy02_idn (Some "0") in
  let s := state_of (set_modulation_fm dev 6250 (connected_state dev)) in
  wire (world (state_of (set_modulation_fm dev 12500 s))) =
    wire (world s) ++ [Sent "FM 12500"].
Proof.
  intros dev s.
  apply (set_modulation_fm_when_already_fm dev s {| timeout := 5000 |} 12500);
    reflexivity.
Defined.

(** C7 as stated fails: the second of two calls with the same deviation
    still writes the deviation command. *)
Lemma set_modulation_fm_repeats_unchanged_deviation :
  let dev := simple_device smy02_idn (Some "0") in
  let s := state_of (set_modulation_fm dev 6250 (connected_state dev)) in
  let s' := state_of (set_modulation_fm dev 6250 s) in
  _modulation_mode (ctl s) = Some FM /\
  _fm_initialized (ctl s) = true /\
  writes_of (wire (world s)) = ["FM:INT 1.000E+3"; "AF 1000"; "FM:ON"; "FM 6250"] /\
  writes_of (wire (world s')) = writes_of (wire (world s)) ++ ["FM 6250"].
Proof.
  vm_compute. repeat split.
Qed.

(** ** Command verification *)

Section Verification.

Variable dev : Device.
Variable float_repr : Q -> string.

(** A status query that times out ends the candidate loop of
    [enable_output] with success, at whatever candidate it happens. *)
Lemma enable_output_loop_timeout c w i is_smy02 cmd rest last_esr :
  instrument c = Some i ->
  dev_write dev (wire w ++ [Sent "*CLS"]) cmd = true ->
  dev_query dev (wire w ++ [Sent "*CLS"; Sent cmd]) 500 "*ESR?" = None ->
  let r := enable_output_loop dev is_smy02 (cmd :: rest) last_esr {| ctl := c; world := w |} in
  result_of r = Return (Some true, None) /\
  wire (world (state_of r)) = wire w ++ [Sent "*CLS"; Sent cmd; Asked "*ESR?"].
Proof.
  intros Hi Hw Hq r. subst r.
  cbn [enable_output_loop]. exec Hi. rewrite Hw. exec Hi.
  rewrite <- app_assoc. cbn [app]. rewrite Hq. cbn [esr_of_answer esr_none_or_zero].
  exec Hi. rewrite <- !app_assoc. split; reflexivity.
Qed.

(** The same for the loop of [_try_commands_with_check]. *)
Lemma try_commands_loop_timeout c w i cmd rest :
  instrument c = Some i ->
  dev_write dev (wire w ++ [Sent "*CLS"]) cmd = true ->
  dev_query dev (wire w ++ [Sent "*CLS"; Sent cmd]) 500 "*ESR?" = None ->
  let r := try_commands_loop dev (cmd :: rest) {| ctl := c; world := w |} in
  result_of r = Return (Some true) /\
  wire (world (state_of r)) = wire w ++ [Sent "*CLS"; Sent cmd; Asked "*ESR?"].
Proof.
  intros Hi Hw Hq r. subst r.
  cbn [try_commands_loop]. exec Hi. rewrite Hw. exec Hi.
  rewrite <- app_assoc. cbn [app]. rewrite Hq. cbn [esr_of_answer].
  exec Hi. rewrite <- !app_assoc. split; reflexivity.
Qed.

(** C1, as the code has it.  A status query that times out after a
    candidate was written is taken as success by [enable_output] and by
    [_try_commands_with_check]: the call returns [True] and no further
    candidate is written (this holds at whatever candidate of the loop it
    happens).  [set_frequency] and [set_amplitude] differ: on an identity
    other than SMY02 they require [esr is not None and esr == 0] and return
    [False] on a timeout (on an SMY02 they do not query the status). *)
Theorem status_timeout_outcomes (s : St) (i : Instrument) :
  instrument (ctl s) = Some i ->
  let h := wire (world s) in
  (forall is_smy02 cmd rest last_esr,
     dev_write dev (h ++ [Sent "*CLS"]) cmd = true ->
     dev_query dev (h ++ [Sent "*CLS"; Sent cmd]) 500 "*ESR?" = None ->
     let r := enable_output_loop dev is_smy02 (cmd :: rest) last_esr s in
     result_of r = Return (Some true, None) /\
     wire (world (state_of r)) = h ++ [Sent "*CLS"; Sent cmd; Asked "*ESR?"]) /\
  (forall cmd rest,
     dev_write dev (h ++ [Sent "*CLS"]) cmd = true ->
     dev_query dev (h ++ [Sent "*CLS"; Sent cmd]) 500 "*ESR?" = None ->
     let r := try_commands_loop dev (cmd :: rest) s in
     result_of r = Return (Some true) /\
     wire (world (state_of r)) = h ++ [Sent "*CLS"; Sent cmd; Asked "*ESR?"]) /\
  (dev_write dev (h ++ [Sent "*CLS"]) "OUTP ON" = true ->
   dev_query dev (h ++ [Sent "*CLS"; Sent "OUTP ON"]) 500 "*ESR?" = None ->
   let r := enable_output dev s in
   result_of r = Return true /\
   wire (world (state_of r)) = h ++ [Sent "*CLS"; Sent "OUTP ON"; Asked "*ESR?"]) /\
  (forall cmd rest,
     dev_write dev (h ++ [Sent "*CLS"]) cmd = true ->
     dev_query dev (h ++ [Sent "*CLS"; Sent cmd]) 500 "*ESR?" = None ->
     let r := _try_commands_with_check dev (cmd :: rest) s in
     result_of r = Return true /\
     wire (world (state_of r)) = h ++ [Sent "*CLS"; Sent cmd; Asked "*ESR?"]) /\
  (is_smy02_of (ctl s) = false ->
   forall frequency,
     dev_query dev (h ++ [Sent ("RF " +:+ PyStr.of_Z frequency)]) 500 "*ESR?" = None ->
     result_of (set_frequency dev frequency s) = Return false) /\
  (is_smy02_of (ctl s) = false ->
   forall amplitude,
     dev_query dev (h ++ [Sent ("LEVEL " +:+ float_repr amplitude)]) 500 "*ESR?" = None ->
     result_of (set_amplitude dev float_repr amplitude s) = Return false).
Proof.
  intros Hi h. subst h. destruct s as [c w]. cbn [ctl world] in *.
  split; [|split; [|split; [|split; [|split]]]].
  - intros is_smy02 cmd rest last_esr Hw Hq.
    exact (enable_output_loop_timeout c w i is_smy02 cmd rest last_esr Hi Hw Hq).
  - intros cmd rest Hw Hq. exact (try_commands_loop_timeout c w i cmd rest Hi Hw Hq).
  - intros Hw Hq. cbv zeta.
    destruct (enable_output_loop_timeout c w i (is_smy02_of c) "OUTP ON"
                (tl (enable_output_candidates (is_smy02_of c))) None Hi Hw Hq) as [Hr Hwire].
    unfold enable_output. exec Hi.
    assert (Hc : enable_output_candidates (is_smy02_of c) =
                 "OUTP ON" :: tl (enable_output_candidates (is_smy02_of c)))
      by (destruct (is_smy02_of c); reflexivity).
    rewrite Hc.
    destruct (enable_output_loop dev (is_smy02_of c) _ None {| ctl := c; world := w |})
      as [o s'] eqn:Hrun.
    unfold result_of, state_of in Hr, Hwire. cbn [fst snd] in Hr, Hwire. subst o.
    exec Hi. split; [reflexivity|exact Hwire].
  - intros cmd rest Hw Hq. cbv zeta.
    destruct (try_commands_loop_timeout c w i cmd rest Hi Hw Hq) as [Hr Hwire].
    unfold _try_commands_with_check. exec Hi.
    destruct (try_commands_loop dev (cmd :: rest) {| ctl := c; world := w |})
      as [o s'] eqn:Hrun.
    unfold result_of, state_of in Hr, Hwire. cbn [fst snd] in Hr, Hwire. subst o.
    exec Hi. split; [reflexivity|exact Hwire].
  - intros Hsmy frequency Hq.
    unfold set_frequency. exec Hi. rewrite Hsmy.
    destruct (dev_write dev (wire w) _); exec Hi; [|reflexivity].
    rewrite Hq. reflexivity.
  - intros Hsmy amplitude Hq.
    unfold set_amplitude. exec Hi. rewrite Hsmy.
    destruct (dev_write dev (wire w) _); exec Hi; [|reflexivity].
    rewrite Hq. reflexivity.
Qed.

End Verification.

Lemma status_timeout_outcomes_witness :
  let dev := simple_device generic_idn None in
  let s := connected_state dev in
  instrument (ctl s) = Some {| timeout := 5000 |} /\
  result_of (enable_output dev s) = Return true /\
  result_of (set_frequency dev 144000000 s) = Return false.
Proof.
  intros dev s.
  assert (Hi : instrument (ctl s) = Some {| timeout := 5000 |}) by reflexivity.
  destruct (status_timeout_outcomes dev ratio_repr s {| timeout := 5000 |} Hi)
    as (_ & _ & Henable & _ & Hfreq & _).
  split; [exact Hi|]. split.
  - apply Henable; vm_compute; reflexivity.
  - apply Hfreq; vm_compute; reflexivity.
Defined.

(** C1 as stated fails for [set_frequency] (and [set_amplitude]): on an
    identity other than SMY02, with the write accepted and the status query
    timing out, the call returns [False]. *)
Lemma set_frequency_timeout_is_failure :
  let dev := simple_device generic_idn None in
  let s := connected_state dev in
  let r := set_frequency dev 144000000 s in
  is_smy02_of (ctl s) = false /\
  wire (world (state_of r)) = wire (world s) ++ [Sent "RF 144000000"; Asked "*ESR?"] /\
  dev_query dev (wire (world s) ++ [Sent "RF 144000000"]) 500 "*ESR?" = None /\
  result_of r = Return false /\
  result_of (set_amplitude dev ratio_repr (-20) s) = Return false.
Proof.
  vm_compute. repeat split.
Qed.

Section Rejection.

Variable dev : Device.
Variable float_repr : Q -> string.
Hypothesis Hrej : status_rejects dev.

Lemma rejected_status h t :
  exists v, esr_of_answer (dev_query dev h t "*ESR?") = Some v /\
            esr_none_or_zero (Some v) = false /\
            esr_is_zero (Some v) = false /\
            esr_benign (Some v) = false.
Proof.
  destruct (Hrej h t) as (v & Hv & Hnz & Hnb). exists v.
  assert (Hz : (v =? 0) = false) by (apply Z.eqb_neq; exact Hnz).
  repeat split; cbn [esr_none_or_zero esr_is_zero]; try assumption.
  unfold esr_benign. destruct (existsb (Z.eqb v) benign_codes) eqn:He; [|reflexivity].
  apply existsb_exists in He. destruct He as (x & Hin & Hx).
  apply Z.eqb_eq in Hx. subst x. contradiction.
Qed.

(** With every status rejected, the loop of [enable_output] takes no
    early return, and the last status it leaves is not benign. *)
Lemma enable_output_loop_rejected c i is_smy02 candidates :
  instrument c = Some i ->
  forall last_esr w,
    esr_benign last_esr = false ->
    match result_of (enable_output_loop dev is_smy02 candidates last_esr
                       {| ctl := c; world := w |}) with
    | Return (None, l) => esr_benign l = false
    | Return (Some _, _) => False
    | Raise => True
    end.
Proof.
  intros Hi. induction candidates as [|cmd rest IH]; intros last_esr w Hlast.
  - exact Hlast.
  - cbn [enable_output_loop]. exec Hi.
    destruct (dev_write dev _ cmd); exec Hi; [|exact I].
    match goal with
    | |- context [dev_query dev ?h 500 "*ESR?"] =>
        destruct (rejected_status h 500) as (v & Hv & Hnz & _ & Hnb)
    end.
    rewrite Hv, Hnz, Hnb, andb_false_r.
    apply IH. exact Hnb.
Qed.

(** With every status rejected, the loop of [_try_commands_with_check]
    runs out of candidates. *)
Lemma try_commands_loop_rejected c i commands :
  instrument c = Some i ->
  forall w,
    result_of (try_commands_loop dev commands {| ctl := c; world := w |}) = Return None.
Proof.
  intros Hi. induction commands as [|cmd rest IH]; intros w.
  - reflexivity.
  - cbn [try_commands_loop]. exec Hi.
    destruct (dev_write dev _ cmd); exec Hi; [|apply IH].
    match goal with
    | |- context [dev_query dev ?h 500 "*ESR?"] =>
        destruct (rejected_status h 500) as (v & Hv & Hnz & _)
    end.
    rewrite Hv. cbn [esr_none_or_zero] in Hnz. rewrite Hnz. exec Hi. apply IH.
Qed.

End Rejection.

(** The deviation loop of the generic branch never raises and leaves the
    controller as it was. *)
Lemma deviation_loop_returns dev c i cmds :
  instrument c = Some i ->
  forall w, exists b w',
    deviation_loop dev cmds {| ctl := c; world := w |} = (Return b, {| ctl := c; world := w' |}).
Proof.
  intros Hi. induction cmds as [|cmd rest IH]; intros w.
  - exists false, w. reflexivity.
  - cbn [deviation_loop]. exec Hi.
    destruct (dev_write dev _ cmd); exec Hi; [|apply IH].
    destruct (esr_none_or_zero _); [|apply IH].
    eexists _, _. reflexivity.
Qed.

(** C8, as the code has it.  When every status query is answered by a
    nonzero code outside the benign codes 32 and 53, [enable_output] and
    [_try_commands_with_check] return [False] whatever the candidates, and
    so do [set_frequency] and [set_amplitude] on an identity other than
    SMY02.  The deviation candidates of [set_modulation_fm] are the
    exception: on an identity other than SMY02 their rejection is only
    logged, [FM:ON] is written and the call returns [True]. *)
Theorem all_rejected_outcomes
    (dev : Device) (float_repr : Q -> string) (s : St) (i : Instrument) :
  instrument (ctl s) = Some i ->
  status_rejects dev ->
  result_of (enable_output dev s) = Return false /\
  (forall commands, result_of (_try_commands_with_check dev commands s) = Return false) /\
  (is_smy02_of (ctl s) = false ->
     (forall frequency, result_of (set_frequency dev frequency s) = Return false) /\
     (forall amplitude, result_of (set_amplitude dev float_repr amplitude s) = Return false)) /\
  (is_smy02_of (ctl s) = false -> writes_accepted dev ->
     forall deviation,
       result_of (set_modulation_fm dev deviation s) = Return true /\
       _modulation_mode (ctl (state_of (set_modulation_fm dev deviation s))) = Some FM).
Proof.
  intros Hi Hrej. destruct s as [c w]. cbn [ctl world] in *.
  split; [|split; [|split]].
  - unfold enable_output. exec Hi.
    pose proof (enable_output_loop_rejected dev Hrej c i (is_smy02_of c)
                  (enable_output_candidates (is_smy02_of c)) Hi None w eq_refl) as Hloop.
    destruct (enable_output_loop dev _ _ None {| ctl := c; world := w |}) as [o s'].
    unfold result_of in Hloop. cbn [fst] in Hloop.
    destruct o as [[[b|] l]|]; [contradiction| |reflexivity].
    rewrite Hloop. reflexivity.
  - intros commands. unfold _try_commands_with_check. exec Hi.
    pose proof (try_commands_loop_rejected dev Hrej c i commands Hi w) as Hloop.
    destruct (try_commands_loop dev commands {| ctl := c; world := w |}) as [o s'].
    unfold result_of in Hloop. cbn [fst] in Hloop. subst o. reflexivity.
  - intros Hsmy. split.
    + intros frequency. unfold set_frequency. exec Hi. rewrite Hsmy.
      destruct (dev_write dev (wire w) _); exec Hi; [|reflexivity].
      match goal with
      | |- context [dev_query dev ?h 500 "*ESR?"] =>
          destruct (rejected_status dev Hrej h 500) as (v & Hv & _ & Hz & _)
      end.
      rewrite Hv, Hz. reflexivity.
    + intros amplitude. unfold set_amplitude. exec Hi. rewrite Hsmy.
      destruct (dev_write dev (wire w) _); exec Hi; [|reflexivity].
      match goal with
      | |- context [dev_query dev ?h 500 "*ESR?"] =>
          destruct (rejected_status dev Hrej h 500) as (v & Hv & _ & Hz & _)
      end.
      rewrite Hv, Hz. reflexivity.
  - intros Hsmy Hw deviation. unfold set_modulation_fm. exec Hi. rewrite Hsmy.
    repeat (rewrite Hw || (progress exec Hi)).
    match goal with
    | |- context [deviation_loop dev ?cmds {| ctl := c; world := ?w0 |}] =>
        destruct (deviation_loop_returns dev c i cmds Hi w0) as (b & w' & Hdev)
    end.
    rewrite Hdev. repeat (rewrite Hw || (progress exec Hi)). split; reflexivity.
Qed.

Lemma all_rejected_outcomes_witness :
  let dev := simple_device generic_idn (Some "4") in
  let s := connected_state dev in
  instrument (ctl s) = Some {| timeout := 5000 |} /\
  status_rejects dev /\
  result_of (enable_output dev s) = Return false.
Proof.
  intros dev s.
  assert (Hrej : status_rejects dev).
  { intros h t. exists 4. vm_compute.
    repeat split; [discriminate | intros [H|[H|[]]]; discriminate]. }
  assert (Hi : instrument (ctl s) = Some {| timeout := 5000 |}) by reflexivity.
  destruct (all_rejected_outcomes dev ratio_repr s {| timeout := 5000 |} Hi Hrej)
    as (Henable & _).
  split; [exact Hi|]. split; [exact Hrej|exact Henable].
Defined.

(** C8 as stated fails for [set_modulation_fm]: on an identity other than
    SMY02, with each of the five deviation candidates answered by the
    status 4, the call still returns [True]. *)
Lemma set_modulation_fm_ignores_rejection :
  let dev := simple_device generic_idn (Some "4") in
  let s := connected_state dev in
  let r := set_modulation_fm dev 6250 s in
  esr_of_answer (Some "4") = Some 4 /\
  esr_benign (Some 4) = false /\
  wire (world (state_of r)) =
    wire (world s) ++
      [ Sent "*CLS"; Sent "FM:INT 1.000E+3"; Sent "AF 1000";
        Sent "*CLS"; Sent "FM 6250"; Asked "*ESR?";
        Sent "*CLS"; Sent "FM:DEV 6250"; Asked "*ESR?";
        Sent "*CLS"; Sent "FM:DEV 6.250E+03"; Asked "*ESR?";
        Sent "*CLS"; Sent "FM:DEVIATION 6250"; Asked "*ESR?";
        Sent "*CLS"; Sent "FM:INT:DEV 6250"; Asked "*ESR?";
        Sent "FM:ON" ] /\
  result_of r = Return true.
Proof.
  vm_compute. repeat split.
Qed.
(** ** The sweep generator *)

Lemma round_half_even_comp (x y : Q) :
  (x == y)%Q -> PyStr.round_half_even x = PyStr.round_half_even y.
Proof.
  intros Hxy. unfold PyStr.round_half_even.
  rewrite (Qfloor_comp x y Hxy).
  assert (Hc : (x - inject_Z (Qfloor y) ?= 1 # 2)%Q = (y - inject_Z (Qfloor y) ?= 1 # 2)%Q).
  { apply Qcompare_comp; [rewrite Hxy|]; reflexivity. }
  rewrite Hc. reflexivity.
Qed.

Lemma round6_comp (x y : Q) : (x == y)%Q -> round6 x = round6 y.
Proof.
  intros Hxy. unfold round6. f_equal. apply round_half_even_comp.
  rewrite Hxy. reflexivity.
Qed.

Section SweepLoop.

Variable make : Q -> Q -> PlaylistEntry.
Variable spec : SweepSpec.
Variable eps : Q.

Lemma sweep_loop_ascending (k : nat) :
  forall fuel idx current,
    (k < fuel)%nat ->
    (forall j, (j < k)%nat ->
       (current + inject_Z (Z.of_nat j) * sweep_step spec <= sweep_stop spec + eps)%Q) ->
    ~ (current + inject_Z (Z.of_nat k) * sweep_step spec <= sweep_stop spec + eps)%Q ->
    sweep_loop fuel make spec true eps idx current
    = Some (map (sweep_point make spec true idx current) (seq 0 k)).
Proof.
  induction k as [|k IH]; intros fuel idx current Hfuel Hin Hout.
  - destruct fuel as [|fuel]; [lia|]. cbn [sweep_loop sweep_continues].
    destruct (Qle_bool current (sweep_stop spec + eps)) eqn:Hle; [|reflexivity].
    exfalso. apply Hout. apply Qle_bool_iff in Hle.
    change (inject_Z (Z.of_nat 0)) with 0%Q. lra.
  - destruct fuel as [|fuel]; [lia|]. cbn [sweep_loop sweep_continues].
    assert (Hle : Qle_bool current (sweep_stop spec + eps) = true).
    { apply Qle_bool_iff. specialize (Hin 0%nat ltac:(lia)).
      change (inject_Z (Z.of_nat 0)) with 0%Q in Hin. lra. }
    rewrite Hle.
    rewrite (IH fuel (idx + 1) (current + sweep_step spec)%Q).
    + f_equal. cbn [seq map]. f_equal.
      * unfold sweep_point. f_equal.
        -- apply round6_comp. change (inject_Z (Z.of_nat 0)) with 0%Q. ring.
        -- f_equal. lia.
      * rewrite <- seq_shift, map_map. apply map_ext. intros j.
        unfold sweep_point. f_equal.
        -- apply round6_comp. rewrite Nat2Z.inj_succ, <- Z.add_1_r, inject_Z_plus.
           change (inject_Z 1) with 1%Q. ring.
        -- f_equal. lia.
    + lia.
    + intros j Hj. specialize (Hin (S j) ltac:(lia)).
      rewrite Nat2Z.inj_succ, <- Z.add_1_r, inject_Z_plus in Hin.
      change (inject_Z 1) with 1%Q in Hin.
      setoid_replace (current + sweep_step spec + inject_Z (Z.of_nat j) * sweep_step spec)%Q
        with (current + (inject_Z (Z.of_nat j) + 1) * sweep_step spec)%Q
        using relation Qeq by ring.
      exact Hin.
    + intros Hc. apply Hout.
      rewrite Nat2Z.inj_succ, <- Z.add_1_r, inject_Z_plus.
      change (inject_Z 1) with 1%Q.
      setoid_replace (current + (inject_Z (Z.of_nat k) + 1) * sweep_step spec)%Q
        with (current + sweep_step spec + inject_Z (Z.of_nat k) * sweep_step spec)%Q
        using relation Qeq by ring.
      exact Hc.
Qed.

Lemma sweep_loop_descending (k : nat) :
  forall fuel idx current,
    (k < fuel)%nat ->
    (forall j, (j < k)%nat ->
       (sweep_stop spec - eps <= current - inject_Z (Z.of_nat j) * sweep_step spec)%Q) ->
    ~ (sweep_stop spec - eps <= current - inject_Z (Z.of_nat k) * sweep_step spec)%Q ->
    sweep_loop fuel make spec false eps idx current
    = Some (map (sweep_point make spec false idx current) (seq 0 k)).
Proof.
  induction k as [|k IH]; intros fuel idx current Hfuel Hin Hout.
  - destruct fuel as [|fuel]; [lia|]. cbn [sweep_loop sweep_continues].
    destruct (Qle_bool (sweep_stop spec - eps) current) eqn:Hle; [|reflexivity].
    exfalso. apply Hout. apply Qle_bool_iff in Hle.
    change (inject_Z (Z.of_nat 0)) with 0%Q. lra.
  - destruct fuel as [|fuel]; [lia|]. cbn [sweep_loop sweep_continues].
    assert (Hle : Qle_bool (sweep_stop spec - eps) current = true).
    { apply Qle_bool_iff. specialize (Hin 0%nat ltac:(lia)).
      change (inject_Z (Z.of_nat 0)) with 0%Q in Hin. lra. }
    rewrite Hle.
    rewrite (IH fuel (idx + 1) (current - sweep_step spec)%Q).
    + f_equal. cbn [seq map]. f_equal.
      * unfold sweep_point. f_equal.
        -- apply round6_comp. change (inject_Z (Z.of_nat 0)) with 0%Q. ring.
        -- f_equal. lia.
      * rewrite <- seq_shift, map_map. apply map_ext. intros j.
        unfold sweep_point. f_equal.
        -- apply round6_comp. rewrite Nat2Z.inj_succ, <- Z.add_1_r, inject_Z_plus.
           change (inject_Z 1) with 1%Q. ring.
        -- f_equal. lia.
    + lia.
    + intros j Hj. specialize (Hin (S j) ltac:(lia)).
      rewrite Nat2Z.inj_succ, <- Z.add_1_r, inject_Z_plus in Hin.
      change (inject_Z 1) with 1%Q in Hin.
      setoid_replace (current - sweep_step spec - inject_Z (Z.of_nat j) * sweep_step spec)%Q
        with (current - (inject_Z (Z.of_nat j) + 1) * sweep_step spec)%Q using relation Qeq by ring.
      exact Hin.
    + intros Hc. apply Hout.
      rewrite Nat2Z.inj_succ, <- Z.add_1_r, inject_Z_plus.
      change (inject_Z 1) with 1%Q.
      setoid_replace (current - (inject_Z (Z.of_nat k) + 1) * sweep_step spec)%Q
        with (current - sweep_step spec - inject_Z (Z.of_nat k) * sweep_step spec)%Q
        using relation Qeq by ring.
      exact Hc.
Qed.

End SweepLoop.

(** With enough fuel the forward list is the [sweep_count] points stepped
    from the start, in either direction. *)
Lemma sweep_forward_run make spec fuel :
  (0 < sweep_step spec)%Q ->
  (sweep_count spec < fuel)%nat ->
  sweep_forward fuel make spec
  = Some (map (sweep_point make spec (Qle_bool (sweep_start spec) (sweep_stop spec)) 0
                 (sweep_start spec))
            (seq 0 (sweep_count spec))).
Proof.
  intros Hstep Hfuel. unfold sweep_forward, sweep_count in *.
  set (start := sweep_start spec) in *. set (stop := sweep_stop spec) in *.
  set (step := sweep_step spec) in *.
  destruct (Qle_bool start stop) eqn:Hasc.
  - apply Qle_bool_iff in Hasc.
    set (X := ((stop - start) / step + (1 # 10))%Q) in *.
    assert (HX : (X * step == stop - start + step / 10)%Q).
    { unfold X. field. lra. }
    assert (Hdiv : (0 <= (stop - start) / step)%Q).
    { apply Qle_shift_div_l; [exact Hstep|]. lra. }
    assert (Hm : 0 <= Qfloor X).
    { change 0 with (Qfloor 0). apply Qfloor_resp_le. unfold X. lra. }
    apply sweep_loop_ascending; [exact Hfuel| |].
    + intros j Hj.
      assert (Hjm : (inject_Z (Z.of_nat j) <= X)%Q).
      { eapply Qle_trans; [|apply Qfloor_le]. rewrite <- Zle_Qle. lia. }
      apply (Qmult_le_compat_r _ _ step) in Hjm; [|lra].
      fold start stop step. set (p := (inject_Z (Z.of_nat j) * step)%Q) in *.
      set (q := (X * step)%Q) in *. clearbody p q. lra.
    + intros Hc.
      assert (Hlt : (X < inject_Z (Z.of_nat (Z.to_nat (Qfloor X) + 1)))%Q).
      { replace (Z.of_nat (Z.to_nat (Qfloor X) + 1)) with (Qfloor X + 1) by lia.
        apply Qlt_floor. }
      apply (Qmult_lt_compat_r _ _ step) in Hlt; [|exact Hstep].
      fold start stop step in Hc.
      set (p := (inject_Z (Z.of_nat (Z.to_nat (Qfloor X) + 1)) * step)%Q) in *.
      set (q := (X * step)%Q) in *. clearbody p q. lra.
  - assert (Hdesc : (stop < start)%Q).
    { apply Qnot_le_lt. intros Hle. apply Qle_bool_iff in Hle. congruence. }
    set (X := ((start - stop) / step + (1 # 10))%Q) in *.
    assert (HX : (X * step == start - stop + step / 10)%Q).
    { unfold X. field. lra. }
    assert (Hdiv : (0 <= (start - stop) / step)%Q).
    { apply Qle_shift_div_l; [exact Hstep|]. lra. }
    assert (Hm : 0 <= Qfloor X).
    { change 0 with (Qfloor 0). apply Qfloor_resp_le. unfold X. lra. }
    apply sweep_loop_descending; [exact Hfuel| |].
    + intros j Hj.
      assert (Hjm : (inject_Z (Z.of_nat j) <= X)%Q).
      { eapply Qle_trans; [|apply Qfloor_le]. rewrite <- Zle_Qle. lia. }
      apply (Qmult_le_compat_r _ _ step) in Hjm; [|lra].
      fold start stop step. set (p := (inject_Z (Z.of_nat j) * step)%Q) in *.
      set (q := (X * step)%Q) in *. clearbody p q. lra.
    + intros Hc.
      assert (Hlt : (X < inject_Z (Z.of_nat (Z.to_nat (Qfloor X) + 1)))%Q).
      { replace (Z.of_nat (Z.to_nat (Qfloor X) + 1)) with (Qfloor X + 1) by lia.
        apply Qlt_floor. }
      apply (Qmult_lt_compat_r _ _ step) in Hlt; [|exact Hstep].
      fold start stop step in Hc.
      set (p := (inject_Z (Z.of_nat (Z.to_nat (Qfloor X) + 1)) * step)%Q) in *.
      set (q := (X * step)%Q) in *. clearbody p q. lra.
Qed.

Lemma sweep_count_positive spec : (0 < sweep_count spec)%nat.
Proof. unfold sweep_count. lia. Qed.

Lemma last_map_seq {A} (f : nat -> A) (n : nat) :
  last (map f (seq 0 (S n))) = Some (f n).
Proof.
  rewrite seq_S, map_app. cbn [map]. apply last_snoc.
Qed.

(** Where an ascending sweep of [n] points ends: the last point is at most
    a tenth of a step above the stop, and one more step would pass that
    bound. *)
Lemma ascending_last_bounds (spec : SweepSpec) :
  (0 < sweep_step spec)%Q ->
  (sweep_start spec <= sweep_stop spec)%Q ->
  let n := (Z.to_nat (Qfloor ((sweep_stop spec - sweep_start spec) / sweep_step spec
                              + (1 # 10))%Q) + 1)%nat in
  (sweep_start spec + inject_Z (Z.of_nat (n - 1)) * sweep_step spec
     <= sweep_stop spec + sweep_step spec / 10)%Q /\
  (sweep_stop spec + sweep_step spec / 10
     < sweep_start spec + inject_Z (Z.of_nat n) * sweep_step spec)%Q.
Proof.
  intros Hstep Hasc n. subst n.
  set (start := sweep_start spec) in *. set (stop := sweep_stop spec) in *.
  set (step := sweep_step spec) in *.
  set (X := ((stop - start) / step + (1 # 10))%Q).
  assert (HX : (X * step == stop - start + step / 10)%Q) by (unfold X; field; lra).
  assert (Hdiv : (0 <= (stop - start) / step)%Q)
    by (apply Qle_shift_div_l; [exact Hstep|lra]).
  assert (Hm : 0 <= Qfloor X)
    by (change 0 with (Qfloor 0); apply Qfloor_resp_le; unfold X; lra).
  replace (Z.of_nat (Z.to_nat (Qfloor X) + 1 - 1)) with (Qfloor X) by lia.
  replace (Z.of_nat (Z.to_nat (Qfloor X) + 1)) with (Qfloor X + 1) by lia.
  pose proof (Qfloor_le X) as Hle. pose proof (Qlt_floor X) as Hlt.
  apply (Qmult_le_compat_r _ _ step) in Hle; [|lra].
  apply (Qmult_lt_compat_r _ _ step) in Hlt; [|exact Hstep].
  set (p := (inject_Z (Qfloor X) * step)%Q) in *.
  set (p' := (inject_Z (Qfloor X + 1) * step)%Q) in *.
  set (q := (X * step)%Q) in *. clearbody p p' q. split; lra.
Qed.

(** C5, as the code has it.  For a step above 0 and a stop not below the
    start, the forward list has [floor((stop - start)/step + 1/10) + 1]
    entries (the tolerance is a tenth of a step, whatever the step); its
    first frequency is the start rounded to six decimals and its last is
    [start + (n - 1) * step] rounded: the last point that is not more than
    a tenth of a step above the stop.  It is the (rounded) stop whenever
    the span is a whole number of steps. *)
Theorem ascending_sweep_forward
    (make : Q -> Q -> PlaylistEntry) (spec : SweepSpec) (fuel : nat) :
  (forall f l, frequency (make f l) = f) ->
  (0 < sweep_step spec)%Q ->
  (sweep_start spec <= sweep_stop spec)%Q ->
  let n := (Z.to_nat (Qfloor ((sweep_stop spec - sweep_start spec) / sweep_step spec
                              + (1 # 10))%Q) + 1)%nat in
  (n < fuel)%nat ->
  exists forward,
    sweep_forward fuel make spec = Some forward /\
    length forward = n /\
    option_map frequency (head forward) = Some (round6 (sweep_start spec)) /\
    option_map frequency (last forward)
      = Some (round6 (sweep_start spec + inject_Z (Z.of_nat (n - 1)) * sweep_step spec)%Q) /\
    (sweep_start spec + inject_Z (Z.of_nat (n - 1)) * sweep_step spec
       <= sweep_stop spec + sweep_step spec / 10)%Q /\
    (sweep_stop spec + sweep_step spec / 10
       < sweep_start spec + inject_Z (Z.of_nat n) * sweep_step spec)%Q /\
    (forall m : Z,
       (sweep_stop spec - sweep_start spec == inject_Z m * sweep_step spec)%Q ->
       option_map frequency (last forward) = Some (round6 (sweep_stop spec))).
Proof.
  intros Hmake Hstep Hasc n Hfuel.
  destruct (ascending_last_bounds spec Hstep Hasc) as [Hlow Hhigh].
  assert (Hb : Qle_bool (sweep_start spec) (sweep_stop spec) = true)
    by (apply Qle_bool_iff; exact Hasc).
  assert (Hcount : sweep_count spec = n) by (unfold sweep_count; rewrite Hb; reflexivity).
  pose proof (sweep_forward_run make spec fuel Hstep) as Hrun.
  rewrite Hcount, Hb in Hrun. specialize (Hrun Hfuel).
  eexists. split; [exact Hrun|].
  assert (Hn : n = S (n - 1)) by (subst n; lia).
  split; [|split; [|split; [|split; [exact Hlow|split; [exact Hhigh|]]]]].
  - rewrite length_map, length_seq. reflexivity.
  - rewrite Hn. cbn [seq map head option_map]. unfold sweep_point. rewrite Hmake.
    f_equal. apply round6_comp. change (inject_Z (Z.of_nat 0)) with 0%Q. ring.
  - rewrite Hn at 1. rewrite last_map_seq. cbn [option_map]. unfold sweep_point.
    rewrite Hmake. reflexivity.
  - intros m Hm. rewrite Hn at 1. rewrite last_map_seq. cbn [option_map].
    unfold sweep_point. rewrite Hmake. f_equal. apply round6_comp.
    assert (Hm0 : (0 <= inject_Z m)%Q).
    { destruct (Qlt_le_dec (inject_Z m) 0) as [Hneg|Hpos]; [|exact Hpos].
      exfalso.
      assert (Hp : (inject_Z m * sweep_step spec < 0 * sweep_step spec)%Q)
        by (apply Qmult_lt_compat_r; assumption).
      set (p := (inject_Z m * sweep_step spec)%Q) in *. clearbody p. lra. }
    assert (Hfl : Qfloor ((sweep_stop spec - sweep_start spec) / sweep_step spec
                          + (1 # 10))%Q = m).
    { rewrite (Qfloor_comp _ (inject_Z m + (1 # 10))%Q).
      - apply Z.le_antisymm.
        + apply Z.lt_succ_r. rewrite Zlt_Qlt.
          eapply Qle_lt_trans; [apply Qfloor_le|].
          rewrite <- Z.add_1_r, inject_Z_plus. change (inject_Z 1) with 1%Q. lra.
        + rewrite <- (Qfloor_Z m) at 1. apply Qfloor_resp_le. lra.
      - rewrite Hm. field. lra. }
    subst n. rewrite Hfl.
    replace (Z.of_nat (Z.to_nat m + 1 - 1)) with m.
    + rewrite <- Hm. ring.
    + change 0%Q with (inject_Z 0) in Hm0. rewrite <- Zle_Qle in Hm0. lia.
Qed.

Lemma ascending_sweep_forward_witness :
  (0 < sweep_step scenario_sweep)%Q /\
  (sweep_start scenario_sweep <= sweep_stop scenario_sweep)%Q /\
  exists forward,
    sweep_forward 10 (plain_entry "12.5 kHz") scenario_sweep = Some forward /\
    length forward = 4%nat /\
    option_map frequency (last forward) = Some (round6 111).
Proof.
  assert (Hstep : (0 < sweep_step scenario_sweep)%Q) by reflexivity.
  assert (Hasc : (sweep_start scenario_sweep <= sweep_stop scenario_sweep)%Q)
    by (vm_compute; discriminate).
  split; [exact Hstep|]. split; [exact Hasc|].
  destruct (ascending_sweep_forward (plain_entry "12.5 kHz") scenario_sweep 10
              (fun _ _ => eq_refl) Hstep Hasc)
    as (forward & Hrun & Hlen & _ & _ & _ & _ & Hstop).
  - vm_compute. lia.
  - exists forward. split; [exact Hrun|]. split; [exact Hlen|].
    apply (Hstop 3). reflexivity.
Defined.

(** C5 as stated fails: from 100 to 110 MHz in steps of 20 MHz the forward
    list is the single point 100 MHz, while the stated length
    [floor((stop - start)/step + step/10) + 1] is 3; and its last (only)
    frequency is not the stop. *)
Lemma coarse_sweep_misses_stop :
  (0 < sweep_step coarse_sweep)%Q /\
  (sweep_start coarse_sweep <= sweep_stop coarse_sweep)%Q /\
  sweep_forward 10 (plain_entry "12.5 kHz") coarse_sweep
    = Some [plain_entry "12.5 kHz" (round6 100) (-20)] /\
  claimed_forward_length coarse_sweep = 3 /\
  ~ (round6 100 == round6 (sweep_stop coarse_sweep))%Q.
Proof.
  split; [reflexivity|]. split; [vm_compute; discriminate|].
  split; [vm_compute; reflexivity|]. split; [vm_compute; reflexivity|].
  vm_compute. discriminate.
Qed.

(** [forward[1:-1]] drops the first and the last point. *)
Lemma interior_middle {A} (first last : A) (mid : list A) :
  interior (first :: mid ++ [last]) = mid.
Proof.
  unfold interior. cbn [length skipn].
  rewrite length_app. cbn [length].
  replace (S (length mid + 1) - 1 - 1)%nat with (length mid) by lia.
  rewrite drop_0. apply take_app_length.
Qed.

(** A list of more than two points has a first, a middle and a last. *)
Lemma first_middle_last {A} (l : list A) :
  (2 < length l)%nat -> exists first mid last, l = first :: mid ++ [last] /\ mid <> [].
Proof.
  intros Hlen. destruct l as [|a l]; [cbn in Hlen; lia|].
  destruct (exists_last (l := l)) as (mid & z & Hl).
  { intros ->. cbn in Hlen. lia. }
  exists a, mid, z. subst l. split; [reflexivity|].
  intros ->. cbn in Hlen. lia.
Qed.

(** C6.  In the Qt GUI, with "Back and forth" checked and a valid
    specification, the generated entries are the forward list followed by
    the reverse of its interior points when the forward list has [n > 2]
    points, [2n - 2] entries in all; with [n <= 2] they are the forward
    list itself.  The forward list is never empty, and enough fuel always
    yields it. *)
Theorem ping_pong_sweep
    (float_repr float_2f : Q -> string) (spec : SweepSpec) (bw : string) :
  (0 < sweep_step spec)%Q ->
  1 <= sweep_toggle_every spec ->
  sweep_reverse spec = true ->
  exists forward,
    forward <> [] /\
    forall fuel, (sweep_count spec < fuel)%nat ->
      sweep_forward fuel (Qt.sweep_entry float_repr float_2f bw) spec = Some forward /\
      ((2 < length forward)%nat ->
         exists first mid last,
           forward = first :: mid ++ [last] /\
           interior forward = mid /\
           Qt.sweep_entries float_repr float_2f fuel spec bw
             = Some (SweepEntries (forward ++ rev mid)) /\
           length (forward ++ rev mid) = (2 * length forward - 2)%nat) /\
      ((length forward <= 2)%nat ->
         Qt.sweep_entries float_repr float_2f fuel spec bw = Some (SweepEntries forward)) /\
      (forall g, sweep_replace spec = true -> Qt.selected_bw g = bw ->
         option_map Qt.playlist (Qt._generate_sweep_playlist float_repr float_2f fuel spec g)
           = Some (ping_pong true forward)).
Proof.
  intros Hstep Htoggle Hrev.
  set (make := Qt.sweep_entry float_repr float_2f bw).
  set (forward := map (sweep_point make spec (Qle_bool (sweep_start spec) (sweep_stop spec)) 0
                         (sweep_start spec)) (seq 0 (sweep_count spec))).
  assert (Hne : forward <> []).
  { pose proof (sweep_count_positive spec) as Hpos. subst forward.
    destruct (sweep_count spec); [lia|]. discriminate. }
  assert (Hstep' : Qle_bool (sweep_step spec) 0 = false).
  { destruct (Qle_bool (sweep_step spec) 0) eqn:Hle; [|reflexivity].
    apply Qle_bool_iff in Hle. lra. }
  assert (Htoggle' : (sweep_toggle_every spec <? 1) = false) by (apply Z.ltb_ge; lia).
  assert (Hentries : forall fuel, (sweep_count spec < fuel)%nat ->
            Qt.sweep_entries float_repr float_2f fuel spec bw
            = Some (SweepEntries (ping_pong true forward))).
  { intros fuel Hfuel. unfold Qt.sweep_entries. rewrite Hstep', Htoggle'.
    fold make. rewrite (sweep_forward_run make spec fuel Hstep Hfuel). fold forward.
    rewrite Hrev. destruct forward; [contradiction|reflexivity]. }
  exists forward. split; [exact Hne|].
  intros fuel Hfuel. split; [exact (sweep_forward_run make spec fuel Hstep Hfuel)|].
  split; [|split].
  - intros Hlen. destruct (first_middle_last forward Hlen) as (a & mid & z & Hfwd & _).
    exists a, mid, z. split; [exact Hfwd|].
    assert (Hint : interior forward = mid) by (rewrite Hfwd; apply interior_middle).
    split; [exact Hint|]. split.
    + rewrite (Hentries fuel Hfuel). unfold ping_pong.
      apply Nat.ltb_lt in Hlen. rewrite Hlen, Hint. reflexivity.
    + rewrite length_app, length_rev. rewrite Hfwd. cbn [length].
      rewrite length_app. cbn [length]. lia.
  - intros Hlen. rewrite (Hentries fuel Hfuel). unfold ping_pong.
    assert (Hlt : (2 <? length forward)%nat = false) by (apply Nat.ltb_ge; exact Hlen).
    rewrite Hlt. reflexivity.
  - intros g Hrep Hbw. unfold Qt._generate_sweep_playlist.
    rewrite Hbw, (Hentries fuel Hfuel), Hrep. reflexivity.
Qed.

Lemma ping_pong_sweep_witness :
  (0 < sweep_step scenario_sweep)%Q /\
  1 <= sweep_toggle_every scenario_sweep /\
  sweep_reverse scenario_sweep = true /\
  exists forward,
    sweep_forward 10 (Qt.sweep_entry ratio_repr ratio_repr "12.5 kHz") scenario_sweep
      = Some forward /\
    map frequency forward = map round6 [108; 109; 110; 111]%Q /\
    option_map (map frequency)
      (option_map Qt.playlist
         (Qt._generate_sweep_playlist ratio_repr ratio_repr 10 scenario_sweep Qt.initial))
      = Some (map round6 [108; 109; 110; 111; 110; 109]%Q).
Proof.
  assert (Hstep : (0 < sweep_step scenario_sweep)%Q) by reflexivity.
  assert (Htoggle : 1 <= sweep_toggle_every scenario_sweep) by (vm_compute; discriminate).
  split; [exact Hstep|]. split; [exact Htoggle|]. split; [reflexivity|].
  destruct (ping_pong_sweep ratio_repr ratio_repr scenario_sweep "12.5 kHz"
              Hstep Htoggle eq_refl) as (forward & _ & Hall).
  destruct (Hall 10%nat) as (Hrun & _ & _ & Hgui).
  - vm_compute. lia.
  - exists forward. split; [exact Hrun|].
    assert (Hfwd : Some forward = sweep_forward 10
              (Qt.sweep_entry ratio_repr ratio_repr "12.5 kHz") scenario_sweep)
      by (symmetry; exact Hrun).
    vm_compute in Hfwd. injection Hfwd as ->.
    split; [vm_compute; reflexivity|].
    vm_compute. reflexivity.
Defined.

(** ** Starting a hopping session *)

(** C9.  With an empty playlist, [_start_hopping] of either GUI only
    shows a warning: nothing is written to or asked from the device, the
    clock does not move, no timer or worker thread is started and
    [playlist_running] keeps its value. *)
Theorem start_hopping_empty_playlist
    (dev : Device) (float_repr : Q -> string) (dwell_ms : Z)
    (q : Qt.GUI) (t : Tk.GUI) :
  Qt.playlist q = [] ->
  Tk.live t = [] ->
  (exists title message,
     Qt._start_hopping dev float_repr dwell_ms q
       = (Return tt, Qt.show (Warning title message) q)) /\
  (exists title message,
     Tk._start_hopping dwell_ms t = (Return tt, Tk.show (Warning title message) t)) /\
  (let q' := state_of (Qt._start_hopping dev float_repr dwell_ms q) in
   Qt.env q' = Qt.env q /\ Qt.controller q' = Qt.controller q /\
   Qt.playlist_running q' = Qt.playlist_running q /\ Qt.hop_timer q' = Qt.hop_timer q) /\
  (let t' := state_of (Tk._start_hopping dwell_ms t) in
   Tk.env t' = Tk.env t /\ Tk.controller t' = Tk.controller t /\
   Tk.playlist_running t' = Tk.playlist_running t /\
   Tk.playlist_thread t' = Tk.playlist_thread t /\
   Tk.active_hop_playlist t' = Tk.active_hop_playlist t).
Proof.
  intros Hq Ht.
  assert (HQ : exists title message,
             Qt._start_hopping dev float_repr dwell_ms q
             = (Return tt, Qt.show (Warning title message) q)).
  { unfold Qt._start_hopping, bind, Qt.get, Qt._warn, Qt.modify.
    destruct (negb (Qt.connected q) || negb (bool_decide (is_Some (Qt.controller q)))).
    - eexists _, _. reflexivity.
    - rewrite bool_decide_eq_true_2 by exact Hq. eexists _, _. reflexivity. }
  assert (HT : exists title message,
             Tk._start_hopping dwell_ms t = (Return tt, Tk.show (Warning title message) t)).
  { unfold Tk._start_hopping, bind, Tk.get, Tk.modify.
    destruct (negb (Tk.connected t)).
    - eexists _, _. reflexivity.
    - rewrite bool_decide_eq_true_2 by exact Ht. eexists _, _. reflexivity. }
  split; [exact HQ|]. split; [exact HT|].
  destruct HQ as (tq & mq & ->). destruct HT as (tt' & mt & ->).
  repeat split.
Qed.

Lemma start_hopping_empty_playlist_witness :
  let dev := simple_device smy02_idn (Some "0") in
  Qt.playlist (Qt.connected_to dev []) = [] /\
  Tk.live (Tk.connected_to dev []) = [] /\
  Qt.env (state_of (Qt._start_hopping dev ratio_repr 2000 (Qt.connected_to dev [])))
    = Qt.env (Qt.connected_to dev []) /\
  Tk.playlist_thread (state_of (Tk._start_hopping 2000 (Tk.connected_to dev []))) = None.
Proof.
  intros dev.
  assert (Hq : Qt.playlist (Qt.connected_to dev []) = []) by reflexivity.
  assert (Ht : Tk.live (Tk.connected_to dev []) = []) by reflexivity.
  destruct (start_hopping_empty_playlist dev ratio_repr 2000
              (Qt.connected_to dev []) (Tk.connected_to dev []) Hq Ht)
    as (_ & _ & (Henv & _) & (_ & _ & _ & Hthread & _)).
  split; [exact Hq|]. split; [exact Ht|]. split; [exact Henv|exact Hthread].
Defined.

(** ** Hopping in the Qt GUI *)

(** C2 fails on the Qt GUI: the hop slot reads [self.playlist] itself,
    there is no snapshot.  With the playlist 144, 145, 146 MHz and hopping started
    (144 MHz applied), removing row 1 makes the next hop apply 146 MHz
    where the unedited run applies 145 MHz; and after two hops, removing a
    row leaves [current_idx] out of range, so the next hop raises. *)
Theorem qt_hop_reads_live_playlist :
  let dev := simple_device smy02_idn (Some "0") in
  let started :=
    state_of (Qt._start_hopping dev ratio_repr 2000 (Qt.connected_to dev three_entries)) in
  let unedited := state_of (Qt._hop_once dev ratio_repr started) in
  let edited := state_of (Qt._hop_once dev ratio_repr (Qt._remove_selected 1 started)) in
  Qt.playlist_running started = true /\
  rf_writes (wire (Qt.env started)) = ["RF 144000000"] /\
  rf_writes (wire (Qt.env unedited)) = ["RF 144000000"; "RF 145000000"] /\
  rf_writes (wire (Qt.env edited)) = ["RF 144000000"; "RF 146000000"] /\
  Qt.current_idx unedited = 2%nat /\
  result_of (Qt._hop_once dev ratio_repr (Qt._remove_selected 0 unedited)) = Raise.
Proof.
  vm_compute. repeat split.
Qed.

(** C3 fails on the Qt GUI: the hop slot keeps no record of a failed
    enable.
    With every status answered by the code 4, [enable_output] fails in the
    first hop and is attempted again in the second and in the third. *)
Theorem qt_hop_retries_enable_output :
  let dev := simple_device smy02_idn (Some "4") in
  let hop1 :=
    state_of (Qt._start_hopping dev ratio_repr 2000 (Qt.connected_to dev three_entries)) in
  let hop2 := state_of (Qt._hop_once dev ratio_repr hop1) in
  let hop3 := state_of (Qt._hop_once dev ratio_repr hop2) in
  result_of (Qt.call (enable_output dev) (Qt.connected_to dev three_entries)) = Return false /\
  times_written "OUTP ON" (wire (Qt.env hop1)) = 1%nat /\
  times_written "OUTP ON" (wire (Qt.env hop2)) = 2%nat /\
  times_written "OUTP ON" (wire (Qt.env hop3)) = 3%nat /\
  rf_writes (wire (Qt.env hop3)) = ["RF 144000000"; "RF 145000000"; "RF 146000000"].
Proof.
  vm_compute. repeat split.
Qed.

(** The worker of the tkinter GUI on the same device and playlist: the
    enable is attempted in the first cycle only. *)
Example tk_worker_enables_once :
  let dev := simple_device smy02_idn (Some "4") in
  let started := state_of (Tk._start_hopping 2000 (Tk.connected_to dev three_entries)) in
  let cycle3 :=
    Tk.worker_step dev ratio_repr
      (Tk.worker_step dev ratio_repr
         (Tk.worker_step dev ratio_repr (Tk.worker_step dev ratio_repr started))) in
  times_written "OUTP ON" (wire (Tk.env cycle3)) = 1%nat /\
  rf_writes (wire (Tk.env cycle3)) = ["RF 144000000"; "RF 145000000"; "RF 146000000"] /\
  Tk.playlist_running cycle3 = true.
Proof.
  vm_compute. repeat split.
Qed.

(** ** Hopping in the tkinter GUI: the snapshot *)

Section TkSnapshot.

Import Tk.

Variable dev : Device.
Variable float_repr : Q -> string.

Lemma edited_refl g : is_Some (heap g !! playlist g) -> edited g g.
Proof. intros H. unfold edited. repeat split; auto. Qed.

Lemma edited_show d g : is_Some (heap g !! playlist g) -> edited g (show d g).
Proof. intros H. unfold edited. repeat split; auto. Qed.

Lemma edited_mutate f g : is_Some (heap g !! playlist g) -> edited g (mutate f g).
Proof.
  intros H. unfold edited, mutate. cbn. repeat split; auto.
  - rewrite lookup_insert_eq. eauto.
  - intros l Hl _. rewrite lookup_insert_ne by congruence. reflexivity.
Qed.

Lemma edited_rebind new g : is_Some (heap g !! playlist g) -> edited g (rebind new g).
Proof.
  intros H. unfold edited, rebind, alloc. cbn.
  assert (Hfresh : heap g !! fresh (dom (heap g)) = None).
  { apply not_elem_of_dom. apply is_fresh. }
  repeat split; auto.
  - rewrite lookup_insert_eq. eauto.
  - intros l _ [x Hx]. rewrite lookup_insert_ne; [reflexivity|].
    intros <-. rewrite Hfresh in Hx. discriminate.
Qed.

Lemma edited_apply_edit e g :
  is_Some (heap g !! playlist g) -> edited g (apply_edit float_repr e g).
Proof.
  intros H. destruct e as [entry|sel|confirmed|sel|sel|sel|imported replace|loaded|fuel spec bw];
    cbn [apply_edit].
  - apply edited_mutate, H.
  - unfold _remove_from_playlist. destruct sel as [idx|].
    + unfold bind, get, modify, raise, state_of. cbv beta iota.
      destruct (idx <? length (live g))%nat; cbn [snd];
        [apply edited_mutate|apply edited_refl]; exact H.
    + apply edited_show, H.
  - unfold _clear_playlist. destruct confirmed; [apply edited_mutate|apply edited_refl]; exact H.
  - unfold _clone_selected_playlist_entry. destruct sel as [idx|].
    + unfold bind, get, modify, option_lift, raise, ret, state_of. cbv beta iota.
      destruct (live g !! idx); cbn [snd]; [apply edited_mutate|apply edited_refl]; exact H.
    + apply edited_show, H.
  - unfold _move_playlist_up. destruct sel as [idx|].
    + destruct (idx =? 0)%nat; [apply edited_refl, H|].
      unfold bind, get, modify, raise, state_of. cbv beta iota.
      destruct (idx <? length (live g))%nat; cbn [snd];
        [apply edited_mutate|apply edited_refl]; exact H.
    + apply edited_show, H.
  - unfold _move_playlist_down. destruct sel as [idx|].
    + unfold bind, get, modify, ret, state_of. cbv beta iota.
      destruct (Z.of_nat (length (live g)) - 1 <=? Z.of_nat idx); cbn [snd];
        [apply edited_refl|apply edited_mutate]; exact H.
    + apply edited_show, H.
  - unfold _import_playlist_csv. destruct imported; [apply edited_show, H|].
    destruct (negb (bool_decide (live g = [])) && replace);
      [apply edited_rebind|apply edited_mutate]; exact H.
  - unfold _load_playlist_json. destruct loaded; [apply edited_show|apply edited_rebind]; exact H.
  - unfold _generate_sweep_playlist.
    destruct (sweep_entries float_repr fuel spec bw) as [[d|entries]|]; cbn [default].
    + apply edited_show, H.
    + destruct (sweep_replace spec); cbn [default];
        [apply edited_rebind|apply edited_mutate]; exact H.
    + apply edited_refl, H.
Qed.

Lemma edited_heap_ok g g' : heap_ok g -> edited g g' -> heap_ok g'.
Proof.
  intros [Hp Ht] (_ & _ & _ & _ & _ & _ & Ha & Hth & Hpl & Hp' & Hframe).
  split; [exact Hp'|]. intros l Hl.
  assert (Hl0 : tracked g l).
  { unfold tracked in *. rewrite Ha, Hth in Hl. exact Hl. }
  destruct (Ht l Hl0) as [Hne Hsome]. split.
  - destruct Hpl as [Heq|Hnew]; [congruence|].
    intros ->. rewrite Hnew in Hsome. destruct Hsome as [x Hx]. discriminate.
  - rewrite Hframe; assumption.
Qed.

Lemma edited_related g1 g2 g1' :
  heap_ok g1 -> related g1 g2 -> edited g1 g1' -> related g1' g2.
Proof.
  intros [_ Ht] (Hc & He & Hco & Htr & Hr & Hi & Ha & Hth & Hh)
         (Hc' & He' & Hco' & Htr' & Hr' & Hi' & Ha' & Hth' & _ & _ & Hframe).
  unfold related. repeat split; try congruence.
  intros l Hl.
  assert (Hl0 : tracked g1 l).
  { unfold tracked in *. rewrite Ha', Hth' in Hl. exact Hl. }
  destruct (Ht l Hl0) as [Hne Hsome].
  rewrite Hframe by assumption. apply Hh, Hl0.
Qed.

(** One loop iteration is a function of the core fields and of the list
    the worker walks, and leaves the store of list objects alone. *)
Lemma worker_cycle_core dwell_ms w g1 g2 :
  core g1 = core g2 ->
  hop_list g1 w = hop_list g2 w ->
  result_of (worker_cycle dev float_repr dwell_ms w g1)
    = result_of (worker_cycle dev float_repr dwell_ms w g2) /\
  core (state_of (worker_cycle dev float_repr dwell_ms w g1))
    = core (state_of (worker_cycle dev float_repr dwell_ms w g2)).
Proof.
  intros Hcore Hhop.
  destruct g1 as [c1 e1 co1 tr1 run1 p1 h1 i1 a1 th1 d1].
  destruct g2 as [c2 e2 co2 tr2 run2 p2 h2 i2 a2 th2 d2].
  unfold core in Hcore. cbn in Hcore. injection Hcore as -> -> -> -> -> -> -> ->.
  cbv beta iota zeta delta
    [worker_cycle bind get ret raise modify call option_lift wait _apply_bandwidth show
     with_link with_transmitting with_index result_of state_of core hop_list deref
     controller env connected transmitting playlist_running playlist heap
     current_playlist_index active_hop_playlist playlist_thread dialogs fst snd] in *.
  remember (match hop_playlist w with Some l => default [] (h1 !! l) | None => [] end)
    as L eqn:E1.
  rewrite <- Hhop.
  destruct run2, L as [|e0 L]; cbv beta iota zeta; cbn [negb];
    try (split; reflexivity).
  destruct ((e0 :: L) !! i2) as [entry|]; cbv beta iota zeta; [|split; reflexivity].
  destruct c2 as [c|]; cbv beta iota zeta; [|split; reflexivity].
  destruct (set_frequency dev _ _) as [[[]|] [c' e']]; cbv beta iota zeta; cbn [negb ctl world];
    try (split; reflexivity).
  destruct (set_amplitude dev _ _ _) as [[[]|] [c'' e'']]; cbv beta iota zeta;
    cbn [negb ctl world]; try (split; reflexivity).
  destruct (bool_decide _); cbv beta iota zeta.
  - destruct tr2, (rf_enable_failed w); cbv beta iota zeta; cbn [negb andb];
      try (rewrite <- ?E1, <- ?Hhop; split; reflexivity).
    destruct (enable_output dev _) as [[[]|] [c3 e3]]; cbv beta iota zeta;
      cbn [negb ctl world]; rewrite <- ?E1, <- ?Hhop; split; reflexivity.
  - destruct (bandwidth_lookup BANDWIDTHS _); cbv beta iota zeta; [|split; reflexivity].
    destruct (set_modulation_fm dev _ _) as [[b|] [c3 e3]]; cbv beta iota zeta;
      cbn [ctl world]; [|split; reflexivity].
    destruct tr2, (rf_enable_failed w); cbv beta iota zeta; cbn [negb andb];
      try (rewrite <- ?E1, <- ?Hhop; split; reflexivity).
    destruct (enable_output dev _) as [[[]|] [c4 e4]]; cbv beta iota zeta;
      cbn [negb ctl world]; rewrite <- ?E1, <- ?Hhop; split; reflexivity.
Qed.

(** One loop iteration leaves the store, the playlist attribute, the
    snapshot attribute and the thread handle alone, and the worker keeps
    walking the same list object. *)
Lemma worker_cycle_frame dwell_ms w g :
  let r := worker_cycle dev float_repr dwell_ms w g in
  heap (state_of r) = heap g /\
  playlist (state_of r) = playlist g /\
  active_hop_playlist (state_of r) = active_hop_playlist g /\
  playlist_thread (state_of r) = playlist_thread g /\
  forall w', result_of r = Return (Some w') -> hop_playlist w' = hop_playlist w.
Proof.
  destruct g as [c2 e2 co2 tr2 run2 p2 h2 i2 a2 th2 d2].
  cbv beta iota zeta delta
    [worker_cycle bind get ret raise modify call option_lift wait _apply_bandwidth show
     with_link with_transmitting with_index result_of state_of hop_list deref
     controller env connected transmitting playlist_running playlist heap
     current_playlist_index active_hop_playlist playlist_thread dialogs fst snd].
  set (L := match hop_playlist w with Some l => default [] (h2 !! l) | None => [] end).
  clearbody L.
  assert (Hdone : forall (r : outcome (option Worker)),
            (forall w', r = Return (Some w') -> hop_playlist w' = hop_playlist w) ->
            h2 = h2 /\ p2 = p2 /\ a2 = a2 /\ th2 = th2 /\
            forall w', r = Return (Some w') -> hop_playlist w' = hop_playlist w)
    by (intros r Hr; repeat split; exact Hr).
  destruct run2, L as [|e0 L]; cbv beta iota zeta; cbn [negb];
    try (apply Hdone; intros w' [=]).
  destruct ((e0 :: L) !! i2) as [entry|]; cbv beta iota zeta;
    [|apply Hdone; intros w' [=]].
  destruct c2 as [c|]; cbv beta iota zeta; [|apply Hdone; intros w' [=]].
  destruct (set_frequency dev _ _) as [[[]|] [c' e']]; cbv beta iota zeta; cbn [negb ctl world];
    try (apply Hdone; intros w' [=]).
  destruct (set_amplitude dev _ _ _) as [[[]|] [c'' e'']]; cbv beta iota zeta;
    cbn [negb ctl world]; try (apply Hdone; intros w' [=]).
  destruct (bool_decide _); cbv beta iota zeta.
  - destruct tr2, (rf_enable_failed w); cbv beta iota zeta; cbn [negb andb];
      try (apply Hdone; intros w' [= <-]; reflexivity).
    destruct (enable_output dev _) as [[[]|] [c3 e3]]; cbv beta iota zeta;
      cbn [negb ctl world]; apply Hdone; intros w' [=]; subst; reflexivity.
  - destruct (bandwidth_lookup BANDWIDTHS _); cbv beta iota zeta;
      [|apply Hdone; intros w' [=]].
    destruct (set_modulation_fm dev _ _) as [[b|] [c3 e3]]; cbv beta iota zeta;
      cbn [ctl world]; [|apply Hdone; intros w' [=]].
    destruct tr2, (rf_enable_failed w); cbv beta iota zeta; cbn [negb andb];
      try (apply Hdone; intros w' [= <-]; reflexivity).
    destruct (enable_output dev _) as [[[]|] [c4 e4]]; cbv beta iota zeta;
      cbn [negb ctl world]; apply Hdone; intros w' [=]; subst; reflexivity.
Qed.

Lemma worker_step_frame g :
  heap (worker_step dev float_repr g) = heap g /\
  playlist (worker_step dev float_repr g) = playlist g /\
  forall l, tracked (worker_step dev float_repr g) l -> tracked g l.
Proof.
  unfold worker_step. destruct (playlist_thread g) as [[dwell_ms|dwell_ms w]|] eqn:Hth.
  - destruct (negb (connected g)).
    + repeat split. intros l [Ha|(d & w & [=] & _)]. left. exact Ha.
    + repeat split. intros l [Ha|(d & w & Hw & Hl)]; [left; exact Ha|].
      cbn in Hw. injection Hw as <- <-. cbn in Hl. left.
      destruct (active_hop_playlist g) as [l0|]; [|discriminate].
      destruct (bool_decide (deref g l0 = [])); congruence.
  - pose proof (worker_cycle_frame dwell_ms w g) as Hframe. cbv zeta in Hframe.
    destruct (worker_cycle dev float_repr dwell_ms w g) as [r g'].
    unfold state_of, result_of in Hframe. cbn [fst snd] in Hframe.
    destruct Hframe as (Hh & Hp & Ha & _ & Hw).
    destruct r as [[w'|]|].
    + repeat split; [exact Hh|exact Hp|].
      intros l [Hl|(d & w0 & Hw0 & Hl)].
      * left. cbn in Hl. congruence.
      * cbn in Hw0. injection Hw0 as <- <-. right. exists dwell_ms, w.
        split; [exact Hth|]. rewrite <- (Hw w' eq_refl). exact Hl.
    + repeat split; [exact Hh|exact Hp|].
      intros l [[=]|(d & w0 & [=] & _)].
    + repeat split; [exact Hh|exact Hp|].
      intros l [[=]|(d & w0 & [=] & _)].
  - repeat split. auto.
Qed.

Lemma worker_step_heap_ok g : heap_ok g -> heap_ok (worker_step dev float_repr g).
Proof.
  intros [Hp Ht]. destruct (worker_step_frame g) as (Hh & Hpl & Htr).
  split; rewrite Hh, Hpl; [exact Hp|].
  intros l Hl. apply Ht, Htr, Hl.
Qed.

Lemma related_core g1 g2 : related g1 g2 -> core g1 = core g2.
Proof.
  intros (Hc & He & Hco & Htr & Hr & Hi & Ha & Hth & _).
  unfold core. congruence.
Qed.

Lemma worker_step_core g1 g2 :
  related g1 g2 -> core (worker_step dev float_repr g1) = core (worker_step dev float_repr g2).
Proof.
  intros Hrel. pose proof (related_core g1 g2 Hrel) as Hcore.
  destruct Hrel as (Hc & He & Hco & Htr & Hr & Hi & Ha & Hth & Hh).
  unfold worker_step. rewrite <- Hth.
  destruct (playlist_thread g1) as [[dwell_ms|dwell_ms w]|] eqn:Hth1.
  - rewrite <- Hco. destruct (negb (connected g1)).
    + unfold core in *. cbn. congruence.
    + rewrite <- Ha.
      assert (Hhop : match active_hop_playlist g1 with
                     | Some l => if bool_decide (deref g1 l = []) then None else Some l
                     | None => None
                     end
                     = match active_hop_playlist g1 with
                       | Some l => if bool_decide (deref g2 l = []) then None else Some l
                       | None => None
                       end).
      { destruct (active_hop_playlist g1) as [l|] eqn:Hact; [|reflexivity].
        unfold deref. rewrite (Hh l) by (left; exact Hact). reflexivity. }
      rewrite <- Hhop. unfold core in *. cbn. congruence.
  - assert (Hhop : hop_list g1 w = hop_list g2 w).
    { unfold hop_list, deref. destruct (hop_playlist w) as [l|] eqn:Hl; [|reflexivity].
      rewrite (Hh l); [reflexivity|]. right. exists dwell_ms, w. split; assumption. }
    destruct (worker_cycle_core dwell_ms w g1 g2 Hcore Hhop) as [Hres Hst].
    destruct (worker_cycle dev float_repr dwell_ms w g1) as [r1 g1'].
    destruct (worker_cycle dev float_repr dwell_ms w g2) as [r2 g2'].
    unfold result_of, state_of in Hres, Hst. cbn [fst snd] in Hres, Hst. subst r2.
    unfold core in *. cbn in Hst. injection Hst as Hc' He' Hco' Htr' Hr' Hi' Ha' Hth'.
    destruct r1 as [[w'|]|]; cbn; congruence.
  - exact Hcore.
Qed.

Lemma worker_step_related g1 g2 :
  related g1 g2 -> related (worker_step dev float_repr g1) (worker_step dev float_repr g2).
Proof.
  intros Hrel. pose proof (worker_step_core g1 g2 Hrel) as Hcore.
  unfold core in Hcore. injection Hcore as Hc He Hco Htr Hr Hi Ha Hth.
  unfold related. repeat split; try assumption.
  intros l Hl.
  destruct (worker_step_frame g1) as (Hh1 & _ & Htr1).
  destruct (worker_step_frame g2) as (Hh2 & _ & _).
  rewrite Hh1, Hh2. destruct Hrel as (_ & _ & _ & _ & _ & _ & _ & _ & Hh).
  apply Hh, Htr1, Hl.
Qed.

Lemma related_refl g : related g g.
Proof. unfold related. repeat split. Qed.

Lemma related_view g1 g2 : related g1 g2 -> view g1 = view g2.
Proof.
  intros (Hc & He & Hco & Htr & Hr & Hi & Ha & Hth & Hh).
  unfold view. rewrite Hc, He, Hco, Htr, Hr, Hi.
  assert (Hsnap : option_map (deref g1) (active_hop_playlist g1)
                  = option_map (deref g2) (active_hop_playlist g2)).
  { rewrite <- Ha. destruct (active_hop_playlist g1) as [l|] eqn:Hact; [|reflexivity].
    cbn. unfold deref. rewrite (Hh l) by (left; exact Hact). reflexivity. }
  assert (Hhop : match playlist_thread g1 with
                 | Some (Looping _ w) => Some (hop_list g1 w)
                 | _ => None
                 end
                 = match playlist_thread g2 with
                   | Some (Looping _ w) => Some (hop_list g2 w)
                   | _ => None
                   end).
  { rewrite <- Hth. destruct (playlist_thread g1) as [[d|d w]|] eqn:Hthr; try reflexivity.
    f_equal. unfold hop_list, deref. destruct (hop_playlist w) as [l|] eqn:Hl; [|reflexivity].
    rewrite (Hh l); [reflexivity|]. right. exists d, w. split; assumption. }
  rewrite Hsnap, Hhop, Hth. reflexivity.
Qed.

Lemma run_related evs :
  forall g1 g2,
    heap_ok g1 -> related g1 g2 ->
    related (run dev float_repr evs g1) (run dev float_repr (worker_steps evs) g2).
Proof.
  induction evs as [|ev evs IH]; intros g1 g2 Hok Hrel; [exact Hrel|].
  destruct ev as [e|]; cbn [worker_steps run fold_left step].
  - apply IH.
    + apply (edited_heap_ok g1); [exact Hok|]. apply edited_apply_edit, (proj1 Hok).
    + apply (edited_related g1); [exact Hok|exact Hrel|].
      apply edited_apply_edit, (proj1 Hok).
  - apply IH.
    + apply worker_step_heap_ok, Hok.
    + apply worker_step_related, Hrel.
Qed.

Lemma start_hopping_heap_ok dwell_ms g :
  heap_ok g -> heap_ok (state_of (_start_hopping dwell_ms g)).
Proof.
  intros [Hp Ht]. unfold _start_hopping, bind, get, modify, state_of. cbv beta iota.
  destruct (negb (connected g)); [split; assumption|].
  destruct (bool_decide (live g = [])); [split; assumption|].
  destruct (playlist_running g); [split; assumption|].
  cbn.
  assert (Hfresh : heap g !! fresh (dom (heap g)) = None).
  { apply not_elem_of_dom. apply is_fresh. }
  assert (Hne : fresh (dom (heap g)) <> playlist g).
  { intros Heq. rewrite Heq in Hfresh. rewrite Hfresh in Hp. destruct Hp as [x Hx].
    discriminate. }
  split; cbn.
  - rewrite lookup_insert_ne by exact Hne. exact Hp.
  - intros l [Hl|(d & w & [=] & _)]. cbn in Hl. injection Hl as <-.
    split; [exact Hne|]. rewrite lookup_insert_eq. eauto.
Qed.

(** A session that starts holds a copy of the live playlist in an object
    of its own. *)
Lemma start_hopping_snapshot dwell_ms g :
  heap_ok g ->
  connected g = true -> live g <> [] -> playlist_running g = false ->
  let started := state_of (_start_hopping dwell_ms g) in
  playlist_running started = true /\
  current_playlist_index started = 0%nat /\
  playlist_thread started = Some (Started dwell_ms) /\
  view_snapshot (view started) = Some (live g) /\
  live started = live g /\
  active_hop_playlist started <> Some (playlist started).
Proof.
  intros [Hp _] Hco Hlive Hrun.
  unfold _start_hopping, bind, get, modify, state_of. cbv beta iota.
  rewrite Hco, Hrun. cbn [negb].
  rewrite bool_decide_eq_false_2 by exact Hlive. cbn.
  assert (Hfresh : heap g !! fresh (dom (heap g)) = None).
  { apply not_elem_of_dom. apply is_fresh. }
  assert (Hne : fresh (dom (heap g)) <> playlist g).
  { intros Heq. rewrite Heq in Hfresh. rewrite Hfresh in Hp. destruct Hp as [x Hx].
    discriminate. }
  repeat split.
  - unfold deref. cbn. rewrite lookup_insert_eq. reflexivity.
  - unfold live, deref. cbn. rewrite lookup_insert_ne by exact Hne. reflexivity.
  - intros [=]. contradiction.
Qed.

(** Snapshot isolation in the tkinter GUI.  From the start of a session
    on, whatever playlist edits the GUI thread makes between the steps of
    the worker, the worker writes the same commands, advances the same
    index and walks the same list as in the run without the edits. *)
Theorem tk_snapshot_isolation (dwell_ms : Z) (evs : list event) (g : GUI) :
  heap_ok g ->
  let started := state_of (_start_hopping dwell_ms g) in
  view (run dev float_repr evs started)
    = view (run dev float_repr (worker_steps evs) started).
Proof.
  intros Hok started. apply related_view, run_related.
  - apply start_hopping_heap_ok, Hok.
  - apply related_refl.
Qed.

End TkSnapshot.

Lemma tk_snapshot_isolation_witness :
  let dev := simple_device smy02_idn (Some "0") in
  let g := Tk.connected_to dev three_entries in
  let started := state_of (Tk._start_hopping 2000 g) in
  let evs := [Tk.WorkerStep; Tk.WorkerStep; Tk.Edit (Tk.RemoveFromPlaylist (Some 1%nat));
              Tk.WorkerStep; Tk.Edit (Tk.ClearPlaylist true); Tk.WorkerStep] in
  Tk.heap_ok g /\
  Tk.view (Tk.run dev ratio_repr evs started)
    = Tk.view (Tk.run dev ratio_repr (Tk.worker_steps evs) started).
Proof.
  intros dev g started evs.
  assert (Hok : Tk.heap_ok g).
  { split; [vm_compute; eauto|].
    intros l [Hl|(d & w & Hth & _)]; [vm_compute in Hl|vm_compute in Hth]; discriminate. }
  split; [exact Hok|].
  exact (tk_snapshot_isolation dev ratio_repr 2000 evs g Hok).
Defined.

(** The same interleaving, evaluated: the worker applies 144, 145 and
    146 MHz although the second entry is removed after the first cycle and
    the playlist is cleared after the second. *)
Example tk_worker_ignores_edits :
  let dev := simple_device smy02_idn (Some "0") in
  let started := state_of (Tk._start_hopping 2000 (Tk.connected_to dev three_entries)) in
  let evs := [Tk.WorkerStep; Tk.WorkerStep; Tk.Edit (Tk.RemoveFromPlaylist (Some 1%nat));
              Tk.WorkerStep; Tk.Edit (Tk.ClearPlaylist true); Tk.WorkerStep] in
  rf_writes (wire (Tk.env (Tk.run dev ratio_repr evs started)))
    = ["RF 144000000"; "RF 145000000"; "RF 146000000"] /\
  Tk.live (Tk.run dev ratio_repr evs started) = [].
Proof.
  vm_compute. split; reflexivity.
Qed.

(** ** Hopping in the tkinter GUI: a failed enable is not retried *)

Lemma extends_refl h : extends_without_enable h h.
Proof. exists []. split; [symmetry; apply app_nil_r|constructor]. Qed.

Lemma extends_trans h1 h2 h3 :
  extends_without_enable h1 h2 -> extends_without_enable h2 h3 ->
  extends_without_enable h1 h3.
Proof.
  intros (e1 & -> & H1) (e2 & -> & H2). exists (e1 ++ e2).
  split; [symmetry; apply app_assoc|]. apply Forall_app. split; assumption.
Qed.

Lemma extends_snoc h e : no_enable e -> extends_without_enable h (h ++ [e]).
Proof. intros He. exists [e]. split; [reflexivity|]. constructor; [exact He|constructor]. Qed.

Lemma writes_of_app h1 h2 : writes_of (h1 ++ h2) = writes_of h1 ++ writes_of h2.
Proof.
  induction h1 as [|[c|c] h1 IH]; cbn [app writes_of]; [reflexivity| |exact IH].
  rewrite IH. reflexivity.
Qed.

Lemma times_written_extends cmd h h' :
  is_enable_command cmd = true ->
  extends_without_enable h h' ->
  times_written cmd h' = times_written cmd h.
Proof.
  intros Hcmd (evs & -> & Hevs). unfold times_written.
  rewrite writes_of_app, filter_app, length_app.
  assert (Hnil : filter (fun c => c = cmd) (writes_of evs) = []).
  { induction Hevs as [|e evs He _ IH]; [reflexivity|].
    destruct e as [c|c]; cbn [writes_of]; [|exact IH].
    rewrite filter_cons_False; [exact IH|].
    intros ->. unfold no_enable in He. congruence. }
  rewrite Hnil. cbn. lia.
Qed.

Ltac close_extends :=
  repeat first
    [ apply extends_refl
    | eapply extends_trans; [|apply extends_snoc; first [exact I | reflexivity]] ].

Section NoEnable.

Variable dev : Device.
Variable float_repr : Q -> string.

Lemma set_frequency_no_enable frequency s :
  extends_without_enable (wire (world s)) (wire (world (state_of (set_frequency dev frequency s)))).
Proof.
  destruct s as [c w]. unfold set_frequency. unfold_prog.
  destruct (instrument c) as [i|] eqn:Hi; [|apply extends_refl].
  exec Hi. destruct (dev_write dev (wire w) _); exec Hi.
  - destruct (is_smy02_of c); exec Hi.
    + close_extends.
    + destruct (esr_is_zero _); exec Hi; close_extends.
  - close_extends.
Qed.

Lemma set_amplitude_no_enable amplitude s :
  extends_without_enable (wire (world s))
    (wire (world (state_of (set_amplitude dev float_repr amplitude s)))).
Proof.
  destruct s as [c w]. unfold set_amplitude. unfold_prog.
  destruct (instrument c) as [i|] eqn:Hi; [|apply extends_refl].
  exec Hi. destruct (dev_write dev (wire w) _); exec Hi.
  - destruct (is_smy02_of c); exec Hi.
    + close_extends.
    + destruct (esr_is_zero _); exec Hi; close_extends.
  - close_extends.
Qed.

Lemma deviation_loop_no_enable c i cmds :
  instrument c = Some i ->
  Forall (fun cmd => is_enable_command cmd = false) cmds ->
  forall w, exists b w',
    deviation_loop dev cmds {| ctl := c; world := w |} = (Return b, {| ctl := c; world := w' |})
    /\ extends_without_enable (wire w) (wire w').
Proof.
  intros Hi Hcmds. induction Hcmds as [|cmd rest Hcmd _ IH]; intros w.
  - exists false, w. split; [reflexivity|apply extends_refl].
  - cbn [deviation_loop]. exec Hi.
    assert (Hstep : forall w1, extends_without_enable (wire w) (wire w1) ->
              exists b w', deviation_loop dev rest {| ctl := c; world := w1 |}
                           = (Return b, {| ctl := c; world := w' |})
                           /\ extends_without_enable (wire w) (wire w')).
    { intros w1 H1. destruct (IH w1) as (b & w' & Hrun & Hext).
      exists b, w'. split; [exact Hrun|]. eapply extends_trans; eassumption. }
    destruct (dev_write dev _ cmd); exec Hi.
    + destruct (esr_none_or_zero _).
      * eexists _, _. split; [reflexivity|]. cbn [wire].
        eapply extends_trans; [|apply extends_snoc; exact I].
        eapply extends_trans; [|apply extends_snoc; exact Hcmd].
        apply extends_snoc. reflexivity.
      * apply Hstep. cbn [wire].
        eapply extends_trans; [|apply extends_snoc; exact I].
        eapply extends_trans; [|apply extends_snoc; exact Hcmd].
        apply extends_snoc. reflexivity.
    + apply Hstep. cbn [wire].
      eapply extends_trans; [|apply extends_snoc; exact Hcmd].
      apply extends_snoc. reflexivity.
Qed.

Lemma deviation_cmds_no_enable deviation :
  Forall (fun cmd => is_enable_command cmd = false) (deviation_cmds deviation).
Proof. unfold deviation_cmds. repeat constructor. Qed.

Lemma set_modulation_fm_no_enable deviation s :
  extends_without_enable (wire (world s))
    (wire (world (state_of (set_modulation_fm dev deviation s)))).
Proof.
  destruct s as [c w]. unfold set_modulation_fm. unfold_prog.
  destruct (instrument c) as [i|] eqn:Hi; [|apply extends_refl].
  exec Hi. destruct (is_smy02_of c); exec Hi.
  - destruct (_fm_initialized c); exec Hi;
      [destruct (bool_decide (_modulation_mode c = Some FM)); exec Hi|];
      repeat (match goal with
              | |- context [dev_write dev ?h ?cmd] => destruct (dev_write dev h cmd)
              end; exec Hi);
      close_extends.
  - destruct (dev_write dev _ "FM:INT 1.000E+3"); exec Hi; [|close_extends].
    destruct (dev_write dev _ "AF 1000"); exec Hi; [|close_extends].
    match goal with
    | |- context [deviation_loop dev ?cmds {| ctl := c; world := ?w0 |}] =>
        destruct (deviation_loop_no_enable c i cmds Hi (deviation_cmds_no_enable deviation) w0)
          as (b & w' & Hrun & Hext)
    end.
    rewrite Hrun. exec Hi. cbn [wire] in Hext.
    assert (Hpre : extends_without_enable (wire w) (wire w')).
    { eapply extends_trans; [|exact Hext]. close_extends. }
    destruct (dev_write dev (wire w') "FM:ON"); exec Hi;
      (eapply extends_trans; [exact Hpre|apply extends_snoc; reflexivity]).
Qed.

End NoEnable.

(** Calls that return whatever the device does. *)

Lemma try_except_returns {S A} (body handler : Prog S A) :
  returns handler -> returns (try_except body handler).
Proof.
  intros Hh s. unfold try_except. destruct (body s) as [[a|] s']; eauto.
Qed.

Lemma ret_returns {S A} (a : A) : returns (S := S) (ret a).
Proof. intros s. eexists _, _. reflexivity. Qed.

Lemma bind_returns {S A B} (m : Prog S A) (k : A -> Prog S B) :
  returns m -> (forall a, returns (k a)) -> returns (bind m k).
Proof.
  intros Hm Hk s. unfold bind. destruct (Hm s) as (a & s' & ->). apply Hk.
Qed.

(** The shape of the guarded methods: [if not self.instrument: return x],
    then a [try] whose handler returns. *)
Lemma guarded_returns {A} (x y : A) (body : Controller -> M A) :
  returns (let* c := get_ctl in
           match instrument c with
           | None => ret x
           | Some _ => try_except (body c) (ret y)
           end).
Proof.
  intros s. unfold bind, get_ctl. destruct (instrument (ctl s)).
  - apply try_except_returns, ret_returns.
  - apply ret_returns.
Qed.

Section CallsReturn.

Variable dev : Device.
Variable float_repr : Q -> string.

Lemma set_frequency_returns frequency : returns (set_frequency dev frequency).
Proof. apply guarded_returns. Qed.

Lemma set_amplitude_returns amplitude : returns (set_amplitude dev float_repr amplitude).
Proof. apply guarded_returns. Qed.

Lemma set_modulation_fm_returns deviation : returns (set_modulation_fm dev deviation).
Proof. apply guarded_returns. Qed.

Lemma set_modulation_am_returns : returns (set_modulation_am dev).
Proof. apply guarded_returns. Qed.

Lemma enable_output_returns : returns (enable_output dev).
Proof. apply guarded_returns. Qed.

Lemma disable_output_returns : returns (disable_output dev).
Proof. apply guarded_returns. Qed.

End CallsReturn.

Section TkNoRetry.

Import Tk.

Variable dev : Device.
Variable float_repr : Q -> string.

(** No retry in the tkinter GUI.  Once the worker has recorded a failed
    enable ([rf_enable_failed]), an iteration of its loop keeps the record
    and writes no enable command.  It still applies the entry: when
    [set_frequency] and then [set_amplitude] return [True], the iteration
    goes on to [set_modulation_fm] with the deviation of the entry's
    bandwidth if that differs from the bandwidth applied last, waits for
    the dwell time and moves to the next index; the link is left as these
    calls, and no others, leave it, and [transmitting] and the message
    boxes are untouched. *)
Theorem tk_failed_enable_not_retried (dwell_ms : Z) (w : Worker) (g : GUI) :
  rf_enable_failed w = true ->
  let r := worker_cycle dev float_repr dwell_ms w g in
  (forall w', result_of r = Return (Some w') -> rf_enable_failed w' = true) /\
  extends_without_enable (wire (env g)) (wire (env (state_of r))) /\
  (forall cmd, is_enable_command cmd = true ->
     times_written cmd (wire (env (state_of r))) = times_written cmd (wire (env g))) /\
  (forall c entry s1 s2,
     playlist_running g = true ->
     controller g = Some c ->
     hop_list g w !! current_playlist_index g = Some entry ->
     set_frequency dev (hz_of_mhz (frequency entry)) {| ctl := c; world := env g |}
       = (Return true, s1) ->
     set_amplitude dev float_repr (level entry) s1 = (Return true, s2) ->
     Some (bandwidth entry) = last_bw w
     \/ is_Some (bandwidth_lookup BANDWIDTHS (bandwidth entry)) ->
     let s3 := if bool_decide (Some (bandwidth entry) = last_bw w) then s2
               else match bandwidth_lookup BANDWIDTHS (bandwidth entry) with
                    | Some deviation => state_of (set_modulation_fm dev deviation s2)
                    | None => s2
                    end in
     result_of r = Return (Some {| hop_playlist := hop_playlist w;
                                   rf_enable_failed := true;
                                   last_bw := Some (bandwidth entry) |}) /\
     controller (state_of r) = Some (ctl s3) /\
     env (state_of r) = {| wire := wire (world s3);
                           clock_ms := clock_ms (world s3) + dwell_ms |} /\
     current_playlist_index (state_of r)
       = ((current_playlist_index g + 1) mod length (hop_list g w))%nat /\
     transmitting (state_of r) = transmitting g /\
     dialogs (state_of r) = dialogs g).
Proof.
  intros Hfailed r.
  assert (Hcycle : forall c entry s1 s2,
     playlist_running g = true ->
     controller g = Some c ->
     hop_list g w !! current_playlist_index g = Some entry ->
     set_frequency dev (hz_of_mhz (frequency entry)) {| ctl := c; world := env g |}
       = (Return true, s1) ->
     set_amplitude dev float_repr (level entry) s1 = (Return true, s2) ->
     Some (bandwidth entry) = last_bw w
     \/ is_Some (bandwidth_lookup BANDWIDTHS (bandwidth entry)) ->
     let s3 := if bool_decide (Some (bandwidth entry) = last_bw w) then s2
               else match bandwidth_lookup BANDWIDTHS (bandwidth entry) with
                    | Some deviation => state_of (set_modulation_fm dev deviation s2)
                    | None => s2
                    end in
     result_of r = Return (Some {| hop_playlist := hop_playlist w;
                                   rf_enable_failed := true;
                                   last_bw := Some (bandwidth entry) |}) /\
     controller (state_of r) = Some (ctl s3) /\
     env (state_of r) = {| wire := wire (world s3);
                           clock_ms := clock_ms (world s3) + dwell_ms |} /\
     current_playlist_index (state_of r)
       = ((current_playlist_index g + 1) mod length (hop_list g w))%nat /\
     transmitting (state_of r) = transmitting g /\
     dialogs (state_of r) = dialogs g).
  { intros c entry [c1 e1] [c2 e2] Hrun Hc Hentry Hf Hl Hbw. subst r.
    destruct (hop_list g w) as [|e0 L] eqn:HL; [discriminate|].
    unfold worker_cycle, _apply_bandwidth, wait, option_lift, bind, get, ret, raise,
      modify, call.
    rewrite Hrun. cbn [negb]. cbv beta iota zeta. rewrite HL. cbv beta iota zeta.
    rewrite Hentry. cbv beta iota zeta. rewrite Hc, Hf. cbv beta iota zeta. cbn [negb].
    cbn [controller with_link env ctl world]. rewrite Hl. cbv beta iota zeta. cbn [negb].
    rewrite Hfailed. cbn [controller with_link env ctl world].
    destruct (bool_decide (Some (bandwidth entry) = last_bw w)) eqn:Hsame.
    - apply bool_decide_eq_true_1 in Hsame. rewrite <- Hsame.
      cbv beta iota zeta.
      cbn [controller with_link env ctl world transmitting negb andb].
      rewrite andb_false_r. cbv beta iota zeta.
      cbn [result_of state_of fst snd controller with_link with_index env
           current_playlist_index transmitting dialogs ctl world].
      rewrite <- HL. repeat split.
    - destruct Hbw as [Hbw|[dv Hdv]];
        [rewrite Hbw in Hsame; rewrite bool_decide_eq_true_2 in Hsame by reflexivity;
         discriminate Hsame|].
      rewrite Hdv. cbv beta iota zeta.
      cbn [controller with_link env ctl world].
      destruct (set_modulation_fm dev dv {| ctl := c2; world := e2 |}) as [[ok|] [c3 e3]] eqn:Hm.
      + cbv beta iota zeta.
        cbn [controller with_link env ctl world transmitting negb andb].
        rewrite andb_false_r. cbv beta iota zeta.
        cbn [result_of state_of fst snd controller with_link with_index env
             current_playlist_index transmitting dialogs ctl world].
        rewrite <- HL. repeat split.
      + destruct (set_modulation_fm_returns dev dv {| ctl := c2; world := e2 |})
          as (ok & s' & Hret). rewrite Hret in Hm. discriminate Hm. }
  assert (Hmain :
    (forall w', result_of r = Return (Some w') -> rf_enable_failed w' = true) /\
    extends_without_enable (wire (env g)) (wire (env (state_of r)))).
  { subst r. destruct g as [c2 e2 co2 tr2 run2 p2 h2 i2 a2 th2 d2].
    cbv beta iota zeta delta
      [worker_cycle bind get ret raise modify call option_lift wait _apply_bandwidth show
       with_link with_transmitting with_index result_of state_of hop_list deref
       controller env connected transmitting playlist_running playlist heap
       current_playlist_index active_hop_playlist playlist_thread dialogs fst snd].
    rewrite Hfailed.
    set (L := match hop_playlist w with Some l => default [] (h2 !! l) | None => [] end).
    clearbody L.
    assert (Hstop : forall e, extends_without_enable (wire e2) (wire e) ->
              (forall w', Return None = Return (Some w') -> rf_enable_failed w' = true) /\
              extends_without_enable (wire e2) (wire e))
      by (intros e He; split; [intros w' [=]|exact He]).
    assert (Hfail : forall e, extends_without_enable (wire e2) (wire e) ->
              (forall w', @Raise (option Worker) = Return (Some w') ->
                          rf_enable_failed w' = true) /\
              extends_without_enable (wire e2) (wire e))
      by (intros e He; split; [intros w' [=]|exact He]).
    destruct run2, L as [|e0 L]; cbv beta iota zeta; cbn [negb];
      try (apply Hstop, extends_refl).
    destruct ((e0 :: L) !! i2) as [entry|]; cbv beta iota zeta;
      [|apply Hfail, extends_refl].
    destruct c2 as [c|]; cbv beta iota zeta; [|apply Hfail, extends_refl].
    pose proof (set_frequency_no_enable dev (hz_of_mhz (frequency entry))
                  {| ctl := c; world := e2 |}) as Hf.
    destruct (set_frequency dev _ _) as [[[]|] [c' e']];
      unfold state_of in Hf; cbn [snd world] in Hf;
      cbv beta iota zeta; cbn [negb ctl world];
      [|apply Hstop, Hf|apply Hfail, Hf].
    pose proof (set_amplitude_no_enable dev float_repr (level entry)
                  {| ctl := c'; world := e' |}) as Hl.
    destruct (set_amplitude dev _ _ _) as [[[]|] [c'' e'']];
      unfold state_of in Hl; cbn [snd world] in Hl;
      cbv beta iota zeta; cbn [negb ctl world];
      [|apply Hstop; eapply extends_trans; eassumption
       |apply Hfail; eapply extends_trans; eassumption].
    assert (Hfl : extends_without_enable (wire e2) (wire e''))
      by (eapply extends_trans; eassumption).
    destruct (bool_decide _); cbv beta iota zeta.
    - destruct tr2; cbv beta iota zeta; cbn [negb andb];
        (split; [intros w' [= <-]; reflexivity|exact Hfl]).
    - destruct (bandwidth_lookup BANDWIDTHS _) as [dv|]; cbv beta iota zeta;
        [|apply Hfail, Hfl].
      pose proof (set_modulation_fm_no_enable dev dv {| ctl := c''; world := e'' |}) as Hm.
      destruct (set_modulation_fm dev _ _) as [[b|] [c3 e3]];
        unfold state_of in Hm; cbn [snd world] in Hm;
        cbv beta iota zeta; cbn [ctl world];
        [|apply Hfail; eapply extends_trans; eassumption].
      destruct tr2; cbv beta iota zeta; cbn [negb andb];
        (split; [intros w' [= <-]; reflexivity|eapply extends_trans; eassumption]). }
  destruct Hmain as [Hflag Hext]. split; [exact Hflag|]. split; [exact Hext|].
  split; [|exact Hcycle].
  intros cmd Hcmd. apply times_written_extends; assumption.
Qed.

End TkNoRetry.

Lemma tk_failed_enable_not_retried_witness :
  let dev := simple_device smy02_idn (Some "4") in
  let started := state_of (Tk._start_hopping 2000 (Tk.connected_to dev three_entries)) in
  let g := Tk.worker_step dev ratio_repr (Tk.worker_step dev ratio_repr started) in
  let w := {| Tk.hop_playlist := Some 2%positive; Tk.rf_enable_failed := true;
              Tk.last_bw := Some "12.5 kHz" |} in
  let r := Tk.worker_cycle dev ratio_repr 2000 w g in
  Tk.playlist_thread g = Some (Tk.Looping 2000 w) /\
  times_written "OUTP ON" (wire (Tk.env (state_of r)))
    = times_written "OUTP ON" (wire (Tk.env g)) /\
  result_of r = Return (Some w) /\
  Tk.current_playlist_index (state_of r) = 2%nat /\
  writes_of (wire (Tk.env (state_of r)))
    = writes_of (wire (Tk.env g)) ++ ["RF 145000000"; "LEVEL -20/1"].
Proof.
  intros dev started g w r. subst r. split; [vm_compute; reflexivity|].
  destruct (tk_failed_enable_not_retried dev ratio_repr 2000 w g eq_refl)
    as (_ & _ & Htimes & Happly).
  split; [apply Htimes; reflexivity|].
  assert (Hf : set_frequency dev 145000000
                 {| ctl := default new_controller (Tk.controller g); world := Tk.env g |}
               = (Return true,
                  state_of (set_frequency dev 145000000
                              {| ctl := default new_controller (Tk.controller g); world := Tk.env g |})))
    by (vm_compute; reflexivity).
  assert (Hl : set_amplitude dev ratio_repr (-20)
                 (state_of (set_frequency dev 145000000
                              {| ctl := default new_controller (Tk.controller g); world := Tk.env g |}))
               = (Return true,
                  state_of (set_amplitude dev ratio_repr (-20)
                    (state_of (set_frequency dev 145000000
                       {| ctl := default new_controller (Tk.controller g); world := Tk.env g |})))))
    by (vm_compute; reflexivity).
  assert (Hc : Tk.controller g = Some (default new_controller (Tk.controller g)))
    by (vm_compute; reflexivity).
  assert (He : Tk.hop_list g w !! Tk.current_playlist_index g
               = Some {| name := "Entry"; frequency := 145; level := -20;
                         bandwidth := "12.5 kHz" |})
    by (vm_compute; reflexivity).
  destruct (Happly _ _ _ _ eq_refl Hc He Hf Hl (or_introl eq_refl))
    as (Hres & _ & Henv & Hidx & _).
  split; [exact Hres|]. split; [rewrite Hidx; vm_compute; reflexivity|].
  rewrite Henv. vm_compute. reflexivity.
Defined.

(** What [disconnect] does, case by case. *)
Lemma disconnect_run (dev : Device) (s : St) :
  disconnect dev s
  = match instrument (ctl s) with
    | None => (Return tt, s)
    | Some _ =>
        if dev_close dev (wire (world s))
        then (Return tt,
              {| ctl := {| instrument := None; idn := idn (ctl s); model := model (ctl s);
                           _fm_initialized := false; _modulation_mode := None |};
                 world := world s |})
        else (Raise, s)
    end.
Proof.
  destruct s as [c w]. unfold disconnect, instr_close. unfold_prog.
  destruct (instrument c) as [i|] eqn:Hi; [|reflexivity].
  cbn [ctl world]. rewrite Hi. destruct (dev_close dev (wire w)); reflexivity.
Qed.

(** * Further properties of the controller *)

(** ** No public call raises *)

Section Returns.

Variable dev : Device.
Variable float_repr : Q -> string.
Variable py_float : string -> option Q.

Lemma try_commands_loop_returns commands : returns (try_commands_loop dev commands).
Proof.
  induction commands as [|cmd rest IH]; [apply ret_returns|].
  cbn [try_commands_loop]. apply bind_returns.
  - apply try_except_returns, ret_returns.
  - intros [b|]; [apply ret_returns|exact IH].
Qed.

Lemma _try_commands_with_check_returns commands :
  returns (_try_commands_with_check dev commands).
Proof.
  intros s. unfold _try_commands_with_check, bind at 1, get_ctl.
  destruct (instrument (ctl s)); [|apply ret_returns].
  apply bind_returns; [apply try_commands_loop_returns|].
  intros [b|]; apply ret_returns.
Qed.

Lemma _query_first_returns queries : returns (_query_first dev queries).
Proof.
  induction queries as [|q rest IH]; [apply ret_returns|].
  cbn [_query_first]. apply bind_returns.
  - apply try_except_returns, ret_returns.
  - intros [b|]; [apply ret_returns|exact IH].
Qed.

Lemma fallback_float_returns queries : returns (fallback_float dev py_float queries).
Proof.
  induction queries as [|q rest IH]; [apply ret_returns|].
  cbn [fallback_float]. apply bind_returns.
  - apply try_except_returns, ret_returns.
  - intros [b|]; [apply ret_returns|exact IH].
Qed.

(** A query leaves the controller record alone. *)
Lemma _query_first_run c queries :
  forall w, exists answer w',
    _query_first dev queries {| ctl := c; world := w |}
    = (Return answer, {| ctl := c; world := w' |}).
Proof.
  induction queries as [|q rest IH]; intros w.
  - eexists _, _. reflexivity.
  - cbn [_query_first]. unfold_prog.
    destruct (instrument c) as [i|]; [|apply IH].
    destruct (dev_query dev (wire w) (timeout i) q); [|apply IH].
    eexists _, _. reflexivity.
Qed.

Lemma read_state_run c fields :
  forall state w, exists state' w',
    read_state dev fields state {| ctl := c; world := w |}
    = (Return state', {| ctl := c; world := w' |}).
Proof.
  induction fields as [|[key queries] rest IH]; intros state w.
  - eexists _, _. reflexivity.
  - cbn [read_state]. unfold try_except, bind.
    destruct (_query_first_run c queries w) as (answer & w1 & ->).
    destruct (IH (state_set key (or_na answer) state) w1) as (state' & w2 & ->).
    eexists _, _. reflexivity.
Qed.

(** [get_device_state] returns, and the controller record, its timeout
    included, is afterwards what it was. *)
Lemma get_device_state_run s :
  exists state w',
    get_device_state dev s = (Return state, {| ctl := ctl s; world := w' |}).
Proof.
  destruct s as [c w]. unfold get_device_state. unfold_prog.
  destruct (instrument c) as [i|] eqn:Hi; [|eexists _, _; reflexivity].
  repeat (rewrite Hi || (progress unfold_prog)).
  destruct (read_state_run (set_instrument (Some {| timeout := 1000 |}) c)
              state_queries no_state w) as (state & w' & ->).
  cbn. eexists _, _. f_equal. f_equal.
  destruct c as [ins idn0 model0 fi mm], i as [t]. cbn in *. subst ins. reflexivity.
Qed.

(** Of the public calls of the controller only [disconnect] can raise.
    Opening the link, writing, querying and closing may each raise on the
    device; [connect], [reset], the setters (the frequency and the deviation
    given as integers, as both GUIs give them, so that [int()] is the
    identity on them), the output and modulation switches, the LFO
    calls, [get_esr], [clear_status] and the read-backs turn that into a
    return value on any device and from any state.  [disconnect] calls
    [close()] outside any [try]: it raises exactly when the controller holds
    an instrument and [close()] raises, and the controller is then left as
    it was, instrument and modulation state included; otherwise it returns
    with the instrument dropped and the modulation state forgotten. *)
Theorem controller_calls_return :
  returns (connect dev) /\
  returns (reset dev) /\
  (forall frequency, returns (set_frequency dev frequency)) /\
  (forall amplitude, returns (set_amplitude dev float_repr amplitude)) /\
  returns (enable_output dev) /\
  returns (disable_output dev) /\
  (forall deviation, returns (set_modulation_fm dev deviation)) /\
  returns (set_modulation_am dev) /\
  (forall frequency, returns (set_lfo_frequency dev float_repr frequency)) /\
  returns (enable_lfo dev) /\
  returns (disable_lfo dev) /\
  returns (get_esr dev) /\
  returns (clear_status dev) /\
  returns (get_device_state dev) /\
  returns (get_frequency dev py_float) /\
  returns (get_amplitude dev py_float) /\
  (forall s,
     disconnect dev s
     = match instrument (ctl s) with
       | None => (Return tt, s)
       | Some _ =>
           if dev_close dev (wire (world s))
           then (Return tt,
                 {| ctl := {| instrument := None; idn := idn (ctl s); model := model (ctl s);
                              _fm_initialized := false; _modulation_mode := None |};
                    world := world s |})
           else (Raise, s)
       end).
Proof.
  repeat match goal with |- _ /\ _ => split end;
    try (lazymatch goal with |- forall _ : Z, _ => intro | |- forall _ : Q, _ => intro end);
    try apply guarded_returns;
    try apply _try_commands_with_check_returns.
  - apply try_except_returns, ret_returns.
  - apply try_except_returns, ret_returns.
  - intros s. destruct (get_device_state_run s) as (state & w' & ->). eauto.
  - apply bind_returns; [apply try_except_returns, ret_returns|].
    intros [v|]; [apply ret_returns|apply fallback_float_returns].
  - apply bind_returns; [apply try_except_returns, ret_returns|].
    intros [v|]; [apply ret_returns|apply fallback_float_returns].
  - intros s. apply disconnect_run.
Qed.

End Returns.

(** ** Short timeouts are temporary *)

(** Under a timeout [t] only the answers of the device under [t] count. *)
Lemma _query_first_timeout (dev1 dev2 : Device) (t : Z) (c : Controller) queries :
  (forall h q, dev_query dev1 h t q = dev_query dev2 h t q) ->
  instrument c = Some {| timeout := t |} ->
  forall w,
    _query_first dev1 queries {| ctl := c; world := w |}
    = _query_first dev2 queries {| ctl := c; world := w |}.
Proof.
  intros Hq Hi. induction queries as [|q rest IH]; intros w; [reflexivity|].
  cbn [_query_first]. unfold_prog. rewrite Hi. cbn [timeout]. rewrite Hq.
  destruct (dev_query dev2 (wire w) t q); [reflexivity|apply IH].
Qed.

Lemma read_state_timeout (dev1 dev2 : Device) (t : Z) (c : Controller) fields :
  (forall h q, dev_query dev1 h t q = dev_query dev2 h t q) ->
  instrument c = Some {| timeout := t |} ->
  forall state w,
    read_state dev1 fields state {| ctl := c; world := w |}
    = read_state dev2 fields state {| ctl := c; world := w |}.
Proof.
  intros Hq Hi. induction fields as [|[key queries] rest IH]; intros state w; [reflexivity|].
  cbn [read_state]. unfold try_except, bind.
  rewrite (_query_first_timeout dev1 dev2 t c queries Hq Hi w).
  destruct (_query_first_run dev2 c queries w) as (answer & w1 & ->).
  rewrite IH. reflexivity.
Qed.

Lemma read_state_cons (dev : Device) key queries rest state :
  read_state dev ((key, queries) :: rest) state
  = try_except
      (let* answer := _query_first dev queries in
       read_state dev rest (state_set key (or_na answer) state))
      (ret state).
Proof. reflexivity. Qed.

(** The later assignments leave the ["rf"] entry alone. *)
Lemma read_state_keeps_rf (dev : Device) (c : Controller) fields :
  Forall (fun kq => fst kq <> KeyRf) fields ->
  forall state w state' s',
    read_state dev fields state {| ctl := c; world := w |} = (Return state', s') ->
    state_rf state' = state_rf state.
Proof.
  induction 1 as [|[key queries] rest Hkey Hrest IH]; intros state w state' s' Hrun.
  - cbn in Hrun. injection Hrun as <- _. reflexivity.
  - cbn [read_state] in Hrun. unfold try_except, bind in Hrun.
    destruct (_query_first_run dev c queries w) as (answer & w1 & Hq).
    rewrite Hq in Hrun.
    destruct (read_state_run dev c rest (state_set key (or_na answer) state) w1)
      as (st1 & w2 & Hr).
    rewrite Hr in Hrun. injection Hrun as <- _.
    rewrite (IH _ _ _ _ Hr). cbn [fst] in Hkey. destruct key; [congruence|reflexivity..].
Qed.

(** The status query runs under 500 ms and the read-back of the device
    state under 1000 ms, whatever the timeout of the connection, and both
    leave the controller record, its timeout included, as they found it:
    also when the query times out or the answer does not parse.  So the
    status read is what the device answers to [*ESR?] under 500 ms; the
    read-back is the same on two devices that answer alike under 1000 ms,
    however they answer under the timeout of the connection, and what the
    device answers to [RF?] under 1000 ms is the frequency shown. *)
Theorem temporary_timeouts_restored (dev : Device) (s : St) :
  ctl (state_of (get_esr dev s)) = ctl s /\
  ctl (state_of (get_device_state dev s)) = ctl s /\
  result_of (get_esr dev s)
    = Return (match instrument (ctl s) with
              | Some _ => esr_of_answer (dev_query dev (wire (world s)) 500 "*ESR?")
              | None => None
              end) /\
  (forall dev2 : Device,
     (forall h q, dev_query dev h 1000 q = dev_query dev2 h 1000 q) ->
     get_device_state dev s = get_device_state dev2 s) /\
  (forall resp,
     instrument (ctl s) <> None ->
     dev_query dev (wire (world s)) 1000 "RF?" = Some resp ->
     exists state,
       result_of (get_device_state dev s) = Return state /\
       state_rf state = or_na (Some (PyStr.strip resp))).
Proof.
  destruct (get_device_state_run dev s) as (state & w' & Hstate).
  split; [|split; [rewrite Hstate; reflexivity|split; [|split]]].
  - destruct s as [c w]. cbn [state_of snd ctl world].
    destruct (instrument c) as [i|] eqn:Hi.
    + rewrite (get_esr_run dev c w i Hi). reflexivity.
    + unfold get_esr. unfold_prog. rewrite Hi. reflexivity.
  - destruct s as [c w]. cbn [state_of snd ctl world].
    destruct (instrument c) as [i|] eqn:Hi.
    + rewrite (get_esr_run dev c w i Hi). reflexivity.
    + unfold get_esr. unfold_prog. rewrite Hi. reflexivity.
  - intros dev2 Hq. destruct s as [c w]. unfold get_device_state. unfold_prog.
    destruct (instrument c) as [i|] eqn:Hi; [|reflexivity].
    repeat (rewrite Hi || (progress unfold_prog)).
    rewrite (read_state_timeout dev dev2 1000
               (set_instrument (Some {| timeout := 1000 |}) c) state_queries Hq eq_refl).
    reflexivity.
  - intros resp Hi Hrf. rewrite Hstate. exists state. split; [reflexivity|].
    revert Hstate. destruct s as [c w]. unfold get_device_state. unfold_prog.
    cbn [ctl world] in Hi, Hrf.
    destruct (instrument c) as [i|] eqn:Hi'; [|congruence].
    repeat (rewrite Hi' || (progress unfold_prog)).
    unfold state_queries. rewrite read_state_cons. cbn [_query_first]. unfold_prog.
    cbn [instrument set_instrument timeout ctl world]. rewrite Hrf. unfold_prog.
    destruct (read_state_run dev (set_instrument (Some {| timeout := 1000 |}) c)
                [(KeyLevel, ["LEVEL?"; "POW?"; "SOUR:POW?"]);
                 (KeyFm, ["FM?"; "FM:STAT?"]); (KeyAf, ["AF?"; "FM:INT?"])]
                (state_set KeyRf (or_na (Some (PyStr.strip resp))) no_state)
                {| wire := wire w ++ [Asked "RF?"]; clock_ms := clock_ms w |})
      as (st' & w2 & Hrest).
    rewrite Hrest. cbn. intros [= <- _].
    pose proof (fun H => read_state_keeps_rf dev _ _ H _ _ _ _ Hrest) as Hkeep.
    rewrite Hkeep; [reflexivity|]. repeat constructor; discriminate.
Qed.

(** ** Reading the status register *)

Lemma lstrip_chars_no_space (l : list ascii) :
  match l with c :: _ => PyStr.is_space c = false | [] => True end ->
  PyStr.lstrip_chars l = l.
Proof. destruct l as [|c l]; [reflexivity|]. cbn. intros ->. reflexivity. Qed.

Lemma lstrip_chars_spaces (ws l : list ascii) :
  Forall (fun c => PyStr.is_space c = true) ws ->
  PyStr.lstrip_chars (ws ++ l) = PyStr.lstrip_chars l.
Proof.
  induction 1 as [|c ws Hc _ IH]; [reflexivity|]. cbn. rewrite Hc. exact IH.
Qed.

(** Stripping removes the white space around a text that neither begins
    nor ends with white space. *)
Lemma strip_chars_padded (ws1 ws2 l : list ascii) :
  Forall (fun c => PyStr.is_space c = true) ws1 ->
  Forall (fun c => PyStr.is_space c = true) ws2 ->
  Forall (fun c => PyStr.is_space c = false) l ->
  PyStr.strip_chars (ws1 ++ l ++ ws2) = l.
Proof.
  intros H1 H2 Hl. unfold PyStr.strip_chars.
  rewrite lstrip_chars_spaces by exact H1.
  destruct l as [|c l].
  - cbn [app]. 
    assert (Hall : forall ws, Forall (fun c => PyStr.is_space c = true) ws ->
                     PyStr.lstrip_chars ws = []).
    { intros ws Hws. rewrite <- (app_nil_r ws). rewrite lstrip_chars_spaces by exact Hws.
      reflexivity. }
    rewrite (Hall ws2 H2). cbn. reflexivity.
  - rewrite (lstrip_chars_no_space ((c :: l) ++ ws2)) by (cbn; inversion Hl; assumption).
    rewrite rev_app_distr. rewrite lstrip_chars_spaces by (apply Forall_rev; exact H2).
    rewrite lstrip_chars_no_space; [apply rev_involutive|].
    assert (Hrev : Forall (fun c => PyStr.is_space c = false) (rev (c :: l)))
      by (apply Forall_rev; exact Hl).
    destruct (rev (c :: l)); [exact I|]. inversion Hrev; assumption.
Qed.

Lemma strip_chars_no_space (l : list ascii) :
  Forall (fun c => PyStr.is_space c = false) l -> PyStr.strip_chars l = l.
Proof.
  intros Hl.
  pose proof (strip_chars_padded [] [] l ltac:(constructor) ltac:(constructor) Hl) as E.
  cbn [app] in E. rewrite app_nil_r in E. exact E.
Qed.

(** A text without white space is one field of [str.split()]. *)
Lemma split_ws_from_no_space (l cur : list ascii) :
  Forall (fun c => PyStr.is_space c = false) l ->
  cur ++ l <> [] ->
  PyStr.split_ws_from cur l = [PyStr.of_chars (rev cur ++ l)].
Proof.
  revert cur. induction l as [|c l IH]; intros cur Hl Hne.
  - cbn. rewrite app_nil_r in *. destruct cur; [contradiction|reflexivity].
  - inversion Hl as [|? ? Hc Hl']; subst. cbn. rewrite Hc.
    rewrite IH; [|exact Hl'|discriminate].
    cbn [rev]. rewrite <- app_assoc. reflexivity.
Qed.

(** The characters of a printed natural number, and what [int] reads
    from them. *)
Lemma parse_digits_uint (d : Decimal.uint) (acc : positive) (after_digit : bool) :
  (d <> Decimal.Nil \/ after_digit = true) ->
  PyStr.parse_digits (Z.pos acc) after_digit (PyStr.chars (NilEmpty.string_of_uint d))
  = Some (Z.pos (Pos.of_uint_acc d acc)).
Proof.
  revert acc after_digit.
  induction d as [|d IH|d IH|d IH|d IH|d IH|d IH|d IH|d IH|d IH|d IH];
    intros acc after_digit Hne;
    [destruct Hne as [Hne|Hne]; [contradiction|subst; reflexivity]| ..];
    cbn [NilEmpty.string_of_uint PyStr.chars list_ascii_of_string PyStr.parse_digits];
    match goal with
    | |- context [PyStr.digit_val ?c] =>
        let v := eval vm_compute in (PyStr.digit_val c) in
        change (PyStr.digit_val c) with v
    end;
    cbv beta iota; cbn [Pos.of_uint_acc];
    match goal with
    | |- PyStr.parse_digits ?z true _ = Some (Z.pos (Pos.of_uint_acc _ ?p)) =>
        replace z with (Z.pos p) by lia
    end;
    apply IH; right; reflexivity.
Qed.

Lemma parse_digits_of_uint (d : Decimal.uint) (after_digit : bool) :
  (d <> Decimal.Nil \/ after_digit = true) ->
  PyStr.parse_digits 0 after_digit (PyStr.chars (NilEmpty.string_of_uint d))
  = Some (Z.of_N (Pos.of_uint d)).
Proof.
  revert after_digit.
  induction d as [|d IH|d IH|d IH|d IH|d IH|d IH|d IH|d IH|d IH|d IH];
    intros after_digit Hne;
    [destruct Hne as [Hne|Hne]; [contradiction|subst; reflexivity]| ..];
    cbn [NilEmpty.string_of_uint PyStr.chars list_ascii_of_string PyStr.parse_digits];
    match goal with
    | |- context [PyStr.digit_val ?c] =>
        let v := eval vm_compute in (PyStr.digit_val c) in
        change (PyStr.digit_val c) with v
    end;
    cbv beta iota; cbn [Pos.of_uint Z.of_N];
    [apply IH; right; reflexivity| ..];
    match goal with
    | |- PyStr.parse_digits ?z true _ = Some (Z.pos (Pos.of_uint_acc _ ?p)) =>
        change z with (Z.pos p)
    end;
    apply parse_digits_uint; right; reflexivity.
Qed.

Lemma uint_chars_no_space (d : Decimal.uint) :
  Forall (fun c => PyStr.is_space c = false) (PyStr.chars (NilEmpty.string_of_uint d)).
Proof.
  induction d; cbn [NilEmpty.string_of_uint PyStr.chars list_ascii_of_string];
    constructor; (reflexivity || assumption).
Qed.

Lemma of_Z_chars_no_space (z : Z) :
  Forall (fun c => PyStr.is_space c = false) (PyStr.chars (PyStr.of_Z z)).
Proof.
  unfold PyStr.of_Z, NilZero.string_of_int, NilZero.string_of_uint.
  destruct z as [|p|p]; cbn [Z.to_int].
  - repeat constructor.
  - destruct (Pos.to_uint p); try (repeat constructor; fail); apply uint_chars_no_space.
  - cbn [PyStr.chars list_ascii_of_string]. constructor; [reflexivity|].
    destruct (Pos.to_uint p); try (repeat constructor; fail); apply uint_chars_no_space.
Qed.

Lemma of_Z_chars_nonempty (z : Z) : PyStr.chars (PyStr.of_Z z) <> [].
Proof.
  unfold PyStr.of_Z, NilZero.string_of_int, NilZero.string_of_uint.
  destruct z as [|p|p]; cbn [Z.to_int]; [discriminate| |discriminate].
  destruct (Pos.to_uint p); discriminate.
Qed.

(** [int(str(z))] is [z]. *)
Lemma int_of_Z (z : Z) : PyStr.int (PyStr.of_Z z) = Some z.
Proof.
  unfold PyStr.int.
  rewrite (strip_chars_no_space _ (of_Z_chars_no_space z)).
  unfold PyStr.of_Z, NilZero.string_of_int, NilZero.string_of_uint.
  destruct z as [|p|p]; cbn [Z.to_int]; [reflexivity| |].
  - pose proof (DecimalPos.Unsigned.to_uint_nonnil p) as Hnn.
    pose proof (DecimalPos.Unsigned.of_to p) as Hof.
    destruct (Pos.to_uint p) as [|d|d|d|d|d|d|d|d|d|d] eqn:Hd; [contradiction| ..];
      rewrite <- Hd in *;
      assert (Hp : PyStr.parse_digits 0 false (PyStr.chars (NilEmpty.string_of_uint (Pos.to_uint p)))
                   = Some (Z.pos p))
        by (rewrite parse_digits_of_uint by (left; exact Hnn); rewrite Hof; reflexivity);
      rewrite Hd in Hp |- *;
      cbn [NilEmpty.string_of_uint PyStr.chars list_ascii_of_string] in Hp |- *;
      exact Hp.
  - pose proof (DecimalPos.Unsigned.to_uint_nonnil p) as Hnn.
    pose proof (DecimalPos.Unsigned.of_to p) as Hof.
    assert (Hp : PyStr.parse_digits 0 false (PyStr.chars (NilEmpty.string_of_uint (Pos.to_uint p)))
                 = Some (Z.pos p))
      by (rewrite parse_digits_of_uint by (left; exact Hnn); rewrite Hof; reflexivity).
    destruct (Pos.to_uint p) as [|d|d|d|d|d|d|d|d|d|d] eqn:Hd; [contradiction| ..];
      cbn [NilEmpty.string_of_uint PyStr.chars list_ascii_of_string] in Hp |- *;
      change (Ascii.eqb "-" "-") with true; cbv beta iota;
      cbn [NilEmpty.string_of_uint PyStr.chars list_ascii_of_string];
      rewrite Hp; reflexivity.
Qed.

Lemma lstrip_chars_split (l : list ascii) :
  exists ws, Forall (fun c => PyStr.is_space c = true) ws /\ l = ws ++ PyStr.lstrip_chars l.
Proof.
  induction l as [|c l (ws & Hws & IH)]; [exists []; split; [constructor|reflexivity]|].
  cbn. destruct (PyStr.is_space c) eqn:Hc.
  - exists (c :: ws). split; [constructor; assumption|]. cbn. rewrite <- IH. reflexivity.
  - exists []. split; [constructor|reflexivity].
Qed.

(** Stripping takes white space off both ends and nothing else. *)
Lemma strip_chars_split (l : list ascii) :
  exists ws1 ws2,
    Forall (fun c => PyStr.is_space c = true) ws1 /\
    Forall (fun c => PyStr.is_space c = true) ws2 /\
    l = ws1 ++ PyStr.strip_chars l ++ ws2.
Proof.
  unfold PyStr.strip_chars.
  destruct (lstrip_chars_split l) as (ws1 & H1 & E1).
  destruct (lstrip_chars_split (rev (PyStr.lstrip_chars l))) as (ws2 & H2 & E2).
  exists ws1, (rev ws2). split; [exact H1|]. split; [apply Forall_rev; exact H2|].
  rewrite <- rev_app_distr, <- E2, rev_involutive. exact E1.
Qed.

Lemma split_ws_from_leading (ws l : list ascii) :
  Forall (fun c => PyStr.is_space c = true) ws ->
  PyStr.split_ws_from [] (ws ++ l) = PyStr.split_ws_from [] l.
Proof. induction 1 as [|c ws Hc _ IH]; [reflexivity|]. cbn. rewrite Hc. exact IH. Qed.

Lemma split_ws_from_spaces (ws cur : list ascii) :
  Forall (fun c => PyStr.is_space c = true) ws ->
  PyStr.split_ws_from cur ws = PyStr.split_ws_from cur [].
Proof.
  intros Hws. destruct Hws as [|c ws Hc Hws]; [reflexivity|].
  assert (Hnil : PyStr.split_ws_from [] ws = []).
  { rewrite <- (app_nil_r ws), split_ws_from_leading by exact Hws. reflexivity. }
  cbn. rewrite Hc, Hnil. destruct cur; reflexivity.
Qed.

Lemma split_ws_from_trailing (l ws cur : list ascii) :
  Forall (fun c => PyStr.is_space c = true) ws ->
  PyStr.split_ws_from cur (l ++ ws) = PyStr.split_ws_from cur l.
Proof.
  intros Hws. revert cur. induction l as [|c l IH]; intros cur.
  - apply split_ws_from_spaces, Hws.
  - cbn. destruct (PyStr.is_space c); [|apply IH].
    destruct cur; rewrite IH; reflexivity.
Qed.

(** [s.strip().split()] and [s.split()] give the same fields. *)
Lemma split_ws_strip (s : string) : PyStr.split_ws (PyStr.strip s) = PyStr.split_ws s.
Proof.
  unfold PyStr.split_ws, PyStr.strip, PyStr.chars, PyStr.of_chars.
  rewrite list_ascii_of_string_of_list_ascii.
  destruct (strip_chars_split (list_ascii_of_string s)) as (ws1 & ws2 & H1 & H2 & E).
  rewrite E at 2.
  rewrite split_ws_from_leading by exact H1.
  rewrite split_ws_from_trailing by exact H2. reflexivity.
Qed.

Lemma last_cons_Some {A} (x y : A) (l : list A) : last l = Some y -> last (x :: l) = Some y.
Proof. destruct l; [discriminate|]. intros H. exact H. Qed.

(** The last field of a text that ends with a white-space character and a
    word. *)
Lemma last_split_ws_from (head tok cur : list ascii) (sp : ascii) :
  PyStr.is_space sp = true ->
  Forall (fun c => PyStr.is_space c = false) tok -> tok <> [] ->
  last (PyStr.split_ws_from cur (head ++ sp :: tok)) = Some (PyStr.of_chars tok).
Proof.
  intros Hsp Htok Hne. revert cur.
  assert (Hlast : PyStr.split_ws_from [] tok = [PyStr.of_chars tok]).
  { rewrite split_ws_from_no_space; [reflexivity|exact Htok|exact Hne]. }
  induction head as [|c head IH]; intros cur.
  - cbn. rewrite Hsp, Hlast. destruct cur; reflexivity.
  - cbn. destruct (PyStr.is_space c); [|apply IH].
    destruct cur; [apply IH|]. apply last_cons_Some, IH.
Qed.

(** The status is read from the last white-space separated field of the
    answer: an answer that ends, up to trailing white space, with the
    decimal text of [v], alone or after white space, is read as [v]. *)
Lemma esr_of_response_last_field (v : Z) (head ws : list ascii) :
  (head = [] \/ exists head' sp, head = head' ++ [sp] /\ PyStr.is_space sp = true) ->
  Forall (fun c => PyStr.is_space c = true) ws ->
  esr_of_response (PyStr.of_chars (head ++ PyStr.chars (PyStr.of_Z v) ++ ws)) = Some v.
Proof.
  intros Hhead Hws. unfold esr_of_response. rewrite split_ws_strip.
  unfold PyStr.split_ws, PyStr.chars, PyStr.of_chars.
  rewrite list_ascii_of_string_of_list_ascii.
  rewrite app_assoc, split_ws_from_trailing by exact Hws.
  assert (Hl : last (PyStr.split_ws_from [] (head ++ list_ascii_of_string (PyStr.of_Z v)))
               = Some (PyStr.of_Z v)).
  { destruct Hhead as [->|(head' & sp & -> & Hsp)].
    - cbn [app].
      pose proof (split_ws_from_no_space _ [] (of_Z_chars_no_space v)
                    (of_Z_chars_nonempty v)) as E.
      unfold PyStr.chars, PyStr.of_chars in E. rewrite E.
      cbn [rev app last]. rewrite string_of_list_ascii_of_string. reflexivity.
    - rewrite <- app_assoc. cbn [app].
      pose proof (last_split_ws_from head' _ [] sp Hsp (of_Z_chars_no_space v)
                    (of_Z_chars_nonempty v)) as E.
      unfold PyStr.chars, PyStr.of_chars in E. rewrite E.
      rewrite string_of_list_ascii_of_string. reflexivity. }
  rewrite Hl. apply int_of_Z.
Qed.

(** Reading back a status.  When the device answers the status query
    with the decimal text of [v] as its last field, [get_esr] yields [v]:
    parsing inverts the printing of an integer, sign included. *)
Theorem get_esr_reads_printed_status
    (dev : Device) (s : St) (i : Instrument) (v : Z) (head ws : list ascii) :
  instrument (ctl s) = Some i ->
  (head = [] \/ exists head' sp, head = head' ++ [sp] /\ PyStr.is_space sp = true) ->
  Forall (fun c => PyStr.is_space c = true) ws ->
  dev_query dev (wire (world s)) 500 "*ESR?"
    = Some (PyStr.of_chars (head ++ PyStr.chars (PyStr.of_Z v) ++ ws)) ->
  result_of (get_esr dev s) = Return (Some v).
Proof.
  intros Hi Hhead Hws Hq. destruct s as [c w]. cbn [ctl world] in *.
  rewrite (get_esr_run dev c w i Hi), Hq. cbn [result_of fst esr_of_answer].
  rewrite esr_of_response_last_field by assumption. reflexivity.
Qed.

Lemma get_esr_reads_printed_status_witness :
  let dev := simple_device smy02_idn (Some "ESR -32 ") in
  result_of (get_esr dev (connected_state dev)) = Return (Some (-32)).
Proof.
  intros dev.
  apply (get_esr_reads_printed_status dev (connected_state dev) {| timeout := 5000 |} (-32)
           (PyStr.chars "ESR ") (PyStr.chars " ")).
  - reflexivity.
  - right. exists (PyStr.chars "ESR"), " "%char. split; reflexivity.
  - repeat constructor.
  - reflexivity.
Defined.

(** ** Candidate commands *)

Section Candidates.

Variable dev : Device.

Lemma try_commands_loop_order c i commands :
  instrument c = Some i ->
  forall w, exists k r w',
    try_commands_loop dev commands {| ctl := c; world := w |}
      = (Return r, {| ctl := c; world := w' |}) /\
    writes_of (wire w') = writes_of (wire w) ++ with_cls (take k commands) /\
    (r = Some true -> (0 < k)%nat) /\ r <> Some false.
Proof.
  intros Hi. induction commands as [|cmd rest IH]; intros w.
  - exists 0%nat, None, w. cbn. rewrite app_nil_r. repeat split; discriminate.
  - assert (Hnext : forall w1,
      writes_of (wire w1) = writes_of (wire w) ++ ["*CLS"; cmd] ->
      exists k r w',
        try_commands_loop dev rest {| ctl := c; world := w1 |}
          = (Return r, {| ctl := c; world := w' |}) /\
        writes_of (wire w') = writes_of (wire w) ++ with_cls (take k (cmd :: rest)) /\
        (r = Some true -> (0 < k)%nat) /\ r <> Some false).
    { intros w1 Hw1. destruct (IH w1) as (k & r & w' & Hrun & Hwr & _ & Hr).
      exists (S k), r, w'. split; [exact Hrun|]. split; [|split; [lia|exact Hr]].
      rewrite Hwr, Hw1, <- app_assoc. reflexivity. }
    assert (Hstop : forall w1 : list wire_event,
      writes_of w1 = writes_of (wire w) ++ ["*CLS"; cmd] ->
      writes_of w1 = writes_of (wire w) ++ with_cls (take 1 (cmd :: rest))).
    { intros w1 ->. reflexivity. }
    cbn [try_commands_loop]. exec Hi.
    destruct (dev_write dev _ cmd); exec Hi.
    + destruct (esr_of_answer _) as [v|]; [destruct (v =? 0)|].
      * exists 1%nat. eexists _, _. split; [reflexivity|]. cbn [wire].
        split; [|split; [lia|discriminate]]. apply Hstop.
        rewrite !writes_of_app. cbn. rewrite <- !app_assoc. reflexivity.
      * apply Hnext. cbn [wire]. rewrite !writes_of_app. cbn.
        rewrite <- !app_assoc. reflexivity.
      * exists 1%nat. eexists _, _. split; [reflexivity|]. cbn [wire].
        split; [|split; [lia|discriminate]]. apply Hstop.
        rewrite !writes_of_app. cbn. rewrite <- !app_assoc. reflexivity.
    + apply Hnext. cbn [wire]. rewrite !writes_of_app. cbn.
      rewrite <- !app_assoc. reflexivity.
Qed.

Lemma enable_output_loop_order c i is_smy02 candidates :
  instrument c = Some i ->
  forall last_esr w, exists k r w',
    enable_output_loop dev is_smy02 candidates last_esr {| ctl := c; world := w |}
      = (r, {| ctl := c; world := w' |}) /\
    writes_of (wire w') = writes_of (wire w) ++ with_cls (take k candidates) /\
    (candidates <> [] -> (0 < k)%nat).
Proof.
  intros Hi. induction candidates as [|cmd rest IH]; intros last_esr w.
  - exists 0%nat. eexists _, _. split; [reflexivity|]. cbn. rewrite app_nil_r.
    split; [reflexivity|contradiction].
  - assert (Hstop : forall w1 : list wire_event,
      writes_of w1 = writes_of (wire w) ++ ["*CLS"; cmd] ->
      writes_of w1 = writes_of (wire w) ++ with_cls (take 1 (cmd :: rest))).
    { intros w1 ->. reflexivity. }
    cbn [enable_output_loop]. exec Hi.
    destruct (dev_write dev _ cmd); exec Hi.
    + destruct (esr_none_or_zero _); [|destruct (is_smy02 && esr_benign _)].
      * exists 1%nat. eexists _, _. split; [reflexivity|]. cbn [wire].
        split; [|lia]. apply Hstop.
        rewrite !writes_of_app. cbn. rewrite <- !app_assoc. reflexivity.
      * exists 1%nat. eexists _, _. split; [reflexivity|]. cbn [wire].
        split; [|lia]. apply Hstop.
        rewrite !writes_of_app. cbn. rewrite <- !app_assoc. reflexivity.
      * match goal with
        | |- context [enable_output_loop dev is_smy02 rest ?l {| ctl := c; world := ?w1 |}] =>
            destruct (IH l w1) as (k & r & w' & Hrun & Hwr & _)
        end.
        exists (S k), r, w'. split; [exact Hrun|]. split; [|lia].
        rewrite Hwr. cbn [wire]. rewrite !writes_of_app. cbn.
        rewrite <- !app_assoc. reflexivity.
    + exists 1%nat. eexists _, _. split; [reflexivity|]. cbn [wire].
      split; [|lia]. apply Hstop.
      rewrite !writes_of_app. cbn. rewrite <- !app_assoc. reflexivity.
Qed.

(** Candidates are tried in the order of the list, each once and each
    after a [*CLS], and the search only ever stops early: the commands
    written by [_try_commands_with_check] and by [enable_output] are a
    prefix of the candidate list with [*CLS] before each candidate.  A
    call that succeeds has written a candidate, and neither call changes
    the controller record. *)
Theorem candidates_tried_in_order (s : St) :
  (forall commands,
     let r := _try_commands_with_check dev commands s in
     ctl (state_of r) = ctl s /\
     exists k,
       writes_of (wire (world (state_of r)))
         = writes_of (wire (world s)) ++ with_cls (take k commands) /\
       (result_of r = Return true -> (0 < k)%nat)) /\
  (let r := enable_output dev s in
   ctl (state_of r) = ctl s /\
   exists k,
     writes_of (wire (world (state_of r)))
       = writes_of (wire (world s))
         ++ with_cls (take k (enable_output_candidates (is_smy02_of (ctl s)))) /\
     (result_of r = Return true -> (0 < k)%nat)).
Proof.
  destruct s as [c w]. split.
  - intros commands. cbv zeta. unfold _try_commands_with_check. unfold_prog.
    destruct (instrument c) as [i|] eqn:Hi.
    + destruct (try_commands_loop_order c i commands Hi w)
        as (k & r & w' & Hrun & Hwr & Hk & Hr).
      unfold_prog. rewrite Hrun.
      destruct r as [[]|]; cbn; (split; [reflexivity|]); exists k;
        (split; [exact Hwr|]); intros; try discriminate; auto; congruence.
    + cbn. split; [reflexivity|]. exists 0%nat. cbn. rewrite app_nil_r.
      split; [reflexivity|discriminate].
  - cbv zeta. unfold enable_output. unfold_prog. cbn [ctl].
    destruct (instrument c) as [i|] eqn:Hi.
    + destruct (enable_output_loop_order c i (is_smy02_of c)
                  (enable_output_candidates (is_smy02_of c)) Hi None w)
        as (k & r & w' & Hrun & Hwr & Hk).
      unfold_prog. rewrite Hrun.
      assert (Hpos : (0 < k)%nat).
      { apply Hk. unfold enable_output_candidates. destruct (is_smy02_of c); discriminate. }
      destruct r as [[[b|] l]|]; cbn; try destruct (esr_benign l); cbn;
        (split; [reflexivity|]); exists k; (split; [exact Hwr|]); intros; exact Hpos.
    + cbn. split; [reflexivity|]. exists 0%nat. cbn. rewrite app_nil_r.
      split; [reflexivity|discriminate].
Qed.

End Candidates.

Section Outcomes.

Variable dev : Device.

(** A zero status ends the search with success.  At whatever candidate
    of the loop of [enable_output] or of [_try_commands_with_check] the
    write is accepted and the status then reads 0, the call returns
    [True] and writes no further candidate. *)
Theorem zero_status_stops_search (s : St) (i : Instrument) :
  instrument (ctl s) = Some i ->
  let h := wire (world s) in
  (forall is_smy02 cmd rest last_esr,
     dev_write dev (h ++ [Sent "*CLS"]) cmd = true ->
     esr_of_answer (dev_query dev (h ++ [Sent "*CLS"; Sent cmd]) 500 "*ESR?") = Some 0 ->
     let r := enable_output_loop dev is_smy02 (cmd :: rest) last_esr s in
     result_of r = Return (Some true, Some 0) /\
     wire (world (state_of r)) = h ++ [Sent "*CLS"; Sent cmd; Asked "*ESR?"]) /\
  (forall cmd rest,
     dev_write dev (h ++ [Sent "*CLS"]) cmd = true ->
     esr_of_answer (dev_query dev (h ++ [Sent "*CLS"; Sent cmd]) 500 "*ESR?") = Some 0 ->
     let r := _try_commands_with_check dev (cmd :: rest) s in
     result_of r = Return true /\
     wire (world (state_of r)) = h ++ [Sent "*CLS"; Sent cmd; Asked "*ESR?"]) /\
  (dev_write dev (h ++ [Sent "*CLS"]) "OUTP ON" = true ->
   esr_of_answer (dev_query dev (h ++ [Sent "*CLS"; Sent "OUTP ON"]) 500 "*ESR?") = Some 0 ->
   let r := enable_output dev s in
   result_of r = Return true /\
   wire (world (state_of r)) = h ++ [Sent "*CLS"; Sent "OUTP ON"; Asked "*ESR?"]).
Proof.
  intros Hi h. destruct s as [c w]. cbn [ctl world] in *. subst h.
  assert (Hloop : forall is_smy02 cmd rest last_esr,
    dev_write dev (wire w ++ [Sent "*CLS"]) cmd = true ->
    esr_of_answer (dev_query dev (wire w ++ [Sent "*CLS"; Sent cmd]) 500 "*ESR?") = Some 0 ->
    enable_output_loop dev is_smy02 (cmd :: rest) last_esr {| ctl := c; world := w |}
    = (Return (Some true, Some 0),
       {| ctl := c;
          world := {| wire := wire w ++ [Sent "*CLS"; Sent cmd; Asked "*ESR?"];
                      clock_ms := (if dev_write dev (wire w) "*CLS"
                                   then clock_ms w + 50 else clock_ms w) + 100 + 200 |} |})).
  { intros is_smy02 cmd rest last_esr Hw Hq.
    cbn [enable_output_loop]. exec Hi. rewrite Hw. exec Hi.
    rewrite <- app_assoc. cbn [app]. rewrite Hq. cbn [esr_none_or_zero Z.eqb].
    exec Hi. rewrite <- !app_assoc. reflexivity. }
  split; [|split].
  - intros is_smy02 cmd rest last_esr Hw Hq. cbv zeta.
    rewrite (Hloop is_smy02 cmd rest last_esr Hw Hq). split; reflexivity.
  - intros cmd rest Hw Hq. cbv zeta. unfold _try_commands_with_check.
    cbn [try_commands_loop]. exec Hi. rewrite Hw. exec Hi.
    rewrite <- app_assoc. cbn [app]. rewrite Hq. cbn [Z.eqb].
    exec Hi. rewrite <- !app_assoc. split; reflexivity.
  - intros Hw Hq. cbv zeta. unfold enable_output. exec Hi.
    assert (Hc : enable_output_candidates (is_smy02_of c)
                 = "OUTP ON" :: tl (enable_output_candidates (is_smy02_of c)))
      by (unfold enable_output_candidates; destruct (is_smy02_of c); reflexivity).
    rewrite Hc, (Hloop _ _ _ _ Hw Hq). split; reflexivity.
Qed.

(** In the loop of [enable_output] a write that raises is the last
    exchange of the loop, and the loop raises: whichever candidate it
    was.  ([*CLS] is written by [clear_status], which has a handler of its
    own.) *)
Lemma enable_output_loop_raising_write c i is_smy02 candidates :
  instrument c = Some i ->
  forall last_esr w, exists r w' tail,
    enable_output_loop dev is_smy02 candidates last_esr {| ctl := c; world := w |}
      = (r, {| ctl := c; world := w' |}) /\
    wire w' = wire w ++ tail /\
    forall evs1 cmd evs2,
      tail = evs1 ++ Sent cmd :: evs2 ->
      cmd <> "*CLS" ->
      dev_write dev (wire w ++ evs1) cmd = false ->
      evs2 = [] /\ r = Raise.
Proof.
  intros Hi. induction candidates as [|cmd0 rest IH]; intros last_esr w.
  - eexists _, _, []. split; [reflexivity|]. split; [symmetry; apply app_nil_r|].
    intros [|e evs1] cmd evs2 Heq; discriminate Heq.
  - cbn [enable_output_loop]. exec Hi.
    destruct (dev_write dev (wire w ++ [Sent "*CLS"]) cmd0) eqn:Hw; exec Hi.
    + assert (Hhead : forall tail' evs1 cmd evs2,
        [Sent "*CLS"; Sent cmd0; Asked "*ESR?"] ++ tail' = evs1 ++ Sent cmd :: evs2 ->
        cmd <> "*CLS" ->
        dev_write dev (wire w ++ evs1) cmd = false ->
        exists evs1', evs1 = [Sent "*CLS"; Sent cmd0; Asked "*ESR?"] ++ evs1' /\
                      tail' = evs1' ++ Sent cmd :: evs2).
      { intros tail' evs1 cmd evs2 Heq Hcls Hfail.
        destruct evs1 as [|e1 [|e2 [|e3 evs1']]]; cbn in Heq.
        - injection Heq as Hc _. congruence.
        - injection Heq as <- <- _. congruence.
        - injection Heq as _ _ Hc _. discriminate Hc.
        - injection Heq as <- <- <- Ht. exists evs1'. split; [reflexivity|exact Ht]. }
      destruct (esr_none_or_zero _); [|destruct (is_smy02 && esr_benign _)].
      * eexists _, _, [Sent "*CLS"; Sent cmd0; Asked "*ESR?"].
        split; [reflexivity|]. cbn [wire]. split; [rewrite <- !app_assoc; reflexivity|].
        intros evs1 cmd evs2 Heq Hcls Hfail.
        destruct (Hhead [] evs1 cmd evs2 Heq Hcls Hfail) as (evs1' & _ & Ht).
        destruct evs1'; discriminate Ht.
      * eexists _, _, [Sent "*CLS"; Sent cmd0; Asked "*ESR?"].
        split; [reflexivity|]. cbn [wire]. split; [rewrite <- !app_assoc; reflexivity|].
        intros evs1 cmd evs2 Heq Hcls Hfail.
        destruct (Hhead [] evs1 cmd evs2 Heq Hcls Hfail) as (evs1' & _ & Ht).
        destruct evs1'; discriminate Ht.
      * match goal with
        | |- context [enable_output_loop dev is_smy02 rest ?l {| ctl := c; world := ?w1 |}] =>
            destruct (IH l w1) as (r & w' & tail & Hrun & Hwire & Htail)
        end.
        exists r, w', ([Sent "*CLS"; Sent cmd0; Asked "*ESR?"] ++ tail).
        split; [exact Hrun|]. cbn [wire] in Hwire, Htail.
        split; [rewrite Hwire, <- !app_assoc; reflexivity|].
        intros evs1 cmd evs2 Heq Hcls Hfail.
        destruct (Hhead tail evs1 cmd evs2 Heq Hcls Hfail) as (evs1' & -> & Ht).
        apply (Htail evs1' cmd evs2 Ht Hcls).
        rewrite <- !app_assoc. exact Hfail.
    + eexists _, _, [Sent "*CLS"; Sent cmd0].
      split; [reflexivity|]. cbn [wire]. split; [rewrite <- !app_assoc; reflexivity|].
      intros evs1 cmd evs2 Heq Hcls Hfail.
      destruct evs1 as [|e1 [|e2 evs1']]; cbn in Heq.
      * injection Heq as Hc _. congruence.
      * injection Heq as _ _ <-. split; reflexivity.
      * injection Heq as _ _ Hc. destruct evs1'; discriminate Hc.
Qed.

(** A write that raises.  In [enable_output] the write of a candidate is
    not guarded: whichever candidate it is, if its write raises, that write
    is the last exchange of the call, the candidates after it are not
    tried, and the call returns [False].  In [_try_commands_with_check]
    each candidate has its own handler: the candidate is skipped and the
    call goes on as it would for the rest of the list. *)
Theorem write_failure_aborts_or_skips (s : St) (i : Instrument) :
  instrument (ctl s) = Some i ->
  let h := wire (world s) in
  (forall evs1 cmd evs2,
     wire (world (state_of (enable_output dev s))) = h ++ evs1 ++ Sent cmd :: evs2 ->
     cmd <> "*CLS" ->
     dev_write dev (h ++ evs1) cmd = false ->
     evs2 = [] /\ result_of (enable_output dev s) = Return false) /\
  (forall is_smy02 cmd rest last_esr,
     dev_write dev (h ++ [Sent "*CLS"]) cmd = false ->
     let r := enable_output_loop dev is_smy02 (cmd :: rest) last_esr s in
     result_of r = Raise /\
     wire (world (state_of r)) = h ++ [Sent "*CLS"; Sent cmd]) /\
  (dev_write dev (h ++ [Sent "*CLS"]) "OUTP ON" = false ->
   let r := enable_output dev s in
   result_of r = Return false /\
   wire (world (state_of r)) = h ++ [Sent "*CLS"; Sent "OUTP ON"]) /\
  (forall cmd rest,
     dev_write dev (h ++ [Sent "*CLS"]) cmd = false ->
     let after :=
       {| ctl := ctl s;
          world := {| wire := h ++ [Sent "*CLS"; Sent cmd];
                      clock_ms := if dev_write dev h "*CLS"
                                  then clock_ms (world s) + 50
                                  else clock_ms (world s) |} |} in
     _try_commands_with_check dev (cmd :: rest) s
     = _try_commands_with_check dev rest after).
Proof.
  intros Hi h. destruct s as [c w]. cbn [ctl world] in *. subst h.
  split; [|split; [|split]].
  - intros evs1 cmd evs2. unfold enable_output. exec Hi.
    destruct (enable_output_loop_raising_write c i (is_smy02_of c)
                (enable_output_candidates (is_smy02_of c)) Hi None w)
      as (r & w' & tail & Hrun & Hwire & Htail).
    rewrite Hrun.
    assert (Hcases : forall res : outcome bool,
      (r = Raise -> res = Return false) ->
      wire w' = wire w ++ evs1 ++ Sent cmd :: evs2 ->
      cmd <> "*CLS" ->
      dev_write dev (wire w ++ evs1) cmd = false ->
      evs2 = [] /\ res = Return false).
    { intros res Hres Heq Hcls Hfail. rewrite Hwire in Heq.
      apply app_inv_head in Heq.
      destruct (Htail evs1 cmd evs2 Heq Hcls Hfail) as [-> Hr]. split; [reflexivity|auto]. }
    destruct r as [[[b|] l]|]; unfold_prog; try destruct (esr_benign l); unfold_prog;
      apply Hcases; first [reflexivity | intros Hr; discriminate Hr].
  - intros is_smy02 cmd rest last_esr Hw. cbv zeta.
    cbn [enable_output_loop]. exec Hi. rewrite Hw. exec Hi.
    rewrite <- !app_assoc. split; reflexivity.
  - intros Hw. cbv zeta. unfold enable_output. exec Hi.
    assert (Hc : enable_output_candidates (is_smy02_of c)
                 = "OUTP ON" :: tl (enable_output_candidates (is_smy02_of c)))
      by (unfold enable_output_candidates; destruct (is_smy02_of c); reflexivity).
    rewrite Hc. cbn [enable_output_loop]. exec Hi. rewrite Hw. exec Hi.
    rewrite <- !app_assoc. split; reflexivity.
  - intros cmd rest Hw. cbv zeta. unfold _try_commands_with_check.
    cbn [try_commands_loop]. exec Hi. rewrite Hw. exec Hi.
    rewrite <- !app_assoc. reflexivity.
Qed.

(** A status register that always reads the same nonzero value.  On
    every identity [enable_output] then writes each candidate of its list
    and returns [True] exactly when the value is one of the codes 32 and
    53: on an SMY02 the code is accepted at the only candidate, on
    another identity it does not stop the search but is accepted as the
    status left by the last candidate. *)
Theorem enable_output_constant_status (s : St) (i : Instrument) (v : Z) :
  instrument (ctl s) = Some i ->
  writes_accepted dev ->
  status_always dev v ->
  v <> 0 ->
  let r := enable_output dev s in
  result_of r = Return (bool_decide (v = 32 \/ v = 53)) /\
  writes_of (wire (world (state_of r)))
    = writes_of (wire (world s)) ++ with_cls (enable_output_candidates (is_smy02_of (ctl s))).
Proof.
  intros Hi Hw Hv Hnz.
  assert (Hz : (v =? 0) = false) by (apply Z.eqb_neq; exact Hnz).
  assert (Hb : esr_benign (Some v) = bool_decide (v = 32 \/ v = 53)).
  { cbn. rewrite orb_false_r.
    destruct (Z.eqb_spec v 32), (Z.eqb_spec v 53); cbn; symmetry;
      (apply bool_decide_eq_true_2 + apply bool_decide_eq_false_2); lia. }
  destruct s as [c w]. cbn [ctl world] in *.
  assert (Hloop : forall is_smy02 candidates last_esr w0,
    candidates <> [] ->
    exists r w',
      enable_output_loop dev is_smy02 candidates last_esr {| ctl := c; world := w0 |}
      = (Return r, {| ctl := c; world := w' |}) /\
      (r = (Some true, Some v) /\ esr_benign (Some v) = true \/
       r = (None, Some v)) /\
      (is_smy02 = false \/ length candidates = 1%nat ->
       writes_of (wire w') = writes_of (wire w0) ++ with_cls candidates)).
  { intros is_smy02 candidates.
    induction candidates as [|cmd rest IH]; intros last_esr w0 Hne; [contradiction|].
    cbn [enable_output_loop]. exec Hi. rewrite Hw. exec Hi. rewrite Hv.
    cbn [esr_none_or_zero]. rewrite Hz.
    destruct (is_smy02 && esr_benign (Some v)) eqn:Hsb.
    - eexists _, _. split; [reflexivity|]. split.
      + left. split; [reflexivity|]. apply andb_true_iff in Hsb. tauto.
      + intros [->|Hlen]; [discriminate|].
        destruct rest; [|discriminate]. cbn [wire].
        rewrite !writes_of_app. cbn. rewrite <- !app_assoc. reflexivity.
    - destruct rest as [|cmd2 rest].
      + cbn [enable_output_loop]. eexists _, _. split; [reflexivity|].
        split; [right; reflexivity|]. intros _. cbn [wire].
        rewrite !writes_of_app. cbn. rewrite <- !app_assoc. reflexivity.
      + match goal with
        | |- context [enable_output_loop dev is_smy02 _ ?l {| ctl := c; world := ?w1 |}] =>
            destruct (IH l w1 ltac:(discriminate)) as (r & w' & Hrun & Hr & Hwr)
        end.
        exists r, w'. split; [exact Hrun|]. split; [exact Hr|].
        intros [->|Hlen]; [|discriminate].
        rewrite Hwr by (left; reflexivity). cbn [wire].
        rewrite !writes_of_app. cbn. rewrite <- !app_assoc. reflexivity. }
  cbv zeta. unfold enable_output. exec Hi.
  destruct (Hloop (is_smy02_of c) (enable_output_candidates (is_smy02_of c)) None w)
    as (r & w' & Hrun & Hr & Hwr).
  { unfold enable_output_candidates. destruct (is_smy02_of c); discriminate. }
  rewrite Hrun. rewrite <- Hb.
  specialize (Hwr ltac:(unfold enable_output_candidates; destruct (is_smy02_of c);
                        [right; reflexivity|left; reflexivity])).
  destruct Hr as [[-> Hben]| ->]; cbv beta iota;
    [rewrite Hben|destruct (esr_benign (Some v))];
    unfold_prog; (split; [reflexivity|exact Hwr]).
Qed.

End Outcomes.

Lemma zero_status_stops_search_witness :
  let dev := simple_device generic_idn (Some "0") in
  let s := connected_state dev in
  instrument (ctl s) = Some {| timeout := 5000 |} /\
  result_of (enable_output dev s) = Return true.
Proof.
  intros dev s.
  assert (Hi : instrument (ctl s) = Some {| timeout := 5000 |}) by reflexivity.
  split; [exact Hi|].
  destruct (zero_status_stops_search dev s _ Hi) as (_ & _ & H).
  destruct (H eq_refl eq_refl) as [Hr _]. exact Hr.
Defined.

Lemma write_failure_aborts_or_skips_witness :
  let dev := rejecting_device generic_idn "OUTP:STAT ON" in
  let s := connected_state dev in
  instrument (ctl s) = Some {| timeout := 5000 |} /\
  result_of (enable_output dev s) = Return false /\
  writes_of (wire (world (state_of (enable_output dev s))))
    = ["*CLS"; "OUTP ON"; "*CLS"; "OUTP:STAT ON"].
Proof.
  intros dev s.
  assert (Hi : instrument (ctl s) = Some {| timeout := 5000 |}) by reflexivity.
  split; [exact Hi|].
  destruct (write_failure_aborts_or_skips dev s _ Hi) as (H & _).
  assert (Hcls : "OUTP:STAT ON" <> "*CLS") by discriminate.
  destruct (H [Sent "*CLS"; Sent "OUTP ON"; Asked "*ESR?"; Sent "*CLS"] "OUTP:STAT ON" []
              eq_refl Hcls eq_refl) as [_ Hr].
  split; [exact Hr|reflexivity].
Defined.

Lemma enable_output_constant_status_witness :
  let dev := simple_device generic_idn (Some "32") in
  let s := connected_state dev in
  writes_accepted dev /\ status_always dev 32 /\
  result_of (enable_output dev s) = Return true.
Proof.
  intros dev s.
  assert (Hi : instrument (ctl s) = Some {| timeout := 5000 |}) by reflexivity.
  assert (Hw : writes_accepted dev) by (intros h cmd; reflexivity).
  assert (Hv : status_always dev 32) by (intros h t; reflexivity).
  split; [exact Hw|]. split; [exact Hv|].
  destruct (enable_output_constant_status dev s _ 32 Hi Hw Hv ltac:(discriminate)) as [Hr _].
  exact Hr.
Defined.

(** ** The modulation state, continued *)

Ltac destruct_writes dev Hi :=
  repeat (match goal with
          | |- context [dev_write dev ?h ?c] => destruct (dev_write dev h c)
          end; exec Hi).

Section ModulationState.

Variable dev : Device.

(** The modulation state follows the return values.  A call of
    [set_modulation_fm] or [set_modulation_am] that returns [True] leaves
    the recorded mode FM, respectively AM; a call that returns [False]
    leaves the recorded mode as it was.  Neither call touches the
    instrument or the identity, and neither resets [_fm_initialized]. *)
Theorem modulation_mode_tracks_success (s : St) :
  (forall deviation,
     let r := set_modulation_fm dev deviation s in
     (result_of r = Return true -> _modulation_mode (ctl (state_of r)) = Some FM) /\
     (result_of r = Return false ->
        _modulation_mode (ctl (state_of r)) = _modulation_mode (ctl s)) /\
     (_fm_initialized (ctl s) = true -> _fm_initialized (ctl (state_of r)) = true) /\
     instrument (ctl (state_of r)) = instrument (ctl s) /\
     idn (ctl (state_of r)) = idn (ctl s) /\
     model (ctl (state_of r)) = model (ctl s)) /\
  (let r := set_modulation_am dev s in
   (result_of r = Return true -> _modulation_mode (ctl (state_of r)) = Some AM) /\
   (result_of r = Return false ->
      _modulation_mode (ctl (state_of r)) = _modulation_mode (ctl s)) /\
   _fm_initialized (ctl (state_of r)) = _fm_initialized (ctl s) /\
   instrument (ctl (state_of r)) = instrument (ctl s) /\
   idn (ctl (state_of r)) = idn (ctl s) /\
   model (ctl (state_of r)) = model (ctl s)).
Proof.
  destruct s as [c w]. split.
  - intros deviation. cbv zeta. unfold set_modulation_fm. unfold_prog.
    destruct (instrument c) as [i|] eqn:Hi; [|cbn; repeat split; intros; congruence].
    destruct (is_smy02_of c).
    + destruct (_fm_initialized c) eqn:Hinit; exec Hi.
      * destruct (bool_decide (_modulation_mode c = Some FM)); exec Hi;
          destruct_writes dev Hi; cbn; rewrite ?Hi, ?Hinit;
          repeat split; intros; congruence.
      * destruct_writes dev Hi; cbn; rewrite ?Hi, ?Hinit;
          repeat split; intros; congruence.
    + exec Hi. destruct_writes dev Hi;
        try (cbn; rewrite ?Hi; repeat split; intros; congruence).
      all: match goal with
           | |- context [deviation_loop _ ?l {| ctl := ?c0; world := ?w1 |}] =>
               destruct (deviation_loop_returns dev c0 _ l Hi w1) as (b & w' & ->)
           end.
      all: exec Hi; destruct_writes dev Hi; cbn; rewrite ?Hi;
        repeat split; intros; congruence.
  - cbv zeta. unfold set_modulation_am. unfold_prog.
    destruct (instrument c) as [i|] eqn:Hi; [|cbn; repeat split; intros; congruence].
    destruct (is_smy02_of c); exec Hi; destruct_writes dev Hi; cbn; rewrite ?Hi;
      repeat split; intros; congruence.
Qed.

(** On an SMY02 whose writes are accepted, [set_modulation_fm] writes the
    initialisation once per connection, leaves AM by [AM:OFF] and [FM:ON]
    when the recorded mode is not FM, and then writes the deviation; it
    asks no query, returns [True] and records FM. *)
Theorem set_modulation_fm_smy02_commands (s : St) (i : Instrument) (deviation : Z) :
  instrument (ctl s) = Some i ->
  is_smy02_of (ctl s) = true ->
  writes_accepted dev ->
  let r := set_modulation_fm dev deviation s in
  result_of r = Return true /\
  wire (world (state_of r))
    = wire (world s) ++ map Sent (fm_preamble (ctl s) ++ ["FM " +:+ PyStr.of_Z deviation]) /\
  _fm_initialized (ctl (state_of r)) = true /\
  _modulation_mode (ctl (state_of r)) = Some FM /\
  fm_preamble (ctl (state_of r)) = [].
Proof.
  intros Hi Hsmy Hw. destruct s as [c w]. cbn [ctl world] in *.
  cbv zeta. unfold set_modulation_fm, fm_preamble. exec Hi. rewrite Hsmy.
  destruct (_fm_initialized c) eqn:Hinit; exec Hi.
  - destruct (bool_decide (_modulation_mode c = Some FM)); exec Hi;
      rewrite ?Hw; exec Hi; rewrite ?Hw; exec Hi; rewrite ?Hw; exec Hi;
      cbn; rewrite ?Hinit, <- ?app_assoc; repeat split.
  - rewrite ?Hw; exec Hi; rewrite ?Hw; exec Hi; rewrite ?Hw; exec Hi; rewrite ?Hw; exec Hi.
    cbn. rewrite <- ?app_assoc. repeat split.
Qed.

(** The initialisation is recorded only when it is complete: on an SMY02
    [_fm_initialized] is set after the call exactly when it was set
    before or all three initialisation writes were accepted.  If one of
    them raises, the call returns [False] and the next call starts the
    initialisation again. *)
Theorem fm_init_needs_complete_sequence (s : St) (i : Instrument) (deviation : Z) :
  instrument (ctl s) = Some i ->
  is_smy02_of (ctl s) = true ->
  let h := wire (world s) in
  let accepted :=
    dev_write dev h "FM:INT 1.000E+3"
    && dev_write dev (h ++ [Sent "FM:INT 1.000E+3"]) "AF 1000"
    && dev_write dev (h ++ [Sent "FM:INT 1.000E+3"; Sent "AF 1000"]) "FM:ON" in
  let r := set_modulation_fm dev deviation s in
  _fm_initialized (ctl (state_of r)) = _fm_initialized (ctl s) || accepted /\
  (_fm_initialized (ctl s) = false -> accepted = false ->
   result_of r = Return false /\ fm_preamble (ctl (state_of r)) = fm_preamble (ctl s)).
Proof.
  intros Hi Hsmy h accepted. destruct s as [c w]. cbn [ctl world] in *.
  subst h accepted. cbv zeta. unfold set_modulation_fm, fm_preamble. exec Hi. rewrite Hsmy.
  destruct (_fm_initialized c) eqn:Hinit; exec Hi.
  - destruct (bool_decide (_modulation_mode c = Some FM)); exec Hi;
      destruct_writes dev Hi; cbn; rewrite ?Hinit; split; (reflexivity || discriminate).
  - destruct (dev_write dev (wire w) "FM:INT 1.000E+3"); exec Hi;
      [|cbn; rewrite ?Hinit; repeat split].
    rewrite <- ?app_assoc. cbn [app].
    destruct (dev_write dev (wire w ++ [Sent "FM:INT 1.000E+3"]) "AF 1000"); exec Hi;
      [|cbn; rewrite ?Hinit; repeat split].
    rewrite <- ?app_assoc. cbn [app].
    destruct (dev_write dev (wire w ++ [Sent "FM:INT 1.000E+3"; Sent "AF 1000"]) "FM:ON");
      exec Hi; [|cbn; rewrite ?Hinit; repeat split].
    destruct_writes dev Hi; cbn; split; (reflexivity || discriminate).
Qed.

(** On an identity other than SMY02 [set_modulation_am] cannot fail:
    each of its four writes has a handler of its own, so whatever the
    device does the call returns [True] and records AM. *)
Theorem set_modulation_am_generic_succeeds (s : St) (i : Instrument) :
  instrument (ctl s) = Some i ->
  is_smy02_of (ctl s) = false ->
  let r := set_modulation_am dev s in
  result_of r = Return true /\
  _modulation_mode (ctl (state_of r)) = Some AM /\
  wire (world (state_of r))
    = wire (world s) ++ map Sent ["FM:OFF"; "AM:ON"; "AM ON"; "AM:STAT ON"].
Proof.
  intros Hi Hsmy. destruct s as [c w]. cbn [ctl world] in *.
  cbv zeta. unfold set_modulation_am. exec Hi. rewrite Hsmy. exec Hi.
  destruct_writes dev Hi; cbn; rewrite <- ?app_assoc; repeat split.
Qed.

End ModulationState.

Lemma set_modulation_fm_smy02_commands_witness :
  let dev := simple_device smy02_idn (Some "0") in
  let s := state_of (set_modulation_am dev (connected_state dev)) in
  writes_accepted dev /\
  wire (world (state_of (set_modulation_fm dev 6250 s)))
    = wire (world s) ++ map Sent ["FM:INT 1.000E+3"; "AF 1000"; "FM:ON"; "FM 6250"].
Proof.
  intros dev s.
  assert (Hi : instrument (ctl s) = Some {| timeout := 5000 |}) by reflexivity.
  assert (Hs : is_smy02_of (ctl s) = true) by reflexivity.
  assert (Hw : writes_accepted dev) by (intros h cmd; reflexivity).
  split; [exact Hw|].
  destruct (set_modulation_fm_smy02_commands dev s _ 6250 Hi Hs Hw) as (_ & H & _).
  exact H.
Defined.

Lemma fm_init_needs_complete_sequence_witness :
  let dev := refusing_device smy02_idn "AF 1000" in
  let s := connected_state dev in
  is_smy02_of (ctl s) = true /\
  _fm_initialized (ctl (state_of (set_modulation_fm dev 6250 s))) = false.
Proof.
  intros dev s.
  assert (Hi : instrument (ctl s) = Some {| timeout := 5000 |}) by reflexivity.
  assert (Hs : is_smy02_of (ctl s) = true) by reflexivity.
  split; [exact Hs|].
  destruct (fm_init_needs_complete_sequence dev s _ 6250 Hi Hs) as (H & _).
  exact H.
Defined.

Lemma set_modulation_am_generic_succeeds_witness :
  let dev := refusing_device generic_idn "AM:ON" in
  let s := connected_state dev in
  is_smy02_of (ctl s) = false /\
  result_of (set_modulation_am dev s) = Return true.
Proof.
  intros dev s.
  assert (Hi : instrument (ctl s) = Some {| timeout := 5000 |}) by reflexivity.
  assert (Hs : is_smy02_of (ctl s) = false) by reflexivity.
  split; [exact Hs|].
  destruct (set_modulation_am_generic_succeeds dev s _ Hi Hs) as (H & _).
  exact H.
Defined.

(** ** Connecting, disconnecting, resetting *)

Section Link.

Variable dev : Device.

Lemma connect_keeps_modulation_state s :
  _fm_initialized (ctl (state_of (connect dev s))) = _fm_initialized (ctl s) /\
  _modulation_mode (ctl (state_of (connect dev s))) = _modulation_mode (ctl s).
Proof.
  destruct s as [c w]. unfold connect. unfold_prog.
  destruct (dev_open dev); [|split; reflexivity].
  unfold_prog. cbn [instrument set_instrument timeout].
  destruct (dev_query dev (wire w) 5000 "*IDN?"); split; reflexivity.
Qed.

(** [reset] writes [*RST] and nothing more; without instrument it
    returns [False] through its exception handler, without I/O. *)
Lemma reset_run (s : St) :
  let r := reset dev s in
  ctl (state_of r) = ctl s /\
  (instrument (ctl s) = None -> r = (Return false, s)) /\
  (instrument (ctl s) <> None ->
   result_of r = Return (dev_write dev (wire (world s)) "*RST") /\
   wire (world (state_of r)) = wire (world s) ++ [Sent "*RST"]).
Proof.
  cbv zeta. destruct s as [c w]. unfold reset. unfold_prog.
  destruct (instrument c) as [i|] eqn:Hi.
  - destruct (dev_write dev (wire w) "*RST"); cbn; repeat split; intros; congruence.
  - cbn. repeat split; intros; congruence.
Qed.

(** [_connect] of the Qt GUI leaves a controller that has not
    initialised FM. *)
Lemma qt_connect_new_controller (g : Qt.GUI) (c : Controller) :
  Qt.controller (state_of (Qt._connect dev g)) = Some c ->
  fm_preamble c = ["FM:INT 1.000E+3"; "AF 1000"; "FM:ON"] /\
  _modulation_mode c = None.
Proof.
  destruct g as [co e cn tr run pl idx lbw tm am af at_ sbw dl].
  destruct (connect_keeps_modulation_state {| ctl := new_controller; world := e |})
    as [Hf Hm].
  unfold Qt._connect, Qt._refresh_state, Qt._err, Qt.call, Qt.modify, Qt.get, bind, ret,
    state_of in *.
  cbn [Qt.controller Qt.env Qt.with_link Qt.with_connected Qt.show Qt.connected] in *.
  destruct (connect dev {| ctl := new_controller; world := e |}) as [[[]|] [c1 w1]];
    cbn [snd ctl world fst Qt.controller Qt.env Qt.with_link Qt.with_connected Qt.show
         Qt.connected negb orb] in *.
  - rewrite (bool_decide_eq_true_2 _ (ltac:(eauto) : is_Some (Some c1))).
    cbn [negb orb Qt.controller Qt.env Qt.with_link Qt.with_connected Qt.connected].
    destruct (get_device_state_run dev {| ctl := c1; world := w1 |}) as (st & w2 & ->).
    cbn. intros [= <-]. unfold fm_preamble. rewrite Hf, Hm. split; reflexivity.
  - intros [= <-]. unfold fm_preamble. rewrite Hf, Hm. split; reflexivity.
  - intros [= <-]. unfold fm_preamble. rewrite Hf, Hm. split; reflexivity.
Qed.

(** What the controller remembers.  A [disconnect] that returns forgets
    the modulation state, so after a disconnection and a new connection the
    first [set_modulation_fm] on an SMY02 initialises FM again; a
    [disconnect] that raises (because [close()] did) changes nothing: the
    instrument and the modulation state stay.  [connect] alone forgets
    nothing, and neither does [reset], which only writes [*RST]: after a
    reset of the device the controller still takes FM for initialised and
    the recorded mode for current.  Disconnecting twice is disconnecting
    once, and no message is exchanged.  The Qt GUI connects through a
    controller of its own making, so its [_connect] always starts from a
    forgotten modulation state. *)
Theorem reconnect_modulation_state (s : St) :
  let off := state_of (disconnect dev s) in
  world off = world s /\
  (result_of (disconnect dev s) = Return tt ->
   instrument (ctl off) = None /\
   disconnect dev off = (Return tt, off) /\
   (instrument (ctl s) <> None ->
    fm_preamble (ctl (state_of (connect dev off))) = ["FM:INT 1.000E+3"; "AF 1000"; "FM:ON"] /\
    _modulation_mode (ctl (state_of (connect dev off))) = None)) /\
  (result_of (disconnect dev s) = Raise -> off = s) /\
  fm_preamble (ctl (state_of (connect dev s))) = fm_preamble (ctl s) /\
  ctl (state_of (reset dev s)) = ctl s /\
  (instrument (ctl s) <> None ->
   wire (world (state_of (reset dev s))) = wire (world s) ++ [Sent "*RST"]) /\
  (forall (g : Qt.GUI) (c : Controller),
     Qt.controller (state_of (Qt._connect dev g)) = Some c ->
     fm_preamble c = ["FM:INT 1.000E+3"; "AF 1000"; "FM:ON"] /\
     _modulation_mode c = None).
Proof.
  cbv zeta.
  destruct (reset_run s) as (Hreset & _ & Hwire).
  destruct (connect_keeps_modulation_state s) as [Hf Hm].
  destruct (connect_keeps_modulation_state (state_of (disconnect dev s))) as [Hf' Hm'].
  assert (Hpre : fm_preamble (ctl (state_of (connect dev s))) = fm_preamble (ctl s))
    by (unfold fm_preamble; rewrite Hf, Hm; reflexivity).
  assert (Hpre' : fm_preamble (ctl (state_of (connect dev (state_of (disconnect dev s)))))
                  = fm_preamble (ctl (state_of (disconnect dev s))))
    by (unfold fm_preamble; rewrite Hf', Hm'; reflexivity).
  rewrite Hpre', Hm'. clear Hf Hm Hf' Hm' Hpre'.
  assert (Hw : instrument (ctl s) <> None ->
               wire (world (state_of (reset dev s))) = wire (world s) ++ [Sent "*RST"])
    by (intros Hi; apply Hwire, Hi).
  clear Hwire.
  enough (Hmain :
    world (state_of (disconnect dev s)) = world s /\
    (result_of (disconnect dev s) = Return tt ->
     instrument (ctl (state_of (disconnect dev s))) = None /\
     disconnect dev (state_of (disconnect dev s)) = (Return tt, state_of (disconnect dev s)) /\
     (instrument (ctl s) <> None ->
      fm_preamble (ctl (state_of (disconnect dev s)))
        = ["FM:INT 1.000E+3"; "AF 1000"; "FM:ON"] /\
      _modulation_mode (ctl (state_of (disconnect dev s))) = None)) /\
    (result_of (disconnect dev s) = Raise -> state_of (disconnect dev s) = s)).
  { destruct Hmain as (H1 & H2 & H3).
    repeat (split; [assumption|]). exact qt_connect_new_controller. }
  rewrite (disconnect_run dev s).
  destruct s as [c w]. cbn [ctl world].
  destruct (instrument c) as [i|] eqn:Hi.
  - destruct (dev_close dev (wire w)) eqn:Hclose; cbn [state_of result_of fst snd ctl world].
    + split; [reflexivity|]. split; [|intros Hr; discriminate Hr].
      intros _. split; [reflexivity|]. split; [|intros _; split; reflexivity].
      rewrite disconnect_run. reflexivity.
    + split; [reflexivity|]. split; [intros Hr; discriminate Hr|]. reflexivity.
  - cbn [state_of result_of fst snd ctl world].
    split; [reflexivity|]. split; [|intros Hr; discriminate Hr].
    intros _. split; [exact Hi|]. split; [|intros Hn; congruence].
    rewrite disconnect_run. cbn [ctl]. rewrite Hi. reflexivity.
Qed.

(** A connection that fails at the identification leaves the link open.
    When the resource opens but [*IDN?] raises, [connect] returns [False]
    and the identity stays as it was, but the instrument is set: later
    calls are not refused as on a disconnected controller, they write to
    the device.  When the resource does not open, nothing is changed. *)
Theorem failed_identification_keeps_link (s : St) :
  (dev_open dev = false -> connect dev s = (Return false, s)) /\
  (dev_open dev = true ->
   dev_query dev (wire (world s)) 5000 "*IDN?" = None ->
   let r := connect dev s in
   let h := wire (world s) ++ [Asked "*IDN?"] in
   result_of r = Return false /\
   instrument (ctl (state_of r)) = Some {| timeout := 5000 |} /\
   idn (ctl (state_of r)) = idn (ctl s) /\
   model (ctl (state_of r)) = model (ctl s) /\
   wire (world (state_of r)) = h /\
   wire (world (state_of (clear_status dev (state_of r)))) = h ++ [Sent "*CLS"] /\
   forall frequency,
     wire (world (state_of (set_frequency dev frequency (state_of r))))
     <> wire (world (state_of r))).
Proof.
  destruct s as [c w]. split.
  - intros Ho. unfold connect. unfold_prog. rewrite Ho. reflexivity.
  - intros Ho Hq. cbv zeta. cbn [world] in Hq.
    assert (Hrun : connect dev {| ctl := c; world := w |}
                   = (Return false,
                      {| ctl := set_instrument (Some {| timeout := 5000 |}) c;
                         world := log_wire (Asked "*IDN?") w |})).
    { unfold connect. unfold_prog. rewrite Ho. unfold_prog.
      cbn [instrument set_instrument timeout]. rewrite Hq. reflexivity. }
    rewrite Hrun. clear Hrun.
    set (c1 := set_instrument (Some {| timeout := 5000 |}) c).
    assert (Hi : instrument c1 = Some {| timeout := 5000 |}) by reflexivity.
    assert (Hidn : idn c1 = idn c) by reflexivity.
    assert (Hmodel : model c1 = model c) by reflexivity.
    clearbody c1. unfold_prog.
    split; [reflexivity|]. split; [exact Hi|]. split; [exact Hidn|].
    split; [exact Hmodel|]. split; [reflexivity|]. split.
    + rewrite (clear_status_run dev c1 _ _ Hi). reflexivity.
    + intros frequency.
      set (h := wire w ++ [Asked "*IDN?"]).
      assert (Hlen : forall l : list wire_event, (length h < length l)%nat -> l <> h).
      { intros l Hl E. rewrite E in Hl. lia. }
      unfold set_frequency. exec Hi. fold h.
      destruct (dev_write dev h _); exec Hi.
      * destruct (is_smy02_of c1); exec Hi.
        -- apply Hlen. rewrite length_app. cbn. lia.
        -- destruct (esr_is_zero _); apply Hlen; cbn; rewrite !length_app; cbn; lia.
      * apply Hlen. rewrite length_app. cbn. lia.
Qed.

(** Switching the output off is not verified.  [disable_output] reads no
    status: it returns [True] exactly when the writes of [OUTP OFF] and of
    [LEVEL:OFF] are accepted, whether or not the [*CLS] before them was,
    and every exchange it makes is a write. *)
Theorem disable_output_unverified (s : St) (i : Instrument) :
  instrument (ctl s) = Some i ->
  let h := wire (world s) ++ [Sent "*CLS"] in
  let r := disable_output dev s in
  result_of r = Return (dev_write dev h "OUTP OFF"
                        && dev_write dev (h ++ [Sent "OUTP OFF"]) "LEVEL:OFF") /\
  ctl (state_of r) = ctl s /\
  exists cmds,
    wire (world (state_of r)) = wire (world s) ++ map Sent cmds /\
    (result_of r = Return true -> cmds = ["*CLS"; "OUTP OFF"; "LEVEL:OFF"]).
Proof.
  intros Hi. destruct s as [c w]. cbn [ctl world] in *. cbv zeta.
  unfold disable_output. exec Hi.
  destruct (dev_write dev (wire w ++ [Sent "*CLS"]) "OUTP OFF"); exec Hi.
  - destruct (dev_write dev ((wire w ++ [Sent "*CLS"]) ++ [Sent "OUTP OFF"]) "LEVEL:OFF");
      exec Hi; (split; [reflexivity|]); (split; [reflexivity|]);
      exists ["*CLS"; "OUTP OFF"; "LEVEL:OFF"]; rewrite <- !app_assoc;
      (split; [reflexivity|]); reflexivity.
  - split; [reflexivity|]. split; [reflexivity|].
    exists ["*CLS"; "OUTP OFF"]. rewrite <- !app_assoc. split; [reflexivity|discriminate].
Qed.

End Link.

Lemma disable_output_unverified_witness :
  let dev := simple_device generic_idn (Some "4") in
  let s := connected_state dev in
  instrument (ctl s) = Some {| timeout := 5000 |} /\
  result_of (disable_output dev s) = Return true.
Proof.
  intros dev s.
  assert (Hi : instrument (ctl s) = Some {| timeout := 5000 |}) by reflexivity.
  split; [exact Hi|].
  destruct (disable_output_unverified dev s _ Hi) as (H & _). exact H.
Defined.

(** ** Reading the device state back *)

(** Membership in a list given by its elements. *)
Ltac in_list := cbn; repeat (first [left; reflexivity | right]).

Section Readback.

Variable dev : Device.
Variable py_float : string -> option Q.

Lemma _query_first_asks c queries :
  forall w, exists answer asked,
    _query_first dev queries {| ctl := c; world := w |}
    = (Return answer,
       {| ctl := c; world := {| wire := wire w ++ map Asked asked;
                                clock_ms := clock_ms w |} |}) /\
    sublist asked queries.
Proof.
  induction queries as [|q rest IH]; intros [h t].
  - exists None, []. cbn. rewrite app_nil_r. split; [reflexivity|constructor].
  - assert (Hnext : forall w1,
      wire w1 = h ++ [Asked q] -> clock_ms w1 = t ->
      exists answer asked,
        _query_first dev rest {| ctl := c; world := w1 |}
        = (Return answer,
           {| ctl := c; world := {| wire := h ++ map Asked asked; clock_ms := t |} |}) /\
        sublist asked (q :: rest)).
    { intros w1 Hw1 Ht1. destruct (IH w1) as (answer & asked & Hrun & Hsub).
      exists answer, (q :: asked). rewrite Hrun, Hw1, Ht1, <- app_assoc.
      split; [reflexivity|]. constructor. exact Hsub. }
    cbn [_query_first]. unfold_prog.
    destruct (instrument c) as [i|].
    + destruct (dev_query dev h (timeout i) q).
      * eexists _, [q]. split; [reflexivity|]. constructor. apply sublist_nil_l.
      * apply Hnext; reflexivity.
    + destruct (IH {| wire := h; clock_ms := t |}) as (answer & asked & Hrun & Hsub).
      exists answer, asked. cbn [wire clock_ms] in Hrun. rewrite Hrun.
      split; [reflexivity|]. apply sublist_cons. exact Hsub.
Qed.

Lemma read_state_asks c fields :
  forall state w, exists state' asked,
    read_state dev fields state {| ctl := c; world := w |}
    = (Return state',
       {| ctl := c; world := {| wire := wire w ++ map Asked asked;
                                clock_ms := clock_ms w |} |}) /\
    sublist asked (flat_map snd fields).
Proof.
  induction fields as [|[key queries] rest IH]; intros state [h t].
  - exists state, []. cbn. rewrite app_nil_r. split; [reflexivity|constructor].
  - cbn [read_state]. unfold try_except, bind.
    destruct (_query_first_asks c queries {| wire := h; clock_ms := t |})
      as (answer & asked1 & -> & Hsub1).
    cbn [wire clock_ms].
    destruct (IH (state_set key (or_na answer) state)
                {| wire := h ++ map Asked asked1; clock_ms := t |})
      as (state' & asked2 & -> & Hsub2).
    exists state', (asked1 ++ asked2). cbn [wire clock_ms flat_map snd].
    rewrite map_app, app_assoc. split; [reflexivity|].
    apply sublist_app; assumption.
Qed.

(** Reading the state back never writes.  Whatever the device does,
    [get_device_state] returns, leaves the controller record as it was,
    makes no write, and asks at most the ten read-back queries, each at
    most once and in the order of the list. *)
Theorem get_device_state_only_asks (s : St) :
  exists state asked,
    get_device_state dev s
    = (Return state,
       {| ctl := ctl s;
          world := {| wire := wire (world s) ++ map Asked asked;
                      clock_ms := clock_ms (world s) |} |}) /\
    sublist asked all_state_queries /\
    (instrument (ctl s) = None -> state = no_state /\ asked = []).
Proof.
  destruct s as [c w]. unfold get_device_state. unfold_prog.
  destruct (instrument c) as [i|] eqn:Hi.
  - repeat (rewrite Hi || (progress unfold_prog)).
    destruct (read_state_asks (set_instrument (Some {| timeout := 1000 |}) c)
                state_queries no_state w) as (state & asked & -> & Hsub).
    cbn. exists state, asked. split; [|split; [exact Hsub|discriminate]].
    f_equal. f_equal.
    destruct c as [ins idn0 model0 fi mm], i as [t]. cbn in *. subst ins. reflexivity.
  - exists no_state, []. cbn. rewrite app_nil_r. destruct w. repeat split.
    apply sublist_nil_l.
Qed.

(** A state that is not available.  When no read-back query is answered
    within the second that [get_device_state] allows, all ten are asked
    and every field is ["N/A"].  When every answer is blank, the first
    query of each field is taken as its answer: the fallbacks are not
    asked, and the empty text is shown as ["N/A"]. *)
Theorem device_state_not_available (s : St) (i : Instrument) :
  instrument (ctl s) = Some i ->
  ((forall h q, In q all_state_queries -> dev_query dev h 1000 q = None) ->
   result_of (get_device_state dev s) = Return no_state /\
   wire (world (state_of (get_device_state dev s)))
     = wire (world s) ++ map Asked all_state_queries) /\
  ((forall h q, In q all_state_queries ->
      exists resp, dev_query dev h 1000 q = Some resp /\ PyStr.strip resp = "") ->
   result_of (get_device_state dev s) = Return no_state /\
   wire (world (state_of (get_device_state dev s)))
     = wire (world s) ++ map Asked ["RF?"; "LEVEL?"; "FM?"; "AF?"]).
Proof.
  intros Hi. destruct s as [c [h t]]. cbn [ctl world wire] in *.
  set (c1 := set_instrument (Some {| timeout := 1000 |}) c).
  assert (Hi1 : instrument c1 = Some {| timeout := 1000 |}) by reflexivity.
  assert (Hrun : forall r w',
    read_state dev state_queries no_state {| ctl := c1; world := {| wire := h; clock_ms := t |} |}
      = (Return r, {| ctl := c1; world := w' |}) ->
    result_of (get_device_state dev {| ctl := c; world := {| wire := h; clock_ms := t |} |})
      = Return r /\
    wire (world (state_of (get_device_state dev
                             {| ctl := c; world := {| wire := h; clock_ms := t |} |})))
      = wire w').
  { intros r w' Hr. unfold get_device_state.
    repeat (rewrite Hi || (progress unfold_prog)). fold c1. rewrite Hr.
    cbn. rewrite ?Hi1. split; reflexivity. }
  clearbody c1. split.
  - intros Hq. apply Hrun with (w' := {| wire := h ++ map Asked all_state_queries;
                                         clock_ms := t |}).
    cbn [read_state state_queries _query_first]. unfold_prog.
    repeat (rewrite Hi1 || (rewrite Hq by in_list) || (progress unfold_prog)
            || (progress cbn [timeout or_na state_set])).
    rewrite <- !app_assoc. reflexivity.
  - intros Hq. apply Hrun with (w' := {| wire := h ++ map Asked ["RF?"; "LEVEL?"; "FM?"; "AF?"];
                                         clock_ms := t |}).
    cbn [read_state state_queries _query_first]. unfold_prog.
    repeat (rewrite Hi1 || (progress unfold_prog)
            || (progress cbn [timeout or_na state_set String.eqb])
            || match goal with
               | |- context [dev_query dev ?h0 1000 ?q] =>
                   let resp := fresh "resp" in
                   let E := fresh "E" in
                   let Es := fresh "Es" in
                   destruct (Hq h0 q ltac:(in_list)) as (resp & E & Es);
                   rewrite E; clear E
               | Es : PyStr.strip ?r = "" |- context [PyStr.strip ?r] => rewrite Es
               end).
    rewrite <- !app_assoc. reflexivity.
Qed.

(** The numbers read back.  [get_frequency] and [get_amplitude] take the
    first field of the answer to [RF?], respectively [LEVEL?], that reads
    as a number, whatever stands before or after it, and ask nothing
    more. *)
Theorem readback_takes_first_number
    (s : St) (i : Instrument) (resp : string) (before after : list string)
    (tok : string) (val : Q) :
  instrument (ctl s) = Some i ->
  PyStr.split_ws (PyStr.strip resp) = before ++ tok :: after ->
  Forall (fun t => py_float t = None) before ->
  py_float tok = Some val ->
  (dev_query dev (wire (world s)) (timeout i) "RF?" = Some resp ->
   result_of (get_frequency dev py_float s) = Return (Some val) /\
   wire (world (state_of (get_frequency dev py_float s))) = wire (world s) ++ [Asked "RF?"]) /\
  (dev_query dev (wire (world s)) (timeout i) "LEVEL?" = Some resp ->
   result_of (get_amplitude dev py_float s) = Return (Some val) /\
   wire (world (state_of (get_amplitude dev py_float s)))
     = wire (world s) ++ [Asked "LEVEL?"]).
Proof.
  intros Hi Hsplit Hbefore Htok. destruct s as [c w]. cbn [ctl world] in *.
  assert (Hfirst : first_float py_float (PyStr.split_ws (PyStr.strip resp)) = Some val).
  { rewrite Hsplit. clear Hsplit.
    induction Hbefore as [|t before Ht _ IH]; cbn; [rewrite Htok|rewrite Ht]; auto. }
  split; intros Hq.
  - unfold get_frequency. exec Hi. rewrite Hq. exec Hi. rewrite Hfirst.
    split; reflexivity.
  - unfold get_amplitude. exec Hi. rewrite Hq. exec Hi. rewrite Hfirst.
    split; reflexivity.
Qed.

(** When nothing reads as a number.  Without an answer to the first
    query, [get_frequency] falls back on [SOUR:FREQ?] and then [FREQ?],
    [get_amplitude] on [SOUR:POW?] and then [POW?]; with no answer at all
    they return [None] after three queries.  On a controller without
    instrument they return [None] through their exception handlers,
    without I/O, although they have no guard. *)
Theorem readback_fallback (s : St) :
  (instrument (ctl s) = None ->
   get_frequency dev py_float s = (Return None, s) /\
   get_amplitude dev py_float s = (Return None, s)) /\
  (instrument (ctl s) <> None ->
   (forall h t q,
      In q ["RF?"; "SOUR:FREQ?"; "FREQ?"; "LEVEL?"; "SOUR:POW?"; "POW?"] ->
      dev_query dev h t q = None) ->
   result_of (get_frequency dev py_float s) = Return None /\
   wire (world (state_of (get_frequency dev py_float s)))
     = wire (world s) ++ map Asked ["RF?"; "SOUR:FREQ?"; "FREQ?"] /\
   result_of (get_amplitude dev py_float s) = Return None /\
   wire (world (state_of (get_amplitude dev py_float s)))
     = wire (world s) ++ map Asked ["LEVEL?"; "SOUR:POW?"; "POW?"]).
Proof.
  destruct s as [c w]. cbn [ctl world]. split.
  - intros Hi. unfold get_frequency, get_amplitude. cbn [fallback_float].
    repeat (rewrite Hi || (progress unfold_prog)). split; reflexivity.
  - intros Hi Hq. destruct (instrument c) as [i|] eqn:Hi'; [clear Hi|contradiction].
    unfold get_frequency, get_amplitude. cbn [fallback_float].
    repeat (rewrite Hi' || (rewrite Hq by in_list) || (progress unfold_prog)).
    rewrite <- !app_assoc. repeat split.
Qed.

End Readback.

Lemma device_state_not_available_witness :
  let dev := mute_device smy02_idn in
  let s := connected_state dev in
  result_of (get_device_state dev s) = Return no_state /\
  wire (world (state_of (get_device_state dev s)))
    = wire (world s) ++ map Asked all_state_queries.
Proof.
  intros dev s.
  assert (Hi : instrument (ctl s) = Some {| timeout := 5000 |}) by reflexivity.
  destruct (device_state_not_available dev s _ Hi) as (H & _).
  apply H. intros h q Hq. cbn in Hq.
  repeat (destruct Hq as [<-|Hq]; [reflexivity|]). contradiction.
Defined.

Lemma readback_takes_first_number_witness :
  let dev := echo_device "RF  144000000 Hz" in
  let s := connected_state dev in
  result_of (get_frequency dev int_float s) = Return (Some (inject_Z 144000000)).
Proof.
  intros dev s.
  assert (Hi : instrument (ctl s) = Some {| timeout := 5000 |}) by reflexivity.
  destruct (readback_takes_first_number dev int_float s _ "RF  144000000 Hz"
              ["RF"] ["Hz"] "144000000" (inject_Z 144000000) Hi eq_refl
              ltac:(repeat constructor) eq_refl) as (H & _).
  destruct (H eq_refl) as [Hr _]. exact Hr.
Defined.

Lemma readback_fallback_witness :
  let dev := mute_device smy02_idn in
  let s := connected_state dev in
  result_of (get_frequency dev int_float s) = Return None /\
  wire (world (state_of (get_frequency dev int_float s)))
    = wire (world s) ++ map Asked ["RF?"; "SOUR:FREQ?"; "FREQ?"].
Proof.
  intros dev s.
  destruct (readback_fallback dev int_float s) as (_ & H).
  destruct (H ltac:(discriminate)) as (Hr & Hw & _).
  - intros h t q Hq. cbn in Hq.
    repeat (destruct Hq as [<-|Hq]; [reflexivity|]). contradiction.
  - split; [exact Hr|exact Hw].
Defined.

Lemma failed_identification_keeps_link_witness :
  let dev := {| dev_open := true; dev_write := fun _ _ => true;
                dev_query := fun _ _ _ => None;
                dev_close := fun _ => true |} in
  result_of (connect dev fresh_state) = Return false /\
  instrument (ctl (state_of (connect dev fresh_state))) = Some {| timeout := 5000 |}.
Proof.
  intros dev.
  destruct (failed_identification_keeps_link dev fresh_state) as (_ & H).
  destruct (H eq_refl eq_refl) as (Hr & Hi & _). split; [exact Hr|exact Hi].
Defined.

(** * Further properties of the sweep generator *)

(** Where a descending sweep ends. *)
Lemma descending_last_bounds (spec : SweepSpec) :
  (0 < sweep_step spec)%Q ->
  (sweep_stop spec < sweep_start spec)%Q ->
  let n := (Z.to_nat (Qfloor ((sweep_start spec - sweep_stop spec) / sweep_step spec
                              + (1 # 10))%Q) + 1)%nat in
  (sweep_stop spec - sweep_step spec / 10
     <= sweep_start spec - inject_Z (Z.of_nat (n - 1)) * sweep_step spec)%Q /\
  (sweep_start spec - inject_Z (Z.of_nat n) * sweep_step spec
     < sweep_stop spec - sweep_step spec / 10)%Q.
Proof.
  intros Hstep Hdesc n. subst n.
  set (start := sweep_start spec) in *. set (stop := sweep_stop spec) in *.
  set (step := sweep_step spec) in *.
  set (X := ((start - stop) / step + (1 # 10))%Q).
  assert (HX : (X * step == start - stop + step / 10)%Q) by (unfold X; field; lra).
  assert (Hdiv : (0 <= (start - stop) / step)%Q)
    by (apply Qle_shift_div_l; [exact Hstep|lra]).
  assert (Hm : 0 <= Qfloor X)
    by (change 0 with (Qfloor 0); apply Qfloor_resp_le; unfold X; lra).
  replace (Z.of_nat (Z.to_nat (Qfloor X) + 1 - 1)) with (Qfloor X) by lia.
  replace (Z.of_nat (Z.to_nat (Qfloor X) + 1)) with (Qfloor X + 1) by lia.
  pose proof (Qfloor_le X) as Hle. pose proof (Qlt_floor X) as Hlt.
  apply (Qmult_le_compat_r _ _ step) in Hle; [|lra].
  apply (Qmult_lt_compat_r _ _ step) in Hlt; [|exact Hstep].
  set (p := (inject_Z (Qfloor X) * step)%Q) in *.
  set (p' := (inject_Z (Qfloor X + 1) * step)%Q) in *.
  set (q := (X * step)%Q) in *. clearbody p p' q. split; lra.
Qed.

(** A sweep whose stop is below its start runs downwards.  For a step
    above 0 the forward list has [floor((start - stop)/step + 1/10) + 1]
    entries; it begins at the start and ends at [start - (n - 1) * step]
    (both rounded to six decimals), the last point that is not more than
    a tenth of a step below the stop. *)
Theorem descending_sweep_forward
    (make : Q -> Q -> PlaylistEntry) (spec : SweepSpec) (fuel : nat) :
  (forall f l, frequency (make f l) = f) ->
  (0 < sweep_step spec)%Q ->
  (sweep_stop spec < sweep_start spec)%Q ->
  let n := (Z.to_nat (Qfloor ((sweep_start spec - sweep_stop spec) / sweep_step spec
                              + (1 # 10))%Q) + 1)%nat in
  (n < fuel)%nat ->
  exists forward,
    sweep_forward fuel make spec = Some forward /\
    length forward = n /\
    option_map frequency (head forward) = Some (round6 (sweep_start spec)) /\
    option_map frequency (last forward)
      = Some (round6 (sweep_start spec - inject_Z (Z.of_nat (n - 1)) * sweep_step spec)%Q) /\
    (sweep_stop spec - sweep_step spec / 10
       <= sweep_start spec - inject_Z (Z.of_nat (n - 1)) * sweep_step spec)%Q /\
    (sweep_start spec - inject_Z (Z.of_nat n) * sweep_step spec
       < sweep_stop spec - sweep_step spec / 10)%Q.
Proof.
  intros Hmake Hstep Hdesc n Hfuel.
  destruct (descending_last_bounds spec Hstep Hdesc) as [Hlow Hhigh].
  assert (Hb : Qle_bool (sweep_start spec) (sweep_stop spec) = false).
  { destruct (Qle_bool (sweep_start spec) (sweep_stop spec)) eqn:Hle; [|reflexivity].
    apply Qle_bool_iff in Hle. lra. }
  assert (Hcount : sweep_count spec = n) by (unfold sweep_count; rewrite Hb; reflexivity).
  pose proof (sweep_forward_run make spec fuel Hstep) as Hrun.
  rewrite Hcount, Hb in Hrun. specialize (Hrun Hfuel).
  eexists. split; [exact Hrun|].
  assert (Hn : n = S (n - 1)) by (subst n; lia).
  split; [|split; [|split; [|split; [exact Hlow|exact Hhigh]]]].
  - rewrite length_map, length_seq. reflexivity.
  - rewrite Hn. cbn [seq map head option_map]. unfold sweep_point. rewrite Hmake.
    f_equal. apply round6_comp. change (inject_Z (Z.of_nat 0)) with 0%Q. ring.
  - rewrite Hn at 1. rewrite last_map_seq. cbn [option_map]. unfold sweep_point.
    rewrite Hmake. reflexivity.
Qed.

Lemma descending_sweep_forward_witness :
  let spec := {| sweep_start := 111; sweep_stop := 108; sweep_step := 1;
                 sweep_base_level := -20; sweep_alt_enable := false;
                 sweep_alt_level := -30; sweep_toggle_every := 1;
                 sweep_replace := true; sweep_reverse := false |} in
  (sweep_stop spec < sweep_start spec)%Q /\
  exists forward,
    sweep_forward 10 (plain_entry "12.5 kHz") spec = Some forward /\
    length forward = 4%nat.
Proof.
  intros spec.
  assert (Hstep : (0 < sweep_step spec)%Q) by reflexivity.
  assert (Hdesc : (sweep_stop spec < sweep_start spec)%Q) by reflexivity.
  split; [exact Hdesc|].
  destruct (descending_sweep_forward (plain_entry "12.5 kHz") spec 10
              (fun _ _ => eq_refl) Hstep Hdesc)
    as (forward & Hrun & Hlen & _).
  - vm_compute. lia.
  - exists forward. split; [exact Hrun|exact Hlen].
Defined.

Lemma odd_of_nat (j : nat) : Z.odd (Z.of_nat j) = Nat.odd j.
Proof.
  induction j as [|j IH]; [reflexivity|].
  rewrite Nat2Z.inj_succ, Z.odd_succ, Nat.odd_succ.
  rewrite <- Z.negb_odd, IH, Nat.negb_odd. reflexivity.
Qed.

(** The levels of a sweep.  With the alternate level enabled the entries
    take the base level and the alternate level in blocks of
    [toggle_every] entries, beginning with the base level; with
    [toggle_every = 1] they alternate strictly.  Without it every entry
    has the base level. *)
Theorem sweep_levels_toggle_in_blocks
    (make : Q -> Q -> PlaylistEntry) (spec : SweepSpec) (fuel : nat) :
  (forall f l, level (make f l) = l) ->
  (0 < sweep_step spec)%Q ->
  (sweep_count spec < fuel)%nat ->
  exists forward,
    sweep_forward fuel make spec = Some forward /\
    length forward = sweep_count spec /\
    forall (j : nat) (e : PlaylistEntry),
      forward !! j = Some e ->
      (sweep_alt_enable spec = false -> level e = sweep_base_level spec) /\
      (sweep_alt_enable spec = true ->
       level e = if Z.odd (Z.of_nat j / sweep_toggle_every spec)
                 then sweep_alt_level spec else sweep_base_level spec) /\
      (sweep_alt_enable spec = true -> sweep_toggle_every spec = 1 ->
       level e = if Nat.odd j then sweep_alt_level spec else sweep_base_level spec).
Proof.
  intros Hmake Hstep Hfuel.
  rewrite (sweep_forward_run make spec fuel Hstep Hfuel).
  eexists. split; [reflexivity|]. split; [rewrite length_map, length_seq; reflexivity|].
  intros j e Hj.
  rewrite list_lookup_fmap in Hj.
  destruct (seq 0 (sweep_count spec) !! j) as [k|] eqn:Hk; [|discriminate].
  apply lookup_seq in Hk. destruct Hk as [-> _]. cbn in Hj. injection Hj as <-.
  unfold sweep_point. rewrite Hmake. unfold sweep_level. cbn [Nat.add].
  rewrite Z.add_0_l.
  assert (Hodd : forall x, (x mod 2 =? 1) = Z.odd x).
  { intros x. rewrite Zmod_odd. destruct (Z.odd x); reflexivity. }
  split; [intros ->; reflexivity|]. split.
  - intros ->. rewrite Hodd. reflexivity.
  - intros -> ->. rewrite Hodd, Z.div_1_r.
    rewrite odd_of_nat. reflexivity.
Qed.

Lemma sweep_levels_toggle_in_blocks_witness :
  let spec := {| sweep_start := 108; sweep_stop := 111; sweep_step := 1;
                 sweep_base_level := -20; sweep_alt_enable := true;
                 sweep_alt_level := -30; sweep_toggle_every := 1;
                 sweep_replace := true; sweep_reverse := false |} in
  exists forward,
    sweep_forward 10 (plain_entry "12.5 kHz") spec = Some forward /\
    length forward = 4%nat.
Proof.
  intros spec.
  destruct (sweep_levels_toggle_in_blocks (plain_entry "12.5 kHz") spec 10
              (fun _ _ => eq_refl) eq_refl)
    as (forward & Hrun & Hlen & _).
  - vm_compute. lia.
  - exists forward. split; [exact Hrun|exact Hlen].
Defined.

(** A playlist generated back and forth loops smoothly.  Followed by its
    own first entry, as it is when the hop index wraps, the list of the
    Qt generator reads the same in both directions: the way down mirrors
    the way up, and neither end is repeated. *)
Theorem ping_pong_cycle_is_symmetric (forward : list PlaylistEntry) :
  let cycle := ping_pong true forward ++ firstn 1 forward in
  rev cycle = cycle.
Proof.
  cbv zeta. unfold ping_pong. cbn [andb].
  destruct (2 <? length forward)%nat eqn:Hlen.
  - apply Nat.ltb_lt in Hlen.
    destruct (first_middle_last forward Hlen) as (a & mid & z & -> & _).
    rewrite interior_middle. cbn [firstn take].
    rewrite !rev_app_distr. cbn [rev app]. rewrite !rev_app_distr, rev_involutive.
    cbn [rev app]. rewrite <- !app_assoc. reflexivity.
  - apply Nat.ltb_ge in Hlen.
    destruct forward as [|a [|b [|c l]]]; try reflexivity. cbn in Hlen. lia.
Qed.

(** * Further properties of the playlist editor (tkinter GUI) *)

Section TkEdits.

Import Tk.

Lemma live_mutate f g : live (mutate f g) = f (live g).
Proof. unfold live, deref, mutate. cbn. rewrite lookup_insert_eq. reflexivity. Qed.

Lemma two_from {A} (l : list A) (i : nat) :
  (S i < length l)%nat ->
  exists pre a b rest, l = pre ++ a :: b :: rest /\ length pre = i.
Proof.
  revert l. induction i as [|i IH]; intros l Hlen.
  - destruct l as [|a [|b rest]]; cbn in Hlen; try lia.
    exists [], a, b, rest. split; reflexivity.
  - destruct l as [|x l]; cbn in Hlen; [lia|].
    destruct (IH l ltac:(lia)) as (pre & a & b & rest & -> & Hpre).
    exists (x :: pre), a, b, rest. cbn. rewrite Hpre. split; reflexivity.
Qed.

(** Swapping two neighbours, in either order of the indices. *)
Lemma swap_adjacent (pre rest : list PlaylistEntry) (a b : PlaylistEntry) (i : nat) :
  i = length pre ->
  swap i (i + 1) (pre ++ a :: b :: rest) = pre ++ b :: a :: rest /\
  swap (i + 1) i (pre ++ a :: b :: rest) = pre ++ b :: a :: rest.
Proof.
  intros ->. unfold swap.
  assert (H1 : (pre ++ a :: b :: rest) !! length pre = Some a)
    by (apply list_lookup_middle; reflexivity).
  assert (H2 : (pre ++ a :: b :: rest) !! (length pre + 1)%nat = Some b).
  { rewrite lookup_app_r by lia.
    replace (length pre + 1 - length pre)%nat with 1%nat by lia. reflexivity. }
  rewrite H1, H2. split.
  - rewrite (insert_app_r_alt pre _ (length pre)) by lia. rewrite Nat.sub_diag. simpl.
    rewrite (insert_app_r_alt pre _ (length pre + 1)) by lia.
    replace (length pre + 1 - length pre)%nat with 1%nat by lia. reflexivity.
  - rewrite (insert_app_r_alt pre _ (length pre + 1)) by lia.
    replace (length pre + 1 - length pre)%nat with 1%nat by lia. simpl.
    rewrite (insert_app_r_alt pre _ (length pre)) by lia. rewrite Nat.sub_diag.
    reflexivity.
Qed.

(** Moving an entry.  "Move up" on a selected entry that is not the
    first exchanges it with the entry before it and changes nothing else:
    the playlist keeps its entries and its length.  "Move down" on the
    entry at its new place puts the playlist back as it was. *)
Theorem move_up_then_down_restores (g : GUI) (idx : nat) :
  (0 < idx)%nat ->
  (idx < length (live g))%nat ->
  let up := _move_playlist_up (Some idx) g in
  let down := _move_playlist_down (Some (idx - 1)%nat) (state_of up) in
  result_of up = Return tt /\
  result_of down = Return tt /\
  live (state_of up) !! (idx - 1)%nat = live g !! idx /\
  live (state_of up) !! idx = live g !! (idx - 1)%nat /\
  (forall k, k <> idx -> k <> (idx - 1)%nat -> live (state_of up) !! k = live g !! k) /\
  live (state_of up) ≡ₚ live g /\
  live (state_of down) = live g.
Proof.
  intros Hpos Hlen.
  destruct (two_from (live g) (idx - 1)) as (pre & a & b & rest & Hl & Hpre);
    [lia|].
  destruct (swap_adjacent pre rest a b (idx - 1) (eq_sym Hpre)) as [Hs1 _].
  destruct (swap_adjacent pre rest b a (idx - 1) (eq_sym Hpre)) as [_ Hs2].
  replace (idx - 1 + 1)%nat with idx in Hs1, Hs2 by lia.
  assert (Hup : _move_playlist_up (Some idx) g
                = (Return tt, mutate (swap (idx - 1) idx) g)).
  { unfold _move_playlist_up, bind, get, modify, ret.
    destruct (Nat.eqb_spec idx 0) as [->|_]; [lia|].
    destruct (Nat.ltb_spec idx (length (live g))) as [_|Hge]; [reflexivity|lia]. }
  cbv zeta. rewrite Hup. cbn [state_of result_of fst snd].
  assert (Hlive1 : live (mutate (swap (idx - 1) idx) g) = pre ++ b :: a :: rest)
    by (rewrite live_mutate, Hl; exact Hs1).
  assert (Hdown : _move_playlist_down (Some (idx - 1)%nat) (mutate (swap (idx - 1) idx) g)
                  = (Return tt,
                     mutate (swap idx (idx - 1)) (mutate (swap (idx - 1) idx) g))).
  { unfold _move_playlist_down, bind, get, modify, ret. rewrite Hlive1.
    destruct (Z.leb_spec (Z.of_nat (length (pre ++ b :: a :: rest)) - 1)
                (Z.of_nat (idx - 1))) as [Hle|_].
    - rewrite length_app in Hle. cbn [length] in Hle. lia.
    - replace (idx - 1 + 1)%nat with idx by lia. reflexivity. }
  rewrite Hdown. cbn [state_of result_of fst snd].
  split; [reflexivity|]. split; [reflexivity|].
  rewrite (live_mutate (swap idx (idx - 1))), Hlive1, Hs2, Hl.
  assert (Hidx : idx = (length pre + 1)%nat) by lia.
  split; [|split; [|split; [|split; [|reflexivity]]]].
  - rewrite <- Hpre, !list_lookup_middle by reflexivity.
    rewrite Hidx, lookup_app_r by lia.
    replace (length pre + 1 - length pre)%nat with 1%nat by lia. reflexivity.
  - rewrite <- Hpre, (list_lookup_middle pre (b :: rest) a) by reflexivity.
    rewrite Hidx, lookup_app_r by lia.
    replace (length pre + 1 - length pre)%nat with 1%nat by lia. reflexivity.
  - intros k Hk1 Hk2. destruct (Nat.lt_ge_cases k (length pre)) as [Hlt|Hge].
    + rewrite !lookup_app_l by exact Hlt. reflexivity.
    + rewrite !lookup_app_r by exact Hge.
      destruct (k - length pre)%nat as [|[|m]] eqn:Hm; [lia|lia|reflexivity].
  - apply Permutation_app_head. apply perm_swap.
Qed.

Lemma move_up_then_down_restores_witness :
  let g := connected_to (simple_device smy02_idn (Some "0")) three_entries in
  live (state_of (_move_playlist_down (Some 1%nat)
                   (state_of (_move_playlist_up (Some 2%nat) g))))
  = live g.
Proof.
  intros g.
  destruct (move_up_then_down_restores g 2) as (_ & _ & _ & _ & _ & _ & H).
  - lia.
  - vm_compute. lia.
  - exact H.
Defined.

(** Cloning an entry.  "Clone" puts a copy of the selected entry right
    after it, named after it with [" (copy)"] appended and otherwise
    equal, and moves nothing else; removing the copy gives the playlist
    back. *)
Theorem clone_then_remove_restores (g : GUI) (idx : nat) (source : PlaylistEntry) :
  live g !! idx = Some source ->
  let cloned := _clone_selected_playlist_entry (Some idx) g in
  let removed := _remove_from_playlist (Some (idx + 1)%nat) (state_of cloned) in
  let copy := {| name := name source +:+ " (copy)"; frequency := frequency source;
                 level := level source; bandwidth := bandwidth source |} in
  result_of cloned = Return tt /\
  result_of removed = Return tt /\
  length (live (state_of cloned)) = (length (live g) + 1)%nat /\
  live (state_of cloned) !! (idx + 1)%nat = Some copy /\
  (forall k, (k <= idx)%nat -> live (state_of cloned) !! k = live g !! k) /\
  (forall k, (idx < k)%nat -> live (state_of cloned) !! (k + 1)%nat = live g !! k) /\
  live (state_of removed) = live g.
Proof.
  intros Hsrc. cbv zeta.
  set (copy := {| name := name source +:+ " (copy)"; frequency := frequency source;
                  level := level source; bandwidth := bandwidth source |}).
  pose proof (lookup_lt_Some _ _ _ Hsrc) as Hlen.
  set (l := live g) in *.
  assert (Hclone : _clone_selected_playlist_entry (Some idx) g
                   = (Return tt,
                      mutate (fun l => take (idx + 1) l ++ copy :: drop (idx + 1) l) g)).
  { unfold _clone_selected_playlist_entry, bind, get, modify, option_lift. fold l.
    rewrite Hsrc. reflexivity. }
  rewrite Hclone. cbn [state_of result_of fst snd].
  assert (Hlive1 : live (mutate (fun l => take (idx + 1) l ++ copy :: drop (idx + 1) l) g)
                   = take (idx + 1) l ++ copy :: drop (idx + 1) l)
    by (rewrite live_mutate; reflexivity).
  assert (Htake : length (take (idx + 1) l) = (idx + 1)%nat)
    by (rewrite length_take; lia).
  assert (Hremove :
    _remove_from_playlist (Some (idx + 1)%nat)
      (mutate (fun l => take (idx + 1) l ++ copy :: drop (idx + 1) l) g)
    = (Return tt,
       mutate (delete (idx + 1)%nat)
         (mutate (fun l => take (idx + 1) l ++ copy :: drop (idx + 1) l) g))).
  { unfold _remove_from_playlist, bind, get, modify. rewrite Hlive1.
    destruct (Nat.ltb_spec (idx + 1)
                (length (take (idx + 1) l ++ copy :: drop (idx + 1) l))) as [_|Hge];
      [reflexivity|].
    rewrite length_app, Htake in Hge. cbn [length] in Hge. lia. }
  rewrite Hremove. cbn [state_of result_of fst snd].
  rewrite (live_mutate (delete (idx + 1)%nat)), Hlive1.
  split; [reflexivity|]. split; [reflexivity|].
  split; [|split; [|split; [|split]]].
  - rewrite length_app, Htake. cbn [length]. rewrite length_drop. lia.
  - apply list_lookup_middle. symmetry. exact Htake.
  - intros k Hk. rewrite lookup_app_l by (rewrite Htake; lia).
    apply lookup_take_lt. lia.
  - intros k Hk. rewrite lookup_app_r by (rewrite Htake; lia). rewrite Htake.
    replace (k + 1 - (idx + 1))%nat with (S (k - (idx + 1))) by lia.
    change ((copy :: drop (idx + 1) l) !! S (k - (idx + 1)))
      with (drop (idx + 1) l !! (k - (idx + 1))%nat).
    rewrite lookup_drop. f_equal. lia.
  - rewrite <- Htake at 1. rewrite delete_middle. apply take_drop.
Qed.

Lemma clone_then_remove_restores_witness :
  let g := connected_to (simple_device smy02_idn (Some "0")) three_entries in
  live (state_of (_remove_from_playlist (Some 2%nat)
                   (state_of (_clone_selected_playlist_entry (Some 1%nat) g))))
  = live g.
Proof.
  intros g.
  destruct (clone_then_remove_restores g 1 (entry_at 145) eq_refl)
    as (_ & _ & _ & _ & _ & _ & H).
  exact H.
Defined.

End TkEdits.

(** * Further properties of the hopping schedulers *)

Lemma normalize_bandwidth_known (bw : string) :
  is_Some (bandwidth_lookup BANDWIDTHS (normalize_bandwidth bw)).
Proof.
  unfold normalize_bandwidth.
  destruct (bandwidth_lookup BANDWIDTHS bw) as [dv|] eqn:Hbw.
  - rewrite Hbw. eauto.
  - cbn. eauto.
Qed.


(** A step through a controller call that returns. *)
Ltac returns_step lem :=
  match goal with
  | |- context [?f {| ctl := ?c; world := ?w |}] =>
      let ok := fresh "ok" in
      let c' := fresh "c" in
      let w' := fresh "w" in
      let E := fresh "E" in
      destruct (lem {| ctl := c; world := w |}) as (ok & [c' w'] & E);
      rewrite E; clear E
  end.

Section QtHops.

Import Qt.

Variable dev : Device.
Variable float_repr : Q -> string.

Ltac qt_run :=
  cbv beta iota zeta delta [bind ret raise get modify call option_lift _warn _err];
  cbn [controller env connected transmitting playlist_running playlist current_idx
       _hop_last_bw hop_timer chk_auto_mod am_from_mhz am_to_mhz selected_bw dialogs
       with_link with_transmitting with_hopping with_playlist with_connected show
       ctl world negb andb orb].

(** One tick of the hop timer. *)
Lemma hop_once_run (g : GUI) :
  qt_hop_ready g ->
  exists g',
    _hop_once dev float_repr g = (Return tt, g') /\
    playlist g' = playlist g /\
    current_idx g' = ((current_idx g + 1) mod length (playlist g))%nat /\
    selected_bw g' = selected_bw g /\
    playlist_running g' = true /\
    is_Some (controller g').
Proof.
  intros (Hrun & [c Hc] & Hidx & [dv Hdv]).
  destruct g as [co e cn tr run pl idx lbw tm am af at_ sbw dl].
  cbn [playlist_running controller current_idx playlist selected_bw] in Hrun, Hc, Hidx, Hdv.
  subst run co.
  destruct (lookup_lt_is_Some_2 pl idx Hidx) as [entry Hentry].
  assert (Hpl : bool_decide (pl = []) = false).
  { apply bool_decide_eq_false_2. intros ->. cbn in Hidx. lia. }
  destruct (normalize_bandwidth_known (bandwidth entry)) as [dn Hdn].
  unfold _hop_once, _apply_modulation_for_frequency. qt_run.
  rewrite (bool_decide_eq_true_2 _ (ltac:(eauto) : is_Some (Some c))).
  rewrite Hpl, Hentry. qt_run.
  returns_step (set_frequency_returns dev (hz_of_mhz (frequency entry))). qt_run.
  returns_step (set_amplitude_returns dev float_repr (level entry)). qt_run.
  destruct am; qt_run.
  - destruct cn; qt_run.
    + rewrite (bool_decide_eq_true_2 _ (ltac:(eauto) : is_Some (Some c1))). qt_run.
      destruct (Qle_bool _ _ && Qle_bool _ _); qt_run.
      * returns_step (set_modulation_am_returns dev). qt_run.
        destruct ok1; qt_run;
          (destruct tr; qt_run;
           [|returns_step (enable_output_returns dev); qt_run; destruct ok1; qt_run]);
          eexists; (split; [reflexivity|]); cbn; eauto 10.
      * rewrite Hdv. qt_run.
        returns_step (set_modulation_fm_returns dev dv). qt_run.
        destruct ok1; qt_run;
          (destruct tr; qt_run;
           [|returns_step (enable_output_returns dev); qt_run; destruct ok1; qt_run]);
          eexists; (split; [reflexivity|]); cbn; eauto 10.
    + destruct tr; qt_run;
        [|returns_step (enable_output_returns dev); qt_run; destruct ok1; qt_run];
        eexists; (split; [reflexivity|]); cbn; eauto 10.
  - destruct (bool_decide (Some (normalize_bandwidth (bandwidth entry)) = lbw)); qt_run.
    + destruct tr; qt_run;
        [|returns_step (enable_output_returns dev); qt_run; destruct ok1; qt_run];
        eexists; (split; [reflexivity|]); cbn; eauto 10.
    + rewrite Hdn. qt_run.
      returns_step (set_modulation_fm_returns dev dn). qt_run.
      destruct tr; qt_run;
        [|returns_step (enable_output_returns dev); qt_run; destruct ok2; qt_run];
        eexists; (split; [reflexivity|]); cbn; eauto 10.
Qed.

(** The hop index walks the playlist and wraps.  While a session runs
    on an unedited playlist, no tick of the hop timer raises, whatever
    the device answers and whether or not its commands succeed, and
    after [n] ticks the index has advanced by [n] modulo the length of
    the playlist: after as many ticks as the playlist has entries it is
    back where it was. *)
Theorem qt_hop_index_wraps (g : GUI) (n : nat) :
  qt_hop_ready g ->
  exists g',
    hops dev float_repr n g = (Return tt, g') /\
    playlist g' = playlist g /\
    current_idx g' = ((current_idx g + n) mod length (playlist g))%nat /\
    (n = length (playlist g) -> current_idx g' = current_idx g) /\
    qt_hop_ready g'.
Proof.
  intros Hready.
  assert (Hmain : exists g',
    hops dev float_repr n g = (Return tt, g') /\
    playlist g' = playlist g /\
    current_idx g' = ((current_idx g + n) mod length (playlist g))%nat /\
    qt_hop_ready g').
  { revert g Hready. induction n as [|n IH]; intros g Hready.
    - exists g. split; [reflexivity|]. split; [reflexivity|].
      split; [|exact Hready]. destruct Hready as (_ & _ & Hidx & _).
      rewrite Nat.add_0_r, Nat.mod_small by exact Hidx. reflexivity.
    - destruct (hop_once_run g Hready) as (g1 & Hhop & Hpl & Hidx1 & Hbw & Hrun & Hco).
      assert (Hlen : (0 < length (playlist g))%nat)
        by (destruct Hready as (_ & _ & Hidx & _); lia).
      assert (Hready1 : qt_hop_ready g1).
      { split; [exact Hrun|]. split; [exact Hco|]. split.
        - rewrite Hidx1, Hpl. apply Nat.mod_upper_bound. lia.
        - rewrite Hbw. apply Hready. }
      destruct (IH g1 Hready1) as (g' & Hhops & Hpl' & Hidx' & Hready').
      exists g'. cbn [hops]. unfold bind at 1. rewrite Hhop, Hhops.
      split; [reflexivity|]. split; [congruence|]. split; [|exact Hready'].
      rewrite Hidx', Hidx1, Hpl.
      rewrite Nat.Div0.add_mod_idemp_l. f_equal. lia. }
  destruct Hmain as (g' & Hhops & Hpl & Hidx & Hready').
  exists g'. split; [exact Hhops|]. split; [exact Hpl|]. split; [exact Hidx|].
  split; [|exact Hready'].
  intros ->. rewrite Hidx.
  replace (current_idx g + length (playlist g))%nat
    with (current_idx g + 1 * length (playlist g))%nat by lia.
  rewrite Nat.Div0.mod_add. apply Nat.mod_small. apply Hready.
Qed.

End QtHops.

Lemma qt_hop_index_wraps_witness :
  let dev := simple_device smy02_idn (Some "0") in
  let g := state_of (Qt._start_hopping dev ratio_repr 2000 (Qt.connected_to dev three_entries)) in
  qt_hop_ready g /\
  exists g', Qt.hops dev ratio_repr 3 g = (Return tt, g') /\ Qt.current_idx g' = Qt.current_idx g.
Proof.
  intros dev g.
  assert (Hready : qt_hop_ready g).
  { split; [reflexivity|]. split; [vm_compute; eauto|]. split; [vm_compute; lia|].
    vm_compute. eauto. }
  split; [exact Hready|].
  destruct (qt_hop_index_wraps dev ratio_repr g 3 Hready) as (g' & Hhops & _ & _ & Hwrap & _).
  exists g'. split; [exact Hhops|]. apply Hwrap. reflexivity.
Defined.

Section TkSessions.

Import Tk.

Variable dev : Device.
Variable float_repr : Q -> string.

(** A loop iteration that goes round again has applied the entry under
    the index and moved the index one further, modulo the length of the
    list it walks. *)
Lemma worker_cycle_index dwell_ms w g :
  let r := worker_cycle dev float_repr dwell_ms w g in
  forall w', result_of r = Return (Some w') ->
    current_playlist_index (state_of r)
      = ((current_playlist_index g + 1) mod length (hop_list g w))%nat /\
    is_Some (hop_list g w !! current_playlist_index g).
Proof.
  destruct g as [c2 e2 co2 tr2 run2 p2 h2 i2 a2 th2 d2].
  cbv beta iota zeta delta
    [worker_cycle bind get ret raise modify call option_lift wait _apply_bandwidth show
     with_link with_transmitting with_index result_of state_of hop_list deref
     controller env connected transmitting playlist_running playlist heap
     current_playlist_index active_hop_playlist playlist_thread dialogs fst snd].
  remember (match hop_playlist w with Some l => default [] (h2 !! l) | None => [] end)
    as L eqn:HL.
  destruct run2, L as [|e0 L]; cbv beta iota zeta; cbn [negb]; try (intros w' Hw; discriminate Hw).
  destruct ((e0 :: L) !! i2) as [entry|]; cbv beta iota zeta; [|intros w' Hw; discriminate Hw].
  destruct c2 as [c|]; cbv beta iota zeta; [|intros w' Hw; discriminate Hw].
  destruct (set_frequency dev _ _) as [[[]|] [c' e']]; cbv beta iota zeta; cbn [negb ctl world];
    try (intros w' Hw; discriminate Hw).
  destruct (set_amplitude dev _ _ _) as [[[]|] [c'' e'']]; cbv beta iota zeta;
    cbn [negb ctl world]; try (intros w' Hw; discriminate Hw).
  destruct (bool_decide _); cbv beta iota zeta.
  - destruct tr2, (rf_enable_failed w); cbv beta iota zeta; cbn [negb andb];
      try (intros w' _; rewrite <- HL; split; [reflexivity|eexists; reflexivity]).
    destruct (enable_output dev _) as [[[]|] [c3 e3]]; cbv beta iota zeta;
      cbn [negb ctl world]; intros w' Hw; try discriminate Hw; rewrite <- HL; (split; [reflexivity|eexists; reflexivity]).
  - destruct (bandwidth_lookup BANDWIDTHS _); cbv beta iota zeta; [|intros w' Hw; discriminate Hw].
    destruct (set_modulation_fm dev _ _) as [[b|] [c3 e3]]; cbv beta iota zeta;
      cbn [ctl world]; [|intros w' Hw; discriminate Hw].
    destruct tr2, (rf_enable_failed w); cbv beta iota zeta; cbn [negb andb];
      try (intros w' _; rewrite <- HL; split; [reflexivity|eexists; reflexivity]).
    destruct (enable_output dev _) as [[[]|] [c4 e4]]; cbv beta iota zeta;
      cbn [negb ctl world]; intros w' Hw; try discriminate Hw; rewrite <- HL; (split; [reflexivity|eexists; reflexivity]).
Qed.

(** One step of a looping worker that leaves it looping. *)
Lemma worker_step_looping g dwell_ms w dwell_ms' w' :
  playlist_thread g = Some (Looping dwell_ms w) ->
  playlist_thread (worker_step dev float_repr g) = Some (Looping dwell_ms' w') ->
  dwell_ms' = dwell_ms /\
  current_playlist_index (worker_step dev float_repr g)
    = ((current_playlist_index g + 1) mod length (hop_list g w))%nat /\
  (current_playlist_index g < length (hop_list g w))%nat /\
  hop_list (worker_step dev float_repr g) w' = hop_list g w.
Proof.
  intros Hth Hth'.
  pose proof (worker_cycle_frame dev float_repr dwell_ms w g) as Hframe.
  pose proof (worker_cycle_index dwell_ms w g) as Hindex.
  cbv zeta in Hframe, Hindex.
  unfold worker_step in *. rewrite Hth in *.
  destruct (worker_cycle dev float_repr dwell_ms w g) as [[[w1|]|] g1];
    unfold state_of, result_of in *; cbn [fst snd] in *;
    cbn in Hth'; try discriminate.
  injection Hth' as <- <-.
  destruct Hframe as (Hh & _ & _ & _ & Hw).
  destruct (Hindex w1 eq_refl) as [Hi Hsome].
  split; [reflexivity|]. split; [exact Hi|]. split.
  - apply lookup_lt_is_Some_1. exact Hsome.
  - unfold hop_list, deref. cbn. rewrite (Hw w1 eq_refl), Hh. reflexivity.
Qed.

Lemma run_worker_step n g :
  run dev float_repr (replicate (S n) WorkerStep) g
  = run dev float_repr (replicate n WorkerStep) (worker_step dev float_repr g).
Proof. reflexivity. Qed.

Lemma run_worker_done n g :
  playlist_thread g = None ->
  run dev float_repr (replicate n WorkerStep) g = g.
Proof.
  intros Hth. induction n as [|n IH]; [reflexivity|].
  rewrite run_worker_step. unfold worker_step. rewrite Hth. exact IH.
Qed.

(** The index of a worker that is still looping after [n] steps. *)
Lemma run_worker_looping n :
  forall g dwell_ms w dwell_ms' w',
    playlist_thread g = Some (Looping dwell_ms w) ->
    (current_playlist_index g < length (hop_list g w))%nat ->
    playlist_thread (run dev float_repr (replicate n WorkerStep) g)
      = Some (Looping dwell_ms' w') ->
    current_playlist_index (run dev float_repr (replicate n WorkerStep) g)
      = ((current_playlist_index g + n) mod length (hop_list g w))%nat /\
    hop_list (run dev float_repr (replicate n WorkerStep) g) w' = hop_list g w.
Proof.
  induction n as [|n IH]; intros g dwell_ms w dwell_ms' w' Hth Hidx Hend.
  - cbn in *. rewrite Hth in Hend. injection Hend as <- <-.
    rewrite Nat.add_0_r, Nat.mod_small by exact Hidx. split; reflexivity.
  - rewrite run_worker_step in *.
    destruct (playlist_thread (worker_step dev float_repr g)) as [[d1|d1 w1]|] eqn:Hth1.
    + exfalso. unfold worker_step in Hth1. rewrite Hth in Hth1.
      destruct (worker_cycle dev float_repr dwell_ms w g) as [[[w2|]|] g2];
        cbn in Hth1; discriminate.
    + destruct (worker_step_looping g dwell_ms w d1 w1 Hth Hth1) as (-> & Hi & _ & Hl).
      assert (Hlen : (0 < length (hop_list g w))%nat) by lia.
      destruct (IH _ dwell_ms w1 dwell_ms' w' Hth1) as [Hi' Hl'].
      * rewrite Hi, Hl. apply Nat.mod_upper_bound. lia.
      * exact Hend.
      * rewrite Hi', Hl', Hi, Hl. split; [|reflexivity].
        rewrite Nat.Div0.add_mod_idemp_l. f_equal. lia.
    + rewrite run_worker_done in Hend by exact Hth1. congruence.
Qed.

Lemma worker_steps_replicate evs :
  worker_steps evs = replicate (length (worker_steps evs)) WorkerStep.
Proof.
  induction evs as [|[e|] evs IH]; cbn; [reflexivity|exact IH|f_equal; exact IH].
Qed.

(** The tkinter worker walks the playlist as it was at the start, in
    order, and wraps.  In any interleaving of worker steps and playlist
    edits after [_start_hopping], as long as the worker is looping it
    walks a list equal to the playlist the session was started on, and
    after its prologue and [k] iterations its index is [k] modulo the
    length of that list: no edit moves the index or the entries under
    it. *)
Theorem tk_worker_walks_snapshot (dwell_ms : Z) (evs : list event) (g : GUI) :
  heap_ok g ->
  connected g = true -> live g <> [] -> playlist_running g = false ->
  let final := run dev float_repr evs (state_of (_start_hopping dwell_ms g)) in
  forall dwell_ms' w',
    playlist_thread final = Some (Looping dwell_ms' w') ->
    hop_list final w' = live g /\
    (0 < length (worker_steps evs))%nat /\
    current_playlist_index final
      = ((length (worker_steps evs) - 1) mod length (live g))%nat.
Proof.
  intros Hok Hco Hlive Hrun final dwell_ms' w' Hfinal.
  set (started := state_of (_start_hopping dwell_ms g)) in *.
  destruct (start_hopping_snapshot dwell_ms g Hok Hco Hlive Hrun)
    as (Hrun' & Hidx0 & Hth0 & Hsnap & _ & _).
  fold started in Hrun', Hidx0, Hth0, Hsnap.
  assert (Hco' : connected started = true).
  { subst started. unfold _start_hopping, bind, get, modify, state_of. cbv beta iota.
    rewrite Hco, Hrun. cbn [negb].
    rewrite bool_decide_eq_false_2 by exact Hlive. cbn. exact Hco. }
  assert (Hview : view final
                  = view (run dev float_repr (worker_steps evs) started)).
  { apply related_view, (run_related dev float_repr evs started started).
    - apply start_hopping_heap_ok, Hok.
    - apply related_refl. }
  set (pure := run dev float_repr (worker_steps evs) started) in *.
  assert (Hth : playlist_thread pure = Some (Looping dwell_ms' w')).
  { change (view_thread (view pure) = Some (Looping dwell_ms' w')).
    rewrite <- Hview. exact Hfinal. }
  assert (Hhop : hop_list final w' = hop_list pure w').
  { pose proof (f_equal view_hop_list Hview) as Hv. cbn in Hv.
    rewrite Hfinal, Hth in Hv. injection Hv as Hv. exact Hv. }
  assert (Hindex : current_playlist_index final = current_playlist_index pure)
    by exact (f_equal view_index Hview).
  rewrite Hhop, Hindex. clear Hview Hhop Hindex Hfinal.
  subst pure. rewrite worker_steps_replicate in Hth |- *.
  rewrite length_replicate.
  destruct (length (worker_steps evs)) as [|k].
  { cbn in Hth. rewrite Hth0 in Hth. discriminate. }
  rewrite run_worker_step in Hth |- *.
  (* the prologue *)
  cbn [view view_snapshot] in Hsnap.
  destruct (active_hop_playlist started) as [l|] eqn:Hact; [|discriminate Hsnap].
  cbn [option_map] in Hsnap. injection Hsnap as Hsnap.
  set (w0 := {| hop_playlist := Some l; rf_enable_failed := false; last_bw := None |}).
  assert (Hpro : worker_step dev float_repr started
                 = with_thread (Some (Looping dwell_ms w0)) started).
  { unfold worker_step. rewrite Hth0, Hco', Hact. cbn [negb].
    rewrite bool_decide_eq_false_2 by (rewrite Hsnap; exact Hlive). reflexivity. }
  rewrite Hpro in Hth |- *.
  set (g0 := with_thread (Some (Looping dwell_ms w0)) started) in *.
  assert (Hl0 : hop_list g0 w0 = live g) by exact Hsnap.
  assert (Hi0 : current_playlist_index g0 = 0%nat) by exact Hidx0.
  destruct (run_worker_looping k g0 dwell_ms w0 dwell_ms' w' eq_refl) as [Hi Hl].
  - rewrite Hi0, Hl0. destruct (live g); [contradiction|cbn; lia].
  - exact Hth.
  - rewrite Hl, Hi, Hi0, Hl0. split; [reflexivity|]. split; [lia|].
    f_equal. lia.
Qed.

(** How a session of the tkinter GUI ends.  After [_stop_hopping] the
    next step of the worker leaves the loop without any I/O and clears
    the session.  A frequency or a level that the controller reports as
    not set ends the session too: the worker shows the error, applies
    nothing further from the entry, and clears the session. *)
Theorem tk_session_ends (g : GUI) (dwell_ms : Z) (w : Worker) :
  playlist_thread g = Some (Looping dwell_ms w) ->
  (let g' := worker_step dev float_repr (_stop_hopping g) in
   playlist_thread g' = None /\ playlist_running g' = false /\
   active_hop_playlist g' = None /\
   env g' = env g /\ dialogs g' = dialogs g /\
   current_playlist_index g' = current_playlist_index g) /\
  (forall c entry s',
     playlist_running g = true ->
     controller g = Some c ->
     hop_list g w !! current_playlist_index g = Some entry ->
     set_frequency dev (hz_of_mhz (frequency entry)) {| ctl := c; world := env g |}
       = (Return false, s') ->
     let g' := worker_step dev float_repr g in
     playlist_thread g' = None /\ playlist_running g' = false /\
     active_hop_playlist g' = None /\
     env g' = world s' /\
     dialogs g' = dialogs g ++ [Error "Error"
       ("Failed to set hop frequency: " +:+ float_repr (frequency entry) +:+ " MHz")] /\
     transmitting g' = transmitting g) /\
  (forall c entry s1 s2,
     playlist_running g = true ->
     controller g = Some c ->
     hop_list g w !! current_playlist_index g = Some entry ->
     set_frequency dev (hz_of_mhz (frequency entry)) {| ctl := c; world := env g |}
       = (Return true, s1) ->
     set_amplitude dev float_repr (level entry) s1 = (Return false, s2) ->
     let g' := worker_step dev float_repr g in
     playlist_thread g' = None /\ playlist_running g' = false /\
     active_hop_playlist g' = None /\
     env g' = world s2 /\
     dialogs g' = dialogs g ++ [Error "Error"
       ("Failed to set hop level: " +:+ float_repr (level entry) +:+ " dBm")] /\
     transmitting g' = transmitting g).
Proof.
  intros Hth. split; [|split].
  - cbv zeta. unfold worker_step, _stop_hopping. cbn [playlist_thread with_session].
    rewrite Hth. unfold worker_cycle, bind, get. cbn. repeat split.
  - intros c entry s' Hrun Hc Hentry Hf. cbv zeta.
    assert (Hcycle : worker_cycle dev float_repr dwell_ms w g
      = (Return None,
         show (Error "Error"
                 ("Failed to set hop frequency: " +:+ float_repr (frequency entry) +:+ " MHz"))
           (with_link (Some (ctl s')) (world s') g))).
    { destruct (hop_list g w) as [|e0 L] eqn:HL; [discriminate|].
      unfold worker_cycle, option_lift, bind, get, ret, raise, modify, call.
      rewrite Hrun. cbn [negb]. cbv beta iota zeta. rewrite HL. cbv beta iota zeta.
      rewrite Hentry. cbv beta iota zeta. rewrite Hc, Hf. cbv beta iota zeta. cbn [negb].
      reflexivity. }
    unfold worker_step. rewrite Hth, Hcycle. cbn. repeat split.
  - intros c entry s1 s2 Hrun Hc Hentry Hf Hl. cbv zeta.
    assert (Hcycle : worker_cycle dev float_repr dwell_ms w g
      = (Return None,
         show (Error "Error"
                 ("Failed to set hop level: " +:+ float_repr (level entry) +:+ " dBm"))
           (with_link (Some (ctl s2)) (world s2) g))).
    { destruct (hop_list g w) as [|e0 L] eqn:HL; [discriminate|].
      unfold worker_cycle, option_lift, bind, get, ret, raise, modify, call.
      rewrite Hrun. cbn [negb]. cbv beta iota zeta. rewrite HL. cbv beta iota zeta.
      rewrite Hentry. cbv beta iota zeta. rewrite Hc, Hf. cbv beta iota zeta. cbn [negb].
      cbn [controller with_link env]. destruct s1 as [c1 e1]. cbn [ctl world].
      rewrite Hl. cbv beta iota zeta. cbn [negb]. reflexivity. }
    unfold worker_step. rewrite Hth, Hcycle. cbn. repeat split.
Qed.

End TkSessions.

Lemma tk_worker_walks_snapshot_witness :
  let dev := simple_device smy02_idn (Some "0") in
  let g := Tk.connected_to dev three_entries in
  let evs := [Tk.WorkerStep; Tk.WorkerStep; Tk.Edit (Tk.RemoveFromPlaylist (Some 1%nat));
              Tk.WorkerStep; Tk.Edit (Tk.ClearPlaylist true); Tk.WorkerStep] in
  let final := Tk.run dev ratio_repr evs (state_of (Tk._start_hopping 2000 g)) in
  let w := {| Tk.hop_playlist := Some 2%positive; Tk.rf_enable_failed := false;
              Tk.last_bw := Some "12.5 kHz" |} in
  Tk.heap_ok g /\
  Tk.hop_list final w = three_entries /\
  Tk.current_playlist_index final = 0%nat.
Proof.
  intros dev g evs final w.
  assert (Hok : Tk.heap_ok g).
  { split; [vm_compute; eauto|].
    intros l [Hl|(d & w0 & Hth & _)]; [vm_compute in Hl|vm_compute in Hth]; discriminate. }
  assert (Hlive : Tk.live g <> []) by (vm_compute; discriminate).
  assert (Hfinal : Tk.playlist_thread final = Some (Tk.Looping 2000 w))
    by (vm_compute; reflexivity).
  split; [exact Hok|].
  destruct (tk_worker_walks_snapshot dev ratio_repr 2000 evs g Hok eq_refl Hlive eq_refl
              2000 w Hfinal) as (Hl & _ & Hi).
  split; [exact Hl|exact Hi].
Defined.

Lemma tk_session_ends_witness :
  let dev := simple_device smy02_idn (Some "0") in
  let started := state_of (Tk._start_hopping 2000 (Tk.connected_to dev three_entries)) in
  let g := Tk.worker_step dev ratio_repr (Tk.worker_step dev ratio_repr started) in
  let w := {| Tk.hop_playlist := Some 2%positive; Tk.rf_enable_failed := false;
              Tk.last_bw := Some "12.5 kHz" |} in
  Tk.playlist_thread g = Some (Tk.Looping 2000 w) /\
  Tk.playlist_thread (Tk.worker_step dev ratio_repr (Tk._stop_hopping g)) = None /\
  Tk.env (Tk.worker_step dev ratio_repr (Tk._stop_hopping g)) = Tk.env g.
Proof.
  intros dev started g w.
  assert (Hth : Tk.playlist_thread g = Some (Tk.Looping 2000 w)) by (vm_compute; reflexivity).
  split; [exact Hth|].
  destruct (tk_session_ends dev ratio_repr g 2000 w Hth) as ((H1 & _ & _ & H2 & _) & _).
  split; [exact H1|exact H2].
Defined.

(** * Further properties of the transmission handlers *)

Lemma disable_output_ctl dev s : ctl (state_of (disable_output dev s)) = ctl s.
Proof.
  destruct s as [c w]. unfold disable_output. unfold_prog.
  destruct (instrument c) as [i|] eqn:Hi; [|reflexivity].
  exec Hi. destruct_writes dev Hi; reflexivity.
Qed.

Section TkTransmit.

Import Tk.

Variable dev : Device.
Variable float_repr : Q -> string.

(** Switching the output on in the tkinter GUI.  The worker enables the
    output only after the frequency and the level are reported as set:
    if either fails it shows the error and makes no further I/O, so no
    enable command is written.  A bandwidth that cannot be set only
    yields a warning; the output is enabled all the same, and
    [transmitting] is set exactly when [enable_output] returns [True]. *)
Theorem tk_enable_needs_frequency_and_level
    (g : GUI) (c : Controller) (freq_mhz level : Q) (bw_name : string) :
  controller g = Some c ->
  let start := {| ctl := c; world := env g |} in
  let r := _enable_transmit_worker dev float_repr freq_mhz level bw_name g in
  (forall s1,
     set_frequency dev (hz_of_mhz freq_mhz) start = (Return false, s1) ->
     result_of r = Return tt /\
     env (state_of r) = world s1 /\
     transmitting (state_of r) = transmitting g /\
     dialogs (state_of r) = dialogs g ++ [Error "Error" "Failed to set frequency"]) /\
  (forall s1 s2,
     set_frequency dev (hz_of_mhz freq_mhz) start = (Return true, s1) ->
     set_amplitude dev float_repr level (after_pause s1) = (Return false, s2) ->
     result_of r = Return tt /\
     env (state_of r) = world s2 /\
     transmitting (state_of r) = transmitting g /\
     dialogs (state_of r) = dialogs g ++ [Error "Error" "Failed to set level"]) /\
  (forall s1 s2 dv ok_b s3 ok_e s4,
     set_frequency dev (hz_of_mhz freq_mhz) start = (Return true, s1) ->
     set_amplitude dev float_repr level (after_pause s1) = (Return true, s2) ->
     bandwidth_lookup BANDWIDTHS bw_name = Some dv ->
     set_modulation_fm dev dv (after_pause s2) = (Return ok_b, s3) ->
     enable_output dev (after_pause s3) = (Return ok_e, s4) ->
     result_of r = Return tt /\
     env (state_of r) = world s4 /\
     transmitting (state_of r) = (if ok_e then true else transmitting g) /\
     dialogs (state_of r)
       = dialogs g
         ++ (if ok_b then []
             else [Warning "Warning"
                     "Bandwidth command may not be supported by this SMY02 firmware"])
         ++ (if ok_e then [] else [Error "Error" "Failed to enable RF output"])).
Proof.
  intros Hc. cbv zeta.
  destruct g as [c2 e2 co2 tr2 run2 p2 h2 i2 a2 th2 d2]. cbn [controller env] in *.
  subst c2.
  unfold _enable_transmit_worker, _apply_bandwidth, try_except, wait.
  cbv beta iota zeta delta [bind ret raise get modify call option_lift].
  cbn [controller env with_link with_transmitting show].
  split; [|split].
  - intros s1 Hf. rewrite Hf. cbn. rewrite app_nil_r || idtac. repeat split.
  - intros [c1 e1] s2 Hf Hl. rewrite Hf.
    cbn [negb controller env with_link with_transmitting show ctl world].
    unfold after_pause in Hl. cbn [ctl world] in Hl. rewrite Hl. cbn. repeat split.
  - intros [c1 e1] [c2 e3] dv ok_b [c3 e4] ok_e s4 Hf Hl Hbw Hm He. rewrite Hf.
    cbn [negb controller env with_link with_transmitting show ctl world].
    unfold after_pause in Hl, Hm, He. cbn [ctl world] in Hl, Hm, He.
    rewrite Hl. cbn [negb controller env with_link with_transmitting show ctl world].
    rewrite Hbw. cbv beta iota.
    cbn [negb controller env with_link with_transmitting show ctl world].
    rewrite Hm. cbv beta iota.
    destruct ok_b; cbn [negb controller env with_link with_transmitting show ctl world
                        dialogs];
      rewrite He; destruct ok_e; cbn; rewrite <- ?app_assoc, ?app_nil_r; repeat split.
Qed.

End TkTransmit.

Lemma tk_enable_needs_frequency_and_level_witness :
  let dev := simple_device generic_idn (Some "4") in
  let g := Tk.connected_to dev three_entries in
  let r := Tk._enable_transmit_worker dev ratio_repr 144 (-20) "12.5 kHz" g in
  Tk.transmitting (state_of r) = false /\
  Tk.dialogs (state_of r) = [Error "Error" "Failed to set frequency"].
Proof.
  intros dev g r.
  destruct (tk_enable_needs_frequency_and_level dev ratio_repr g _ 144 (-20) "12.5 kHz"
              eq_refl) as (H & _).
  destruct (H _ eq_refl) as (_ & _ & Ht & Hd). split; [exact Ht|exact Hd].
Defined.

Lemma bool_decide_is_Some_Some {A} (x : A) : bool_decide (is_Some (Some x)) = true.
Proof. apply bool_decide_eq_true_2. eauto. Qed.

Section QtTransmit.

Import Qt.

Variable dev : Device.
Variable float_repr : Q -> string.

Ltac qt_run :=
  cbv beta iota zeta delta [bind ret raise get modify call option_lift _warn _err];
  cbn [controller env connected transmitting playlist_running playlist current_idx
       _hop_last_bw hop_timer chk_auto_mod am_from_mhz am_to_mhz selected_bw dialogs
       with_link with_transmitting with_hopping with_playlist with_connected show
       ctl world negb andb orb].

(** Disconnecting in the Qt GUI.  [_disconnect] ends a running hopping
    session, switches the output off first when the GUI holds it for on
    (and then holds it for off, whatever the device answered), and
    disconnects the controller.  When [close()] raises there, so does
    [_disconnect]: [connected] keeps its value and the controller its
    instrument.  Either way the playlist is left alone and a tick of the hop
    timer does nothing afterwards. *)
Lemma qt_disconnect_run (g : GUI) :
  let e1 := match controller g with
            | Some c =>
                if transmitting g
                then world (state_of (disable_output dev {| ctl := c; world := env g |}))
                else env g
            | None => env g
            end in
  let closes := match controller g with
                | Some c => match instrument c with
                            | Some _ => dev_close dev (wire e1)
                            | None => true
                            end
                | None => true
                end in
  exists g',
    _disconnect dev g = (if closes then Return tt else Raise, g') /\
    connected g' = (if closes then false else connected g) /\
    playlist_running g' = false /\
    playlist g' = playlist g /\
    env g' = e1 /\
    match controller g with
    | Some c =>
        transmitting g' = false /\
        exists c', controller g' = Some c' /\
                   if closes then instrument c' = None else c' = c
    | None => transmitting g' = transmitting g /\ controller g' = None
    end /\
    _hop_once dev float_repr g' = (Return tt, g').
Proof.
  cbv zeta.
  destruct g as [co e cn tr run pl idx lbw tm am af at_ sbw dl].
  unfold _disconnect, _shutdown, _stop_hopping, _hop_once. qt_run.
  destruct co as [c|].
  - rewrite (bool_decide_eq_true_2 _ (ltac:(eauto) : is_Some (Some c))).
    destruct run, tr; qt_run;
      try rewrite (bool_decide_eq_true_2 _ (ltac:(eauto) : is_Some (Some c)));
      qt_run;
      try (pose proof (disable_output_ctl dev {| ctl := c; world := e |}) as Hctl;
           destruct (disable_output_returns dev {| ctl := c; world := e |})
             as (ok & [c1 e1] & E); rewrite E in Hctl |- *; clear E;
           cbn [state_of snd ctl world] in Hctl |- *; subst c1; qt_run);
      rewrite disconnect_run; cbn [ctl world];
      (destruct (instrument c) as [i|] eqn:Hi;
       [match goal with |- context [dev_close dev ?h] => destruct (dev_close dev h) end|]);
      qt_run; eexists; (split; [reflexivity|]); cbn; eauto 10.
  - rewrite (bool_decide_eq_false_2 (is_Some None)) by (intros [x Hx]; discriminate).
    destruct run; qt_run; eexists; (split; [reflexivity|]); cbn;
      rewrite ?(bool_decide_eq_false_2 (is_Some None)) by (intros [x Hx]; discriminate);
      cbn; eauto 10.
Qed.

(** Switching the output on in the Qt GUI.  Unlike the tkinter worker,
    [_toggle_tx] does not stop at a failure: with the output held for
    off it sets frequency, level and (without auto-modulation) bandwidth,
    and whatever these calls return it then calls [enable_output];
    [transmitting] is set exactly when that call returns [True]. *)
Theorem qt_toggle_tx_always_tries_output
    (g : GUI) (c : Controller) (freq_mhz level_dbm : Q) (combo_text : string) :
  connected g = true ->
  controller g = Some c ->
  transmitting g = false ->
  chk_auto_mod g = false ->
  exists before ok after g',
    _toggle_tx dev float_repr freq_mhz level_dbm combo_text g = (Return tt, g') /\
    enable_output dev before = (Return ok, after) /\
    env g' = world after /\
    transmitting g' = ok /\
    exists s1 s2 ok_f ok_l ok_b,
      set_frequency dev (hz_of_mhz freq_mhz) {| ctl := c; world := env g |}
        = (Return ok_f, s1) /\
      set_amplitude dev float_repr level_dbm s1 = (Return ok_l, s2) /\
      set_modulation_fm dev
        (default 6250 (bandwidth_lookup BANDWIDTHS
                         (normalize_bandwidth (PyStr.strip combo_text)))) s2
        = (Return ok_b, before).
Proof.
  intros Hcn Hc Htr Ham.
  destruct g as [co e cn tr run pl idx lbw tm am af at_ sbw dl].
  cbn [connected controller transmitting chk_auto_mod env] in *. subst co cn tr am.
  destruct (normalize_bandwidth_known (PyStr.strip combo_text)) as [dv Hdv].
  destruct (set_frequency_returns dev (hz_of_mhz freq_mhz) {| ctl := c; world := e |})
    as (ok_f & [c1 e1] & Ef).
  destruct (set_amplitude_returns dev float_repr level_dbm {| ctl := c1; world := e1 |})
    as (ok_l & [c2 e2] & El).
  destruct (set_modulation_fm_returns dev dv {| ctl := c2; world := e2 |})
    as (ok_b & [c3 e3] & Eb).
  destruct (enable_output_returns dev {| ctl := c3; world := e3 |})
    as (ok_e & [c4 e4] & Ee).
  assert (Hrun : exists g',
    _toggle_tx dev float_repr freq_mhz level_dbm combo_text
      {| controller := Some c; env := e; connected := true; transmitting := false;
         playlist_running := run; playlist := pl; current_idx := idx;
         _hop_last_bw := lbw; hop_timer := tm; chk_auto_mod := false;
         am_from_mhz := af; am_to_mhz := at_; selected_bw := sbw; dialogs := dl |}
      = (Return tt, g') /\
    env g' = e4 /\ transmitting g' = ok_e).
  { unfold _toggle_tx, _set_frequency, _set_level, _set_bandwidth,
      _apply_modulation_for_frequency.
    destruct ok_f, ok_l, ok_e;
      repeat (rewrite bool_decide_is_Some_Some || rewrite Ef || rewrite El || rewrite Hdv
              || rewrite Eb || rewrite Ee || (progress qt_run));
      eexists; (split; [reflexivity|]); split; reflexivity. }
  destruct Hrun as (g' & Hrun & Henv & Htr).
  exists {| ctl := c3; world := e3 |}, ok_e, {| ctl := c4; world := e4 |}, g'.
  split; [exact Hrun|]. split; [exact Ee|]. split; [exact Henv|]. split; [exact Htr|].
  exists {| ctl := c1; world := e1 |}, {| ctl := c2; world := e2 |}, ok_f, ok_l, ok_b.
  rewrite Hdv. cbn [default]. repeat split; assumption.
Qed.

End QtTransmit.

Lemma qt_toggle_tx_always_tries_output_witness :
  let dev := simple_device generic_idn (Some "4") in
  let g := Qt.connected_to dev three_entries in
  exists g',
    Qt._toggle_tx dev ratio_repr 144 (-20) "12.5 kHz" g = (Return tt, g') /\
    Qt.transmitting g' = false.
Proof.
  intros dev g.
  destruct (qt_toggle_tx_always_tries_output dev ratio_repr g _ 144 (-20) "12.5 kHz"
              eq_refl eq_refl eq_refl eq_refl)
    as (before & ok & after & g' & Hrun & _ & _ & Htr & _).
  exists g'. split; [exact Hrun|].
  assert (E : Qt.transmitting (state_of (Qt._toggle_tx dev ratio_repr 144 (-20) "12.5 kHz" g))
              = false) by (vm_compute; reflexivity).
  rewrite Hrun in E. exact E.
Defined.

Section TkDisconnect.

Import Tk.

Variable dev : Device.
Variable float_repr : Q -> string.

Ltac tk_run :=
  cbv beta iota zeta delta [bind ret raise get modify call option_lift try_except];
  cbn [controller env connected transmitting playlist_running playlist heap
       current_playlist_index active_hop_playlist playlist_thread dialogs
       with_link with_transmitting with_session with_connected with_thread show
       ctl world negb andb orb].

(** Disconnecting in the tkinter GUI.  With a controller, [_disconnect]
    stops the hopping session, switches the output off first when the GUI
    is connected and holds it for on, and disconnects the controller; the
    worker then ends at its next step without I/O.  When [close()] raises
    there, so does [_disconnect], and [connected] keeps its value.  Without
    a controller it does nothing. *)
Lemma tk_disconnect_run (g : GUI) :
  let e1 := match controller g with
            | Some c =>
                if transmitting g && connected g
                then world (state_of (disable_output dev {| ctl := c; world := env g |}))
                else env g
            | None => env g
            end in
  let closes := match controller g with
                | Some c => match instrument c with
                            | Some _ => dev_close dev (wire e1)
                            | None => true
                            end
                | None => true
                end in
  exists g',
    _disconnect dev g = (if closes then Return tt else Raise, g') /\
    playlist g' = playlist g /\
    heap g' = heap g /\
    match controller g with
    | Some c =>
        connected g' = (if closes then false else connected g) /\
        playlist_running g' = false /\
        transmitting g' = transmitting g && negb (connected g) /\
        env g' = e1 /\
        (exists c', controller g' = Some c' /\
                    if closes then instrument c' = None else c' = c) /\
        (closes = true ->
         playlist_thread (worker_step dev float_repr g') = None /\
         env (worker_step dev float_repr g') = env g')
    | None => g' = g
    end.
Proof.
  cbv zeta.
  destruct g as [co e cn tr run p h i a th d].
  unfold _disconnect, _shutdown, _stop_hopping. tk_run.
  destruct co as [c|].
  - rewrite bool_decide_is_Some_Some. tk_run.
    assert (Hstep : forall g1 : GUI,
      connected g1 = false -> playlist_running g1 = false ->
      playlist_thread (worker_step dev float_repr g1) = None /\
      env (worker_step dev float_repr g1) = env g1).
    { intros g1 Hcn Hrun. unfold worker_step.
      destruct (playlist_thread g1) as [[d1|d1 w1]|] eqn:Hth.
      - rewrite Hcn. cbn. split; reflexivity.
      - unfold worker_cycle, bind, get. cbv beta iota. rewrite Hrun. cbn. split; reflexivity.
      - split; [exact Hth|reflexivity]. }
    destruct tr, cn; tk_run;
      try (pose proof (disable_output_ctl dev {| ctl := c; world := e |}) as Hctl;
           destruct (disable_output_returns dev {| ctl := c; world := e |})
             as (ok & [c1 e1] & E); rewrite E in Hctl |- *; clear E;
           cbn [state_of snd ctl world] in Hctl |- *; subst c1; tk_run);
      rewrite disconnect_run; cbn [ctl world];
      (destruct (instrument c) as [ins|] eqn:Hi;
       [match goal with |- context [dev_close dev ?h0] => destruct (dev_close dev h0) end|]);
      tk_run; eexists; (split; [reflexivity|]);
      cbn [controller env connected transmitting playlist_running playlist heap
           state_of snd world];
      (split; [reflexivity|]); (split; [reflexivity|]); (split; [reflexivity|]);
      (split; [reflexivity|]); (split; [reflexivity|]); (split; [reflexivity|]);
      (split; [eauto|]);
      first [intros Hc; discriminate Hc | intros _; apply Hstep; reflexivity].
  - rewrite (bool_decide_eq_false_2 (is_Some None)) by (intros [x Hx]; discriminate).
    eexists. split; [reflexivity|]. repeat split.
Qed.

(** Disconnecting ends the session, in both GUIs, unless closing the
    link raises.  [_disconnect] ends a running hopping session, switches
    the output off first when the GUI holds it for on (and then holds it
    for off, whatever the device answered) and calls [disconnect] of the
    controller, outside any [try].  If the controller holds an instrument
    and [close()] raises, [_disconnect] raises: [connected] keeps its
    value and the controller its instrument, though hopping has stopped
    and the output has been switched off.  Otherwise [_disconnect]
    returns, [connected] is false and the controller has no instrument;
    the hopping scheduler does nothing more: a tick of the Qt hop timer is
    a no-op, and the tkinter worker ends at its next step without I/O.
    The playlist is left alone either way. *)
Theorem gui_disconnect_ends_session :
  (forall g : Qt.GUI,
     let e1 := match Qt.controller g with
               | Some c =>
                   if Qt.transmitting g
                   then world (state_of (disable_output dev
                                           {| ctl := c; world := Qt.env g |}))
                   else Qt.env g
               | None => Qt.env g
               end in
     let closes := match Qt.controller g with
                   | Some c => match instrument c with
                               | Some _ => dev_close dev (wire e1)
                               | None => true
                               end
                   | None => true
                   end in
     exists g',
       Qt._disconnect dev g = (if closes then Return tt else Raise, g') /\
       Qt.connected g' = (if closes then false else Qt.connected g) /\
       Qt.playlist_running g' = false /\
       Qt.playlist g' = Qt.playlist g /\
       Qt.env g' = e1 /\
       match Qt.controller g with
       | Some c =>
           Qt.transmitting g' = false /\
           exists c', Qt.controller g' = Some c' /\
                      if closes then instrument c' = None else c' = c
       | None => Qt.transmitting g' = Qt.transmitting g /\ Qt.controller g' = None
       end /\
       Qt._hop_once dev float_repr g' = (Return tt, g')) /\
  (forall g : GUI,
     let e1 := match controller g with
               | Some c =>
                   if transmitting g && connected g
                   then world (state_of (disable_output dev {| ctl := c; world := env g |}))
                   else env g
               | None => env g
               end in
     let closes := match controller g with
                   | Some c => match instrument c with
                               | Some _ => dev_close dev (wire e1)
                               | None => true
                               end
                   | None => true
                   end in
     exists g',
       _disconnect dev g = (if closes then Return tt else Raise, g') /\
       playlist g' = playlist g /\
       heap g' = heap g /\
       match controller g with
       | Some c =>
           connected g' = (if closes then false else connected g) /\
           playlist_running g' = false /\
           transmitting g' = transmitting g && negb (connected g) /\
           env g' = e1 /\
           (exists c', controller g' = Some c' /\
                       if closes then instrument c' = None else c' = c) /\
           (closes = true ->
            playlist_thread (worker_step dev float_repr g') = None /\
            env (worker_step dev float_repr g') = env g')
       | None => g' = g
       end).
Proof.
  split.
  - intros g. exact (qt_disconnect_run dev float_repr g).
  - intros g. exact (tk_disconnect_run g).
Qed.

End TkDisconnect.
